(** * ChromeCleaner: the site-data engine of [chromecleaner.py]

    A shallow embedding of the engine functions of [src/chromecleaner.py]
    ([log_deletion], [create_backup], [is_chrome_running],
    [get_unique_sites], [delete_cookies_for_site],
    [delete_site_data_folders]) and of the methods of [SiteManagerApp]
    that do not depend on the event loop ([update_list],
    [update_countdown], the turn of [execute_deletion] for one site), over
    an explicit model of what they act on: a file system, SQLite database
    images, the session log and the console.  Python exceptions are values
    of a small state-and-exception monad; side effects made before an
    exception is raised stay in the state, as they do in Python. *)

From Stdlib Require Import String Ascii DecimalString.
From stdpp Require Import base option list sorting gmap strings fin_maps.

Open Scope string_scope.
Open Scope list_scope.

(** ** Python [str] helpers

    A [str] is modelled as a [string]: a sequence of characters with code
    points below 256, one [ascii] for each code point. *)

Module Str.

(** The ASCII capitals, and the folding of ASCII letter case alone: the
    one SQLite applies when it compares with [LIKE]. *)
Definition is_upper (c : ascii) : bool :=
  (65 <=? nat_of_ascii c)%nat && (nat_of_ascii c <=? 90)%nat.

Definition lower_char (c : ascii) : ascii :=
  if is_upper c then ascii_of_nat (nat_of_ascii c + 32) else c.

Fixpoint lower_ascii (s : string) : string :=
  match s with
  | EmptyString => EmptyString
  | String c s' => String (lower_char c) (lower_ascii s')
  end.

(** The capitals above ASCII among the code points below 256: U+00C0 to
    U+00DE but the multiplication sign U+00D7. *)
Definition is_upper_latin1 (c : ascii) : bool :=
  (192 <=? nat_of_ascii c)%nat && (nat_of_ascii c <=? 222)%nat &&
  negb (nat_of_ascii c =? 215)%nat.

(** [c.lower()]: every capital, ASCII or not, goes to the letter 32 code
    points on; nothing else changes. *)
Definition py_lower_char (c : ascii) : ascii :=
  if is_upper c || is_upper_latin1 c then ascii_of_nat (nat_of_ascii c + 32) else c.

(** [s.lower()] *)
Fixpoint lower (s : string) : string :=
  match s with
  | EmptyString => EmptyString
  | String c s' => String (py_lower_char c) (lower s')
  end.

(** [needle in hay] *)
Fixpoint contains (needle hay : string) : bool :=
  String.prefix needle hay ||
  match hay with
  | EmptyString => false
  | String _ hay' => contains needle hay'
  end.

(** [s.lstrip('.')]: every leading dot goes. *)
Fixpoint lstrip_dot (s : string) : string :=
  match s with
  | String "."%char s' => lstrip_dot s'
  | _ => s
  end.

(** Truthiness of a [str]: the empty string is falsy. *)
Definition truthy (s : string) : bool :=
  match s with EmptyString => false | _ => true end.

(** [str(n)] for a non-negative [int]. *)
Definition of_nat (n : nat) : string := NilEmpty.string_of_uint (Nat.to_uint n).

(** The format spec [{s:<n}]: pad with spaces on the right up to width [n]. *)
Fixpoint spaces (n : nat) : string :=
  match n with O => "" | S n' => String " "%char (spaces n') end.

Definition ljust (n : nat) (s : string) : string :=
  s +:+ spaces (n - String.length s).

End Str.

(** ** SQLite

    Only what the two statements of the program need: the [cookies] table
    with its [host_key] column, and the [LIKE] operator. *)

Module Sqlite.

(** [X LIKE P] on text, as SQLite evaluates it with its defaults (no
    [ESCAPE], [case_sensitive_like] off): [%] matches any run of
    characters, [_] exactly one, any other character matches itself up
    to ASCII case. *)
Fixpoint like (pat s : string) : bool :=
  match pat with
  | EmptyString => match s with EmptyString => true | _ => false end
  | String "%"%char pat' =>
      (fix skip (s : string) : bool :=
         like pat' s ||
         match s with
         | EmptyString => false
         | String _ s' => skip s'
         end) s
  | String "_"%char pat' =>
      match s with
      | EmptyString => false
      | String _ s' => like pat' s'
      end
  | String c pat' =>
      match s with
      | EmptyString => false
      | String d s' =>
          bool_decide (Str.lower_char c = Str.lower_char d) && like pat' s'
      end
  end.

(** A row of [cookies].  [host_key] is [None] for SQL [NULL]; the other
    columns are opaque to the program and kept together as [rest]. *)
Record CookieRow := { host_key : option string; rest : string }.

(** [host_key LIKE ?] as a [WHERE] clause: [NULL LIKE p] is [NULL], and
    the row is not selected. *)
Definition where_like (pat : string) (r : CookieRow) : bool :=
  match host_key r with
  | Some h => like pat h
  | None => false
  end.

(** [WHERE host_key IS NOT NULL AND host_key != ''] *)
Definition where_host_present (r : CookieRow) : option string :=
  match host_key r with
  | Some h => if Str.truthy h then Some h else None
  | None => None
  end.

End Sqlite.


(** ** Exceptions

    The exception classes that can reach the engine functions.  All of
    them derive from [Exception]; [sqlite3.OperationalError] derives from
    [sqlite3.DatabaseError]. *)

Inductive ExcClass :=
  | Exception_
  | FileNotFoundError_
  | FileExistsError_
  | PermissionError_
  | ShutilError_
  | DatabaseError_
  | OperationalError_.

Record PyExc := { exc_class : ExcClass; exc_msg : string }.

#[global] Instance ExcClass_eq_dec : EqDecision ExcClass.
Proof. solve_decision. Defined.

(** [isinstance(e, sqlite3.OperationalError)] *)
Definition is_operational (e : PyExc) : bool :=
  bool_decide (exc_class e = OperationalError_).

(** ** Paths and the file system *)

Abbreviation Path := (list string).

Declare Scope path_scope.
Delimit Scope path_scope with path.

Definition path_join (p : Path) (c : string) : Path := p ++ [c].
Infix "/" := path_join : path_scope.

(** [p.name] and [p.parent] *)
Definition path_name (p : Path) : string := default "" (last p).
Definition path_parent (p : Path) : Path := take (length p - 1) p.

(** [str(p)], with the separator of the platform the program targets. *)
Definition path_str (p : Path) : string := String.concat "\" p.

(** [q] is an entry of the directory [d]. *)
Definition is_child (d q : Path) : bool :=
  bool_decide (q ≠ [] ∧ path_parent q = d).

(** A database image: what the SQLite engine finds in a file.  [db_fault]
    is the error, if any, that the engine raises for every statement run
    against the file: its content is damaged.  On a file that is opened
    where it lies, as [delete_cookies_for_site] opens the store, the
    field also stands for a lock that another process holds on it; a lock
    is not content and does not travel with a copy, and nothing below is
    claimed about the copy of a locked file.  [db_cookies] is the
    [cookies] table, when there is one. *)
Record DbImage := {
  db_fault : option PyExc;
  db_cookies : option (list Sqlite.CookieRow)
}.

Inductive FileData :=
  | Text (lines : list string)
  | Database (img : DbImage).

Inductive Node :=
  | Dir
  | File (data : FileData).

(** [datetime.datetime.now()], already split the way the two [strftime]
    formats of the program need it. *)
Record DateTime := { dt_date : string; dt_h : string; dt_m : string; dt_s : string }.

(** [strftime("%Y-%m-%d_%H-%M-%S")] and [strftime('%Y-%m-%d %H:%M:%S')] *)
Definition strftime_file (t : DateTime) : string :=
  dt_date t +:+ "_" +:+ dt_h t +:+ "-" +:+ dt_m t +:+ "-" +:+ dt_s t.
Definition strftime_log (t : DateTime) : string :=
  dt_date t +:+ " " +:+ dt_h t +:+ ":" +:+ dt_m t +:+ ":" +:+ dt_s t.

(** The state the engine runs in.

    - [fs]: the file system, every existing path with its node;
    - [denied]: the paths the operating system refuses to open, write or
      remove (in use by another process, or no permission);
    - [COOKIES_DB]: the module global of that name, which
      [get_unique_sites] reassigns;
    - [log_ok], [log_lines]: whether [LOG_FILE] can be opened for append,
      and the lines written to it so far.  The log file is kept apart from
      [fs]: no path the engine writes or removes is the log file;
    - [stdout]: what [print] has written;
    - [now]: the clock;
    - [tmp_seq]: the source of temporary file names. *)
Record World := {
  fs : gmap Path Node;
  denied : gset Path;
  COOKIES_DB : Path;
  log_ok : bool;
  log_lines : list string;
  stdout : list string;
  now : DateTime;
  tmp_seq : nat
}.

Definition set_fs (f : gmap Path Node → gmap Path Node) (w : World) : World :=
  {| fs := f (fs w); denied := denied w; COOKIES_DB := COOKIES_DB w;
     log_ok := log_ok w; log_lines := log_lines w; stdout := stdout w;
     now := now w; tmp_seq := tmp_seq w |}.

Definition set_COOKIES_DB (p : Path) (w : World) : World :=
  {| fs := fs w; denied := denied w; COOKIES_DB := p;
     log_ok := log_ok w; log_lines := log_lines w; stdout := stdout w;
     now := now w; tmp_seq := tmp_seq w |}.

Definition add_log_line (l : string) (w : World) : World :=
  {| fs := fs w; denied := denied w; COOKIES_DB := COOKIES_DB w;
     log_ok := log_ok w; log_lines := log_lines w ++ [l]; stdout := stdout w;
     now := now w; tmp_seq := tmp_seq w |}.

Definition add_stdout (l : string) (w : World) : World :=
  {| fs := fs w; denied := denied w; COOKIES_DB := COOKIES_DB w;
     log_ok := log_ok w; log_lines := log_lines w; stdout := stdout w ++ [l];
     now := now w; tmp_seq := tmp_seq w |}.

Definition bump_tmp_seq (w : World) : World :=
  {| fs := fs w; denied := denied w; COOKIES_DB := COOKIES_DB w;
     log_ok := log_ok w; log_lines := log_lines w; stdout := stdout w;
     now := now w; tmp_seq := S (tmp_seq w) |}.

(** ** The monad of Python computations

    A computation runs on a [World] and either returns a value or raises;
    in both cases it hands on the world it has reached. *)

Inductive Outcome (A : Type) :=
  | Return (a : A)
  | Raise (e : PyExc).
Arguments Return {A} a.
Arguments Raise {A} e.

Definition Py (A : Type) : Type := World → Outcome A * World.

#[global] Instance Py_ret : MRet Py := λ A a w, (Return a, w).
#[global] Instance Py_bind : MBind Py := λ A B k m w,
  match m w with
  | (Return a, w') => k a w'
  | (Raise e, w') => (Raise e, w')
  end.

Definition raise {A} (e : PyExc) : Py A := λ w, (Raise e, w).

(** [try: body  except Exception as e: handler(e)].  An exception raised
    by the handler itself leaves the statement. *)
Definition try_except {A} (body : Py A) (handler : PyExc → Py A) : Py A := λ w,
  match body w with
  | (Return a, w') => (Return a, w')
  | (Raise e, w') => handler e w'
  end.

Definition gets {A} (f : World → A) : Py A := λ w, (Return (f w), w).
Definition modify (f : World → World) : Py unit := λ w, (Return tt, f w).

(** [for x in l: acc = f(acc, x)] *)
Fixpoint for_each {A B} (f : B → A → Py B) (acc : B) (l : list A) : Py B :=
  match l with
  | [] => mret acc
  | x :: l' => acc' ← f acc x; for_each f acc' l'
  end.

Definition print (s : string) : Py unit := modify (add_stdout s).

(** ** [pathlib], [os], [shutil], [tempfile] *)

Definition node_at (w : World) (p : Path) : option Node := fs w !! p.

Definition is_denied (w : World) (p : Path) : bool := bool_decide (p ∈ denied w).

(** [q] cannot be removed: it, or something that exists beneath it, is denied. *)
Definition is_blocked (w : World) (q : Path) : bool :=
  bool_decide (set_Exists (λ d, q `prefix_of` d ∧ is_Some (fs w !! d)) (denied w)).

Definition permission_denied {A} (p : Path) : Py A :=
  raise {| exc_class := PermissionError_;
           exc_msg := "[Errno 13] Permission denied: '" +:+ path_str p +:+ "'" |}.

Definition no_such_file {A} (p : Path) : Py A :=
  raise {| exc_class := FileNotFoundError_;
           exc_msg := "[Errno 2] No such file or directory: '" +:+ path_str p +:+ "'" |}.

(** [p.exists()], [p.is_dir()], [p.is_file()] *)
Definition path_exists (p : Path) : Py bool :=
  gets (λ w, match node_at w p with Some _ => true | None => false end).
Definition path_is_dir (p : Path) : Py bool :=
  gets (λ w, match node_at w p with Some Dir => true | _ => false end).
Definition path_is_file (p : Path) : Py bool :=
  gets (λ w, match node_at w p with Some (File _) => true | _ => false end).

(** [list(p.iterdir())] *)
Definition iterdir (p : Path) : Py (list Path) := λ w,
  if is_denied w p then permission_denied p w
  else match node_at w p with
       | Some Dir => (Return (filter (λ q, is_child p q = true) (map_to_list (fs w)).*1), w)
       | _ => no_such_file p w
       end.

(** [p.unlink()], [os.unlink(p)] *)
Definition unlink (p : Path) : Py unit := λ w,
  if is_denied w p then permission_denied p w
  else match node_at w p with
       | Some (File _) => (Return tt, set_fs (delete p) w)
       | Some Dir => permission_denied p w
       | None => no_such_file p w
       end.

(** [shutil.rmtree(p, ignore_errors=True)]: whatever can be removed of
    [p] and of what lies beneath it is removed, the rest stays, and
    nothing is reported. *)
Definition rmtree_ignore_errors (p : Path) : Py unit := λ w,
  (Return tt,
   set_fs (filter (λ kv, ¬ (p `prefix_of` kv.1 ∧ is_blocked w kv.1 = false))) w).

(** [p.mkdir(parents=True, exist_ok=True)] *)
Definition mkdir_one (q : Path) : Py unit := λ w,
  match node_at w q with
  | Some Dir => (Return tt, w)
  | Some (File _) =>
      raise {| exc_class := FileExistsError_;
               exc_msg := "[Errno 17] File exists: '" +:+ path_str q +:+ "'" |} w
  | None => if is_denied w q then permission_denied q w
            else (Return tt, set_fs <[q := Dir]> w)
  end.

Definition mkdir_parents (p : Path) : Py unit :=
  for_each (λ _ n, mkdir_one (take n p)) tt (seq 1 (length p)).

(** [shutil.copy2(src, dst)]: into [dst] when [dst] is a directory. *)
Definition copy2 (src dst : Path) : Py unit := λ w,
  if is_denied w src then permission_denied src w
  else match node_at w src with
       | Some (File data) =>
           let target := match node_at w dst with
                         | Some Dir => (dst / path_name src)%path
                         | _ => dst
                         end in
           if is_denied w target then permission_denied target w
           else match node_at w target, node_at w (path_parent target) with
                | Some Dir, _ => permission_denied target w
                | _, Some Dir => (Return tt, set_fs <[target := File data]> w)
                | _, _ => no_such_file target w
                end
       | Some Dir => permission_denied src w
       | None => no_such_file src w
       end.

(** [shutil.copytree(src, dst, dirs_exist_ok=True)]: [dst] is made, every
    readable entry beneath [src] is copied to the same place beneath
    [dst], and an error is raised at the end if some entry was not. *)
Definition copy_entries (src dst : Path) : Py unit := λ w,
  let beneath := filter (λ kv, src `prefix_of` kv.1 ∧ kv.1 ≠ src) (fs w) in
  let readable := filter (λ kv, is_blocked w kv.1 = false) beneath in
  let copied := kmap (λ q : Path, (dst ++ drop (length src) q)%list) readable in
  let w' := set_fs (λ m, copied ∪ m) w in
  if bool_decide (size readable = size beneath) then (Return tt, w')
  else raise {| exc_class := ShutilError_; exc_msg := "[copytree errors]" |} w'.

Definition copytree (src dst : Path) : Py unit :=
  mkdir_parents dst;; copy_entries src dst.

(** [open(p, 'w')] followed by the writes and the close. *)
Definition write_text (p : Path) (lines : list string) : Py unit := λ w,
  if is_denied w p then permission_denied p w
  else match node_at w p, node_at w (path_parent p) with
       | Some Dir, _ => permission_denied p w
       | _, Some Dir => (Return tt, set_fs <[p := File (Text lines)]> w)
       | _, _ => no_such_file p w
       end.

(** [tempfile.NamedTemporaryFile(delete=False, suffix=...)] and its
    [close()]: an empty file under a name not in use, which stays. *)
Definition NamedTemporaryFile (tempdir : Path) (suffix : string) : Py Path := λ w,
  let name := (tempdir / ("tmp" +:+ Str.of_nat (tmp_seq w) +:+ suffix))%path in
  match node_at w tempdir, node_at w name with
  | Some Dir, None =>
      if is_denied w name then permission_denied name w
      else (Return name, bump_tmp_seq (set_fs <[name := File (Text [])]> w))
  | Some Dir, Some _ =>
      raise {| exc_class := FileExistsError_;
               exc_msg := "[Errno 17] No usable temporary file name found" |} w
  | _, _ => no_such_file tempdir w
  end.

(** ** [sqlite3] *)

Definition sql_error {A} (msg : string) : Py A :=
  raise {| exc_class := OperationalError_; exc_msg := msg |}.

(** What the engine makes of a file: an empty file is a database without
    tables, any other text is not a database. *)
Definition image_of (d : FileData) : DbImage :=
  match d with
  | Database img => img
  | Text [] => {| db_fault := None; db_cookies := None |}
  | Text _ => {| db_fault := Some {| exc_class := DatabaseError_;
                                     exc_msg := "file is not a database" |};
                 db_cookies := None |}
  end.

(** A connection: the file it is on and the image as its statements have
    left it; [commit] writes the image back. *)
Record Connection := { conn_path : Path; conn_img : DbImage }.

(** [sqlite3.connect(p)]: a missing file is created, empty, when its
    directory exists. *)
Definition sqlite3_connect (p : Path) : Py Connection := λ w,
  if is_denied w p then sql_error "unable to open database file" w
  else match node_at w p, node_at w (path_parent p) with
       | Some (File d), _ => (Return {| conn_path := p; conn_img := image_of d |}, w)
       | None, Some Dir =>
           (Return {| conn_path := p; conn_img := image_of (Text []) |},
            set_fs <[p := File (Text [])]> w)
       | _, _ => sql_error "unable to open database file" w
       end.

(** Every statement first meets the fault of the image, if it has one. *)
Definition statement {A} (c : Connection) (run : DbImage → Py A) : Py A :=
  match db_fault (conn_img c) with
  | Some e => raise e
  | None => run (conn_img c)
  end.

(** [SELECT name FROM sqlite_master WHERE type='table' AND name='cookies']
    and the truth value of [fetchone()]. *)
Definition has_cookies_table (c : Connection) : Py bool :=
  statement c (λ img, mret (bool_decide (is_Some (db_cookies img)))).

(** [SELECT DISTINCT host_key FROM cookies WHERE host_key IS NOT NULL AND
    host_key != ''] and [fetchall()], one host per row. *)
Definition select_distinct_host_keys (c : Connection) : Py (list string) :=
  statement c (λ img,
    match db_cookies img with
    | Some rows => mret (remove_dups (omap Sqlite.where_host_present rows))
    | None => sql_error "no such table: cookies"
    end).

(** [DELETE FROM cookies WHERE host_key LIKE ?] and [cursor.rowcount]. *)
Definition delete_where_like (c : Connection) (pat : string) : Py (nat * Connection) :=
  statement c (λ img,
    match db_cookies img with
    | Some rows =>
        mret (length (filter (λ r, Sqlite.where_like pat r = true) rows),
              {| conn_path := conn_path c;
                 conn_img := {| db_fault := db_fault img;
                                db_cookies := Some (filter (λ r, Sqlite.where_like pat r ≠ true) rows) |} |})
    | None => sql_error "no such table: cookies"
    end).

(** [conn.commit()], [conn.close()] *)
Definition commit (c : Connection) : Py unit :=
  modify (set_fs <[conn_path c := File (Database (conn_img c))]>).
Definition close (c : Connection) : Py unit := mret tt.

(** [sorted(l)] on a list of [str]: ascending in the code-point order. *)
Definition sorted (l : list string) : list string := merge_sort String.le l.

(** The line feed that ends a written line. *)
Definition nl : string := String (ascii_of_nat 10) "".

(** * The program *)

Section Engine.

(** [Path.home()] and [tempfile.gettempdir()] *)
Variable home : Path.
Variable tempdir : Path.

Local Open Scope path_scope.

(** *** Global paths *)

Definition CHROME_PROFILE : Path :=
  home / "AppData" / "Local" / "Google" / "Chrome" / "User Data" / "Default".
(** The value [COOKIES_DB] has when the module is loaded. *)
Definition COOKIES_DB_default : Path := CHROME_PROFILE / "Network" / "Cookies".
Definition LOCAL_STORAGE_PATH : Path := CHROME_PROFILE / "Local Storage" / "leveldb".
Definition SESSION_STORAGE_PATH : Path := CHROME_PROFILE / "Session Storage" / "leveldb".
Definition INDEXEDDB_PATH : Path := CHROME_PROFILE / "Indexed DB".
Definition CACHESTORAGE_PATH : Path := CHROME_PROFILE / "Service Worker" / "CacheStorage".
Definition SCRIPTCACHE_PATH : Path := CHROME_PROFILE / "Service Worker" / "ScriptCache".

Definition LOG_DIR : Path := home / "Documents" / "ChromeCleaner_Logs".

(** *** [log_deletion] *)

(** The line [log_deletion] formats. *)
Definition log_line (t : DateTime) (deletion_type site status details : string) : string :=
  "[" +:+ strftime_log t +:+ "] " +:+ Str.ljust 15 deletion_type +:+ " " +:+
  Str.ljust 40 site +:+ " " +:+ Str.ljust 10 status +:+ " " +:+ details +:+ nl.

(** [open(LOG_FILE, 'a')] and one [write]. *)
Definition append_to_log (mk : DateTime → string) : Py unit := λ w,
  if log_ok w then (Return tt, add_log_line (mk (now w)) w)
  else raise {| exc_class := PermissionError_;
                exc_msg := "[Errno 13] Permission denied: LOG_FILE" |} w.

Definition log_deletion (site deletion_type status details : string) : Py unit :=
  try_except
    (append_to_log (λ t, log_line t deletion_type site status details))
    (λ e, print ("Warning: Could not write to log: " +:+ exc_msg e)).

(** *** [create_backup] *)

Definition backup_info (t : DateTime) (backup_count : nat) : list string :=
  [ "Backup created: " +:+ strftime_log t +:+ nl;
    "Original profile: " +:+ path_str CHROME_PROFILE +:+ nl;
    "Files backed up: " +:+ Str.of_nat backup_count +:+ nl;
    "To restore: Copy these files back to their original locations" +:+ nl;
    "WARNING: Chrome must be completely closed during restoration" +:+ nl ].

(** One turn of the loop over [files_to_backup]. *)
Definition backup_one (backup_dir : Path) (backup_count : nat)
    (file_path : option Path) : Py nat :=
  match file_path with
  | None => mret backup_count
  | Some file_path =>
      ex ← path_exists file_path;
      if ex : bool then
        let dest := backup_dir / path_name file_path in
        isf ← path_is_file file_path;
        if isf : bool then
          copy2 file_path dest;; mret (backup_count + 1)%nat
        else
          isd ← path_is_dir file_path;
          if isd : bool then
            copytree file_path dest;; mret (backup_count + 1)%nat
          else mret backup_count
      else mret backup_count
  end.

Definition create_backup_try : Py (option Path * nat) :=
  t ← gets now;
  let backup_dir := LOG_DIR / ("backup_" +:+ strftime_file t) in
  mkdir_parents backup_dir;;
  cookies_db ← gets COOKIES_DB;
  ls ← path_exists LOCAL_STORAGE_PATH;
  ss ← path_exists SESSION_STORAGE_PATH;
  let files_to_backup :=
    [ Some cookies_db;
      if ls : bool then Some (path_parent LOCAL_STORAGE_PATH) else None;
      if ss : bool then Some (path_parent SESSION_STORAGE_PATH) else None ] in
  backup_count ← for_each (backup_one backup_dir) 0%nat files_to_backup;
  t' ← gets now;
  write_text (backup_dir / "backup_info.txt") (backup_info t' backup_count);;
  mret (Some backup_dir, backup_count).

Definition create_backup : Py (option Path * nat) :=
  try_except create_backup_try
    (λ e, print ("Backup creation failed: " +:+ exc_msg e);; mret (None, 0%nat)).

(** *** [get_unique_sites] *)

Definition default_paths : list Path :=
  [ CHROME_PROFILE / "Cookies";
    CHROME_PROFILE / "Network" / "Cookies";
    home / "AppData" / "Local" / "Google" / "Chrome" / "User Data" / "Default" / "Cookies" ].

Definition cookies_not_found : PyExc :=
  {| exc_class := FileNotFoundError_;
     exc_msg := "Cookies DB not found" +:+ nl +:+
                "Ensure Chrome is closed and path is correct." |}.

(** The [for path in default_paths: ... break  else: raise] loop. *)
Fixpoint probe (paths : list Path) : Py unit :=
  match paths with
  | [] => raise cookies_not_found
  | path :: paths' =>
      ex ← path_exists path;
      if ex : bool then
        modify (set_COOKIES_DB path);;
        print ("Found cookies database at: " +:+ path_str path)
      else probe paths'
  end.

Definition get_unique_sites_locate : Py unit :=
  cookies_db ← gets COOKIES_DB;
  ex ← path_exists cookies_db;
  if ex : bool then mret tt else probe default_paths.

(** The loop over the fetched rows. *)
Definition collect_site (sites : list string) (host : string) : list string :=
  if Str.truthy host then
    let host := Str.lstrip_dot host in
    if Str.truthy host && negb (bool_decide (host ∈ sites)) then sites ++ [host]
    else sites
  else sites.

Definition collect_sites (hosts : list string) : list string :=
  fold_left collect_site hosts [].

Definition locked_message : string :=
  "Chrome database is locked. Please close Chrome completely.".

Definition get_unique_sites_try : Py (list string) :=
  temp_db ← NamedTemporaryFile tempdir ".db";
  cookies_db ← gets COOKIES_DB;
  copy2 cookies_db temp_db;;
  conn ← sqlite3_connect temp_db;
  found ← has_cookies_table conn;
  if negb found then
    close conn;;
    unlink temp_db;;
    raise {| exc_class := Exception_; exc_msg := "Cookies table not found in database" |}
  else
    hosts ← select_distinct_host_keys conn;
    let sites := collect_sites hosts in
    close conn;;
    unlink temp_db;;
    mret (sorted sites).

(** The two [except] clauses, tried in order. *)
Definition get_unique_sites_except (e : PyExc) : Py (list string) :=
  if is_operational e then
    if Str.contains "database is locked" (exc_msg e) then
      raise {| exc_class := Exception_; exc_msg := locked_message |}
    else
      raise {| exc_class := Exception_; exc_msg := "Database error: " +:+ exc_msg e |}
  else
    raise {| exc_class := Exception_; exc_msg := "Failed to read cookies: " +:+ exc_msg e |}.

Definition get_unique_sites : Py (list string) :=
  get_unique_sites_locate;;
  try_except get_unique_sites_try get_unique_sites_except.

(** *** [delete_cookies_for_site] *)

Definition patterns (site : string) : list string :=
  [ site;
    "." +:+ site;
    "www." +:+ site;
    "m." +:+ site;
    "mobile." +:+ site;
    "api." +:+ site;
    "%." +:+ site;
    "%." +:+ site +:+ ".";
    site +:+ "." ].

(** One turn of the loop over [patterns]. *)
Definition delete_pattern (st : nat * Connection) (pattern : string) : Py (nat * Connection) :=
  '(rowcount, conn') ← delete_where_like st.2 pattern;
  mret ((st.1 + rowcount)%nat, conn').

Definition delete_cookies_try (site : string) : Py nat :=
  cookies_db ← gets COOKIES_DB;
  conn ← sqlite3_connect cookies_db;
  '(deleted_count, conn) ← for_each delete_pattern (0%nat, conn) (patterns site);
  commit conn;;
  close conn;;
  log_deletion site "COOKIES"
    (if (0 <? deleted_count)%nat then "SUCCESS" else "NONE")
    (Str.of_nat deleted_count +:+ " deleted");;
  mret deleted_count.

Definition delete_cookies_except (site : string) (e : PyExc) : Py nat :=
  log_deletion site "COOKIES" "ERROR" (exc_msg e);;
  print ("Error deleting cookies for " +:+ site +:+ ": " +:+ exc_msg e);;
  mret 0%nat.

Definition delete_cookies_for_site (site : string) : Py nat :=
  try_except (delete_cookies_try site) (delete_cookies_except site).

(** *** [delete_site_data_folders] *)

Definition storage_paths : list (Path * string) :=
  [ (LOCAL_STORAGE_PATH, "Local Storage");
    (SESSION_STORAGE_PATH, "Session Storage");
    (INDEXEDDB_PATH, "IndexedDB");
    (CACHESTORAGE_PATH, "CacheStorage");
    (SCRIPTCACHE_PATH, "ScriptCache") ].

(** [site_lower in item.name.lower()] *)
Definition item_matches (site_lower : string) (item : Path) : bool :=
  Str.contains site_lower (Str.lower (path_name item)).

(** The body of the loop over the entries of one storage path.  The
    append to [deleted_items] is the last statement of the inner [try],
    so the list the handler leaves is the one the turn started with. *)
Definition delete_item (site_lower path_name' : string)
    (deleted_items : list string) (item : Path) : Py (list string) :=
  if item_matches site_lower item then
    try_except
      (isd ← path_is_dir item;
       if isd : bool then
         rmtree_ignore_errors item;;
         mret (deleted_items ++ [path_name' +:+ ": " +:+ path_name item])%list
       else
         unlink item;;
         mret (deleted_items ++ [path_name' +:+ ": " +:+ path_name item])%list)
      (λ e, print ("  Could not delete " +:+ path_str item +:+ ": " +:+ exc_msg e);;
            mret deleted_items)
  else mret deleted_items.

(** The body of the loop over [storage_paths].  The outer [try] can only
    be left by [is_dir] or [iterdir], before any append. *)
Definition delete_in_storage (site site_lower : string)
    (deleted_items : list string) (sp : Path * string) : Py (list string) :=
  let '(path_obj, path_name') := sp in
  ex ← path_exists path_obj;
  if negb ex then mret deleted_items
  else
    try_except
      (isd ← path_is_dir path_obj;
       if isd : bool then
         items ← iterdir path_obj;
         for_each (delete_item site_lower path_name') deleted_items items
       else mret deleted_items)
      (λ e, print ("Error processing " +:+ path_name' +:+ " for " +:+ site +:+ ": "
                   +:+ exc_msg e);;
            mret deleted_items).

Definition delete_site_data_folders (site : string) : Py (list string) :=
  let site_lower := Str.lower site in
  deleted_items ← for_each (delete_in_storage site site_lower) [] storage_paths;
  match deleted_items with
  | [] => mret deleted_items
  | _ :: _ =>
      log_deletion site "STORAGE" "SUCCESS"
        (Str.of_nat (length deleted_items) +:+ " items");;
      mret deleted_items
  end.

End Engine.

(** * Specification vocabulary *)

(** [m] never leaves [R]: whatever it does, the world it reaches is
    related to the one it started in. *)
Definition preserves {A} (R : relation World) (m : Py A) : Prop :=
  ∀ w, R w (m w).2.

(** [m] returns, and stays within [R]. *)
Definition safe {A} (R : relation World) (m : Py A) : Prop :=
  ∀ w, ∃ a w', m w = (Return a, w') ∧ R w w'.

(** The log file and the clock are as they were. *)
Definition log_frame (w w' : World) : Prop :=
  log_ok w' = log_ok w ∧ log_lines w' = log_lines w ∧ now w' = now w.

(** Everything but the file system, the console and the temporary-name
    counter is as it was. *)
Definition env_frame (w w' : World) : Prop :=
  denied w' = denied w ∧ COOKIES_DB w' = COOKIES_DB w ∧ log_frame w w'.

(** What no engine function but [get_unique_sites] changes: the access
    rights, the global [COOKIES_DB], the state of the log file, the clock. *)
Definition ctx_frame (w w' : World) : Prop :=
  denied w' = denied w ∧ COOKIES_DB w' = COOKIES_DB w ∧
  log_ok w' = log_ok w ∧ now w' = now w.

(** The inventory as the specification words it: the distinct non-empty
    host values, one leading dot stripped from each, deduplicated, sorted. *)
Definition strip_one_dot (s : string) : string :=
  match s with
  | String "."%char s' => s'
  | _ => s
  end.

Definition spec_inventory (rows : list Sqlite.CookieRow) : list string :=
  sorted (remove_dups (strip_one_dot <$> remove_dups (omap Sqlite.where_host_present rows))).

(** A pattern matches a row. *)
Definition row_matches (pats : list string) (r : Sqlite.CookieRow) : bool :=
  existsb (λ pat, Sqlite.where_like pat r) pats.

(** The same as a test on the [host_key] value alone. *)
Definition host_matches (pats : list string) (h : option string) : bool :=
  match h with
  | Some h => existsb (λ pat, Sqlite.like pat h) pats
  | None => false
  end.

(** The [rowcount] of each [DELETE] in turn, every statement seeing the
    table as the ones before it left it. *)
Fixpoint rowcounts (pats : list string) (rows : list Sqlite.CookieRow) : list nat :=
  match pats with
  | [] => []
  | pat :: pats' =>
      length (filter (λ r, Sqlite.where_like pat r = true) rows)
      :: rowcounts pats' (filter (λ r, Sqlite.where_like pat r ≠ true) rows)
  end.

(** A healthy cookie store with the given rows. *)
Definition cookie_store (rows : list Sqlite.CookieRow) : Node :=
  File (Database {| db_fault := None; db_cookies := Some rows |}).

Section EngineSpec.

Variable home : Path.

(** The values the global [COOKIES_DB] can take. *)
Definition cookies_db_known (w : World) : Prop :=
  COOKIES_DB w = COOKIES_DB_default home ∨ COOKIES_DB w ∈ default_paths home.

(** [q] lies strictly beneath one of the five storage paths. *)
Definition under_storage (q : Path) : Prop :=
  ∃ sp, sp ∈ storage_paths home ∧ sp.1 `prefix_of` q ∧ sp.1 ≠ q.

(** What a storage pass may do to the world: remove entries beneath the
    storage paths, and write to the log and the console. *)
Definition storage_step (w w' : World) : Prop :=
  (∀ q, fs w' !! q = fs w !! q ∨ (fs w' !! q = None ∧ under_storage q)) ∧
  ctx_frame w w'.

(** No entry of storage path [d] that names the site is left. *)
Definition storage_clean (site_lower : string) (d : Path) (w : World) : Prop :=
  fs w !! d = Some Dir →
  ∀ q, is_child d q = true → item_matches site_lower q = true → fs w !! q = None.

End EngineSpec.

(** What [mkdir(parents=True)] of [p] may do: make directories at
    prefixes of [p] where there was nothing. *)
Definition mkdir_step (p : Path) (w w' : World) : Prop :=
  (∀ q, fs w' !! q = fs w !! q ∨
        (fs w !! q = None ∧ fs w' !! q = Some Dir ∧ q `prefix_of` p)) ∧
  env_frame w w'.

(** * Sample worlds

    A user [u] on drive [C:], an empty profile, a writable log. *)

Definition ex_home : Path := ["C:"; "Users"; "u"].
Definition ex_tmp : Path := ["C:"; "Temp"].
Definition ex_now : DateTime :=
  {| dt_date := "2024-01-02"; dt_h := "03"; dt_m := "04"; dt_s := "05" |}.

Definition ex_world (files : gmap Path Node) : World :=
  {| fs := files; denied := ∅; COOKIES_DB := COOKIES_DB_default ex_home;
     log_ok := true; log_lines := []; stdout := []; now := ex_now; tmp_seq := 0 |}.

Definition ex_row (h : string) : Sqlite.CookieRow :=
  {| Sqlite.host_key := Some h; Sqlite.rest := "" |}.

(** A profile whose cookie store holds the given host keys, one row each. *)
Definition ex_profile (hosts : list string) : gmap Path Node :=
  <[COOKIES_DB_default ex_home := cookie_store (ex_row <$> hosts)]>
    (<[ex_tmp := Dir]> ∅).

(** The same with a store for which the engine reports the fault [e] where
    it lies. *)
Definition ex_faulty_profile (e : PyExc) : gmap Path Node :=
  <[COOKIES_DB_default ex_home :=
      File (Database {| db_fault := Some e; db_cookies := Some [ex_row "a.com"] |})]>
    (<[ex_tmp := Dir]> ∅).

(** * Vocabulary for what a function leaves alone *)

(** Only the node at [p] may differ. *)
Definition touches_only (p : Path) (w w' : World) : Prop :=
  ∀ q, q ≠ p → fs w' !! q = fs w !! q.

Section StorageVocabulary.

Variable home : Path.

(** [q] is, or lies beneath, an entry of a storage path whose name holds
    the site. *)
Definition under_match (site_lower : string) (q : Path) : Prop :=
  ∃ sp item, sp ∈ storage_paths home ∧ is_child sp.1 item = true ∧
             item_matches site_lower item = true ∧ item `prefix_of` q.

(** What a storage pass for one site may do to the world, whatever the
    operating system refuses: remove entries that exist at or beneath
    matching entries of the storage paths. *)
Definition site_step (site_lower : string) (w w' : World) : Prop :=
  (∀ q, fs w' !! q = fs w !! q ∨ (fs w' !! q = None ∧ under_match site_lower q)) ∧
  ctx_frame w w'.

(** [rec] is the record of a matching entry that exists in [w]. *)
Definition is_record (site_lower : string) (w : World) (rec : string) : Prop :=
  ∃ sp item, sp ∈ storage_paths home ∧ is_child sp.1 item = true ∧
             item_matches site_lower item = true ∧ is_Some (fs w !! item) ∧
             rec = sp.2 +:+ ": " +:+ path_name item.

End StorageVocabulary.

(** A profile with one entry for [x.com] and one for [other.org] in the
    Local Storage directory, and a cookie store. *)
Definition ex_storage_profile : gmap Path Node :=
  <[(LOCAL_STORAGE_PATH ex_home / "https_x.com_0.ldb")%path := File (Text [])]>
    (<[(LOCAL_STORAGE_PATH ex_home / "https_other.org_0.ldb")%path := File (Text [])]>
       (<[LOCAL_STORAGE_PATH ex_home := Dir]> (ex_profile ["x.com"; "other.org"]))).

(** The site [É.com] and an entry named for [é.com]: the capital is the
    code point 201, the small letter the code point 233. *)
Definition ex_capital_site : string := String (ascii_of_nat 201) ".com".
Definition ex_small_entry : string :=
  "https_" +:+ String (ascii_of_nat 233) ".com_0.ldb".

(** * Vocabulary for an unobstructed storage pass *)



(** What a pass over the one storage path [d] may do. *)
Definition local_step (d : Path) (site_lower : string) (w w' : World) : Prop :=
  (∀ q, fs w' !! q = fs w !! q ∨
        (fs w' !! q = None ∧
         ∃ item, is_child d item = true ∧ item_matches site_lower item = true ∧
                 item `prefix_of` q)) ∧
  ctx_frame w w'.

(** What making a backup in directory [d] may do to the world: make
    directories on the way to [d] where there was nothing, and write at or
    beneath [d]. *)
Definition backup_writes (d : Path) (w w' : World) : Prop :=
  (∀ q, fs w' !! q = fs w !! q ∨
        (fs w !! q = None ∧ fs w' !! q = Some Dir ∧ q `prefix_of` d) ∨
        (d `prefix_of` q ∧ is_Some (fs w' !! q))) ∧
  env_frame w w'.

(** * The window

    The parts of [SiteManagerApp] that do not depend on the event loop.
    A widget is the text or the items it holds; the symbols of the
    messages are carried as their UTF-8 bytes. *)

(** [str(n)] for an [int]. *)
Definition str_of_Z (n : Z) : string := NilEmpty.string_of_int (Z.to_int n).

(** ** [update_list]

    [search_var], the attribute [sites] ([None] until [refresh_list] has
    assigned it) and the items of [listbox]. *)
Record Listing := {
  search_var : string;
  sites : option (list string);
  listbox : list string
}.

(** [self.listbox.delete(0, END)] *)
Definition listbox_clear (a : Listing) : Listing :=
  {| search_var := search_var a; sites := sites a; listbox := [] |}.

(** [self.listbox.insert(END, site)] *)
Definition listbox_insert_end (a : Listing) (site : string) : Listing :=
  {| search_var := search_var a; sites := sites a; listbox := listbox a ++ [site] |}.

Definition update_list (a : Listing) : Listing :=
  let search_term := Str.lower (search_var a) in
  let a := listbox_clear a in
  match sites a with
  | None => a
  | Some sites =>
      let filtered :=
        filter (λ site, Str.contains search_term (Str.lower site) = true) sites in
      fold_left listbox_insert_end filtered a
  end.

(** ** [update_countdown]

    [countdown_seconds], the text of [countdown_var], whether
    [confirm_button] is in state [normal], and the number of calls of
    [update_countdown] that [window.after] has scheduled and that have not
    run yet. *)
Record Countdown := {
  countdown_seconds : Z;
  countdown_var : string;
  confirm_enabled : bool;
  scheduled : nat
}.

Definition update_countdown (c : Countdown) : Countdown :=
  if (0 <? countdown_seconds c)%Z then
    {| countdown_var := "Confirm (" +:+ str_of_Z (countdown_seconds c) +:+ ")";
       countdown_seconds := countdown_seconds c - 1;
       confirm_enabled := confirm_enabled c;
       scheduled := S (scheduled c) |}
  else
    {| countdown_var := "CONFIRM DELETE";
       countdown_seconds := countdown_seconds c;
       confirm_enabled := true;
       scheduled := scheduled c |}.

(** A second passes: one scheduled call runs, if there is one. *)
Definition timer_fires (c : Countdown) : Countdown :=
  match scheduled c with
  | O => c
  | S n =>
      update_countdown
        {| countdown_seconds := countdown_seconds c; countdown_var := countdown_var c;
           confirm_enabled := confirm_enabled c; scheduled := n |}
  end.

(** ** [execute_deletion]: the turn for one site

    The inner [try] statement of the loop.  [log_text] holds the pieces
    inserted at its end; the two counters are the local variables. *)
Record Progress := {
  log_text : list string;
  success_count : nat;
  error_count : nat
}.

Definition log_text_insert_end (p : Progress) (s : string) : Progress :=
  {| log_text := log_text p ++ [s]; success_count := success_count p;
     error_count := error_count p |}.

Definition count_success (p : Progress) : Progress :=
  {| log_text := log_text p; success_count := success_count p + 1;
     error_count := error_count p |}.

Definition count_error (p : Progress) : Progress :=
  {| log_text := log_text p; success_count := success_count p;
     error_count := error_count p + 1 |}.

Section Window.

Variable home : Path.

Definition site_turn (site : string) (p : Progress) : Py Progress :=
  try_except
    (cookies_deleted ← delete_cookies_for_site site;
     other_deleted ← delete_site_data_folders home site;
     if (0 <? cookies_deleted)%nat || negb (bool_decide (other_deleted = [])) then
       mret (count_success
               (log_text_insert_end p
                  ("✓ " +:+ Str.of_nat cookies_deleted +:+ " cookies, " +:+
                   Str.of_nat (length other_deleted) +:+ " storage items" +:+ nl)))
     else
       mret (count_success (log_text_insert_end p ("✓ No data found" +:+ nl))))
    (λ e,
       let p := count_error
                  (log_text_insert_end p
                     ("✗ Error: " +:+ substring 0 50 (exc_msg e) +:+ nl)) in
       log_deletion site "ALL" "ERROR" (exc_msg e);;
       mret p).

End Window.

(** * Process management

    The methods of [str] that [is_chrome_running] uses, on text whose code
    points are below 256. *)

Module PyStr.

(** [c.isspace()] *)
Definition is_space (c : ascii) : bool :=
  let n := nat_of_ascii c in
  (((9 <=? n) && (n <=? 13)) || ((28 <=? n) && (n <=? 32)) || (n =? 133) || (n =? 160))%nat.

(** [c.isdigit()]: the decimal digits and the superscripts one, two, three. *)
Definition is_digit (c : ascii) : bool :=
  let n := nat_of_ascii c in
  (((48 <=? n) && (n <=? 57)) || (n =? 178) || (n =? 179) || (n =? 185))%nat.

Fixpoint lstrip (s : string) : string :=
  match s with
  | String c s' => if is_space c then lstrip s' else s
  | EmptyString => EmptyString
  end.

Fixpoint rstrip (s : string) : string :=
  match s with
  | EmptyString => EmptyString
  | String c s' =>
      match rstrip s' with
      | EmptyString => if is_space c then EmptyString else String c EmptyString
      | r => String c r
      end
  end.

(** [s.strip()] *)
Definition strip (s : string) : string := rstrip (lstrip s).

(** [s.split(sep)] for a separator of one character. *)
Fixpoint split_char (sep : ascii) (s : string) : list string :=
  match s with
  | EmptyString => [EmptyString]
  | String c s' =>
      if bool_decide (c = sep) then EmptyString :: split_char sep s'
      else match split_char sep s' with
           | h :: t => String c h :: t
           | [] => [String c EmptyString]
           end
  end.

(** [s.split()]: the runs of characters that are not white space. *)
Fixpoint split (s : string) : list string :=
  match s with
  | EmptyString => []
  | String c s' =>
      if is_space c then split s'
      else match s' with
           | EmptyString => [String c EmptyString]
           | String d _ =>
               if is_space d then String c EmptyString :: split s'
               else match split s' with
                    | h :: t => String c h :: t
                    | [] => [String c EmptyString]
                    end
           end
  end.

Fixpoint all_digits (s : string) : bool :=
  match s with
  | EmptyString => true
  | String c s' => is_digit c && all_digits s'
  end.

(** [s.isdigit()]: false on the empty string. *)
Definition isdigit (s : string) : bool :=
  match s with
  | EmptyString => false
  | _ => all_digits s
  end.

End PyStr.

(** [l[-2]].  [IndexError] derives from [Exception]; nothing in the
    program tells the two apart. *)
Definition item_second_last (l : list string) : Py string :=
  match rev l !! 1%nat with
  | Some x => mret x
  | None => raise {| exc_class := Exception_; exc_msg := "list index out of range" |}
  end.

(** What [subprocess.run] hands back: the text of [result.stdout], or the
    exception it raised. *)
Definition subprocess_run (outcome : Outcome string) : Py string := λ w, (outcome, w).

(** The body of the loop over the lines of [tasklist]. *)
Definition count_chrome_line (chrome_count : nat) (line : string) : Py nat :=
  if Str.contains "chrome.exe" (Str.lower line) then
    field ← item_second_last (PyStr.split line);
    if Str.contains "k" (Str.lower field) then mret (chrome_count + 1)%nat
    else mret chrome_count
  else mret chrome_count.

(** [is_chrome_running], given what the two commands answer. *)
Definition is_chrome_running (tasklist wmic : Outcome string) : Py bool :=
  try_except
    (stdout ← subprocess_run tasklist;
     let lines := PyStr.split_char (ascii_of_nat 10) (PyStr.strip stdout) in
     chrome_count ← for_each count_chrome_line 0%nat lines;
     if (0 <? chrome_count)%nat then mret true
     else
       try_except
         (stdout ← subprocess_run wmic;
          let lines := PyStr.split_char (ascii_of_nat 10) (PyStr.strip stdout) in
          let process_ids :=
            PyStr.strip <$> filter (λ line, PyStr.isdigit (PyStr.strip line) = true) lines in
          mret (0 <? length process_ids)%nat)
         (λ _, mret false))
    (λ e, print ("Error checking Chrome process: " +:+ exc_msg e);; mret true).

(** The answer of [tasklist] for one Chrome process, and of [wmic] for none. *)
Definition ex_tasklist : string :=
  nl +:+
  "Image Name                     PID Session Name        Session#    Mem Usage" +:+ nl +:+
  "========================= ======== ================ =========== ============" +:+ nl +:+
  "chrome.exe                    4312 Console                    1    183,104 K" +:+ nl.

Definition ex_wmic_none : string :=
  "No Instance(s) Available." +:+ nl.

Definition ex_wmic_one : string :=
  "ProcessId  " +:+ nl +:+ "4312       " +:+ nl +:+ nl.

(** ** The verdict of [is_chrome_running], read off its input *)

(** A line of [tasklist] that names Chrome and has fewer than two fields. *)
Definition chrome_line_short (line : string) : bool :=
  Str.contains "chrome.exe" (Str.lower line) &&
  bool_decide (rev (PyStr.split line) !! 1%nat = None).

(** A line of [tasklist] that names Chrome and whose last field but one
    holds the letter k. *)
Definition chrome_line_counted (line : string) : bool :=
  Str.contains "chrome.exe" (Str.lower line) &&
  match rev (PyStr.split line) !! 1%nat with
  | Some field => Str.contains "k" (Str.lower field)
  | None => false
  end.

Definition output_lines (stdout : string) : list string :=
  PyStr.split_char (ascii_of_nat 10) (PyStr.strip stdout).

Definition chrome_verdict (tasklist wmic : Outcome string) : bool :=
  match tasklist with
  | Raise _ => true
  | Return out =>
      existsb chrome_line_short (output_lines out) ||
      existsb chrome_line_counted (output_lines out) ||
      match wmic with
      | Raise _ => false
      | Return out' => existsb (λ line, PyStr.isdigit (PyStr.strip line)) (output_lines out')
      end
  end.

(** The node at [p], once it is [n], stays [n]. *)
Definition keeps_node (p : Path) (n : Node) (w w' : World) : Prop :=
  fs w !! p = Some n → fs w' !! p = Some n.

(** * Verification *)

(** ** The monad *)

Lemma run_bind {A B} (m : Py A) (k : A → Py B) w :
  (m ≫= k) w = match m w with
               | (Return a, w') => k a w'
               | (Raise e, w') => (Raise e, w')
               end.
Proof. reflexivity. Qed.

Lemma run_bind_return {A B} (m : Py A) (k : A → Py B) w a w' :
  m w = (Return a, w') → (m ≫= k) w = k a w'.
Proof. intros Hm. by rewrite run_bind, Hm. Qed.

Lemma run_bind_raise {A B} (m : Py A) (k : A → Py B) w e w' :
  m w = (Raise e, w') → (m ≫= k) w = (Raise e, w').
Proof. intros Hm. by rewrite run_bind, Hm. Qed.

Lemma bind_return_inv {A B} (m : Py A) (k : A → Py B) w b w' :
  (m ≫= k) w = (Return b, w') →
  ∃ a w1, m w = (Return a, w1) ∧ k a w1 = (Return b, w').
Proof.
  rewrite run_bind. destruct (m w) as [[a|e] w1]; [eauto | discriminate].
Qed.


Lemma run_try_return {A} (m : Py A) h w a w' :
  m w = (Return a, w') → try_except m h w = (Return a, w').
Proof. unfold try_except. by intros ->. Qed.

Lemma run_try_raise {A} (m : Py A) h w e w' :
  m w = (Raise e, w') → try_except m h w = h e w'.
Proof. unfold try_except. by intros ->. Qed.

Section Frames.

Context (R : relation World) `{!PreOrder R}.

Lemma preserves_ret {A} (a : A) : preserves R (mret a).
Proof. intros w. simpl. reflexivity. Qed.

Lemma preserves_raise {A} e : preserves R (raise (A := A) e).
Proof. intros w. simpl. reflexivity. Qed.

Lemma preserves_gets {A} (f : World → A) : preserves R (gets f).
Proof. intros w. simpl. reflexivity. Qed.

Lemma preserves_bind {A B} (m : Py A) (k : A → Py B) :
  preserves R m → (∀ a, preserves R (k a)) → preserves R (m ≫= k).
Proof.
  intros Hm Hk w. rewrite run_bind. specialize (Hm w).
  destruct (m w) as [[a|e] w1]; simpl in *; [|done].
  etrans; [exact Hm | apply Hk].
Qed.

Lemma preserves_try {A} (m : Py A) h :
  preserves R m → (∀ e, preserves R (h e)) → preserves R (try_except m h).
Proof.
  intros Hm Hh w. unfold try_except. specialize (Hm w).
  destruct (m w) as [[a|e] w1]; simpl in *; [done|].
  etrans; [exact Hm | apply Hh].
Qed.

Lemma preserves_for_each {A B} (f : B → A → Py B) l :
  (∀ acc x, x ∈ l → preserves R (f acc x)) → ∀ acc, preserves R (for_each f acc l).
Proof.
  induction l as [|x l IH]; intros Hf acc; simpl.
  - apply preserves_ret.
  - apply preserves_bind; [apply Hf; left|].
    intros acc'. apply IH. intros ???. apply Hf. by right.
Qed.

Lemma safe_preserves {A} (m : Py A) : safe R m → preserves R m.
Proof. intros Hm w. destruct (Hm w) as (a & w' & -> & HR). done. Qed.

Lemma safe_ret {A} (a : A) : safe R (mret a).
Proof. intros w. eexists _, _. split; [reflexivity | reflexivity]. Qed.

Lemma safe_gets {A} (f : World → A) : safe R (gets f).
Proof. intros w. eexists _, _. split; [reflexivity | reflexivity]. Qed.

Lemma safe_bind {A B} (m : Py A) (k : A → Py B) :
  safe R m → (∀ a, safe R (k a)) → safe R (m ≫= k).
Proof.
  intros Hm Hk w. destruct (Hm w) as (a & w1 & Hw1 & HR1).
  destruct (Hk a w1) as (b & w2 & Hw2 & HR2).
  exists b, w2. split; [by rewrite (run_bind_return _ _ _ _ _ Hw1) | by etrans].
Qed.

Lemma safe_try {A} (m : Py A) h :
  preserves R m → (∀ e, safe R (h e)) → safe R (try_except m h).
Proof.
  intros Hm Hh w. unfold try_except. specialize (Hm w).
  destruct (m w) as [[a|e] w1]; simpl in *; [eauto|].
  destruct (Hh e w1) as (b & w2 & -> & HR2). exists b, w2. split; [done | by etrans].
Qed.

Lemma safe_for_each {A B} (f : B → A → Py B) l :
  (∀ acc x, x ∈ l → safe R (f acc x)) → ∀ acc, safe R (for_each f acc l).
Proof.
  induction l as [|x l IH]; intros Hf acc; simpl.
  - apply safe_ret.
  - apply safe_bind; [apply Hf; left|].
    intros acc'. apply IH. intros ???. apply Hf. by right.
Qed.

(** A loop whose every turn returns, keeps [P], stays in [R] and
    establishes [Q] for its element, where [Q] survives [R]-steps. *)
Lemma for_each_inv {A B} (P : World → Prop) (Q : A → World → Prop)
    (f : B → A → Py B) (l : list A) :
  (∀ w w', P w → R w w' → P w') →
  (∀ x w w', Q x w → R w w' → Q x w') →
  (∀ acc x w, x ∈ l → P w →
     ∃ acc' w', f acc x w = (Return acc', w') ∧ R w w' ∧ Q x w') →
  ∀ acc w, P w →
    ∃ acc' w', for_each f acc l w = (Return acc', w') ∧ R w w' ∧
               ∀ x, x ∈ l → Q x w'.
Proof.
  intros HP HQ. induction l as [|x l IH]; intros Hf acc w Hw; simpl.
  - exists acc, w. split_and!; [done | reflexivity |]. intros x Hx. by apply elem_of_nil in Hx.
  - destruct (Hf acc x w) as (acc1 & w1 & Hrun1 & HR1 & HQ1); [left | done |].
    destruct (IH (λ acc x w Hx, Hf acc x w (list_elem_of_further _ _ _ Hx)) acc1 w1)
      as (acc2 & w2 & Hrun2 & HR2 & HQ2); [by eapply HP|].
    exists acc2, w2. split_and!.
    + by rewrite (run_bind_return _ _ _ _ _ Hrun1).
    + by etrans.
    + intros y [->|Hy]%elem_of_cons; [by eapply HQ | by apply HQ2].
Qed.

End Frames.

(** ** Frames of the primitives *)

#[local] Instance log_frame_preorder : PreOrder log_frame.
Proof.
  split.
  - by intros w.
  - intros w1 w2 w3 (?&?&?) (?&?&?). unfold log_frame. split_and!; congruence.
Qed.

#[local] Instance env_frame_preorder : PreOrder env_frame.
Proof.
  split.
  - by intros w.
  - intros w1 w2 w3 (?&?&?&?&?) (?&?&?&?&?). unfold env_frame, log_frame.
    split_and!; congruence.
Qed.

#[local] Instance ctx_frame_preorder : PreOrder ctx_frame.
Proof.
  split.
  - by intros w.
  - intros w1 w2 w3 (?&?&?&?) (?&?&?&?). unfold ctx_frame. split_and!; congruence.
Qed.

Lemma env_frame_log w w' : env_frame w w' → log_frame w w'.
Proof. by intros (_&_&?). Qed.

Lemma env_frame_ctx w w' : env_frame w w' → ctx_frame w w'.
Proof. by intros (?&?&?&_&?). Qed.

(** Unfold a primitive, split on everything it inspects, and compare the
    fields the frame speaks of. *)
Ltac frame_prim :=
  let w := fresh "w" in
  intros w;
  repeat match goal with
         | |- context [match ?x with _ => _ end] => destruct x eqn:?
         end;
  simpl; try done.

Lemma env_path_exists p : safe env_frame (path_exists p).
Proof. apply safe_gets; apply _. Qed.
Lemma env_path_is_dir p : safe env_frame (path_is_dir p).
Proof. apply safe_gets; apply _. Qed.
Lemma env_path_is_file p : safe env_frame (path_is_file p).
Proof. apply safe_gets; apply _. Qed.

Lemma env_print s : safe env_frame (print s).
Proof. intros w. by eexists _, _. Qed.

Lemma env_iterdir p : preserves env_frame (iterdir p).
Proof. unfold iterdir, permission_denied, no_such_file, raise. frame_prim. Qed.

Lemma env_unlink p : preserves env_frame (unlink p).
Proof. unfold unlink, permission_denied, no_such_file, raise. frame_prim. Qed.

Lemma env_rmtree p : safe env_frame (rmtree_ignore_errors p).
Proof. intros w. by eexists _, _. Qed.

Lemma env_mkdir_one p : preserves env_frame (mkdir_one p).
Proof. unfold mkdir_one, permission_denied, raise. frame_prim. Qed.

Lemma env_mkdir_parents p : preserves env_frame (mkdir_parents p).
Proof.
  unfold mkdir_parents. apply preserves_for_each; [apply _|].
  intros ???. apply env_mkdir_one.
Qed.

Lemma env_copy2 src dst : preserves env_frame (copy2 src dst).
Proof. unfold copy2, permission_denied, no_such_file, raise. frame_prim. Qed.

Lemma env_copy_entries src dst : preserves env_frame (copy_entries src dst).
Proof. unfold copy_entries, raise. frame_prim. Qed.

Lemma env_copytree src dst : preserves env_frame (copytree src dst).
Proof.
  unfold copytree. apply preserves_bind; [apply _ | apply env_mkdir_parents |].
  intros _. apply env_copy_entries.
Qed.

Lemma env_write_text p lines : preserves env_frame (write_text p lines).
Proof. unfold write_text, permission_denied, no_such_file, raise. frame_prim. Qed.

Lemma env_NamedTemporaryFile d sfx : preserves env_frame (NamedTemporaryFile d sfx).
Proof.
  unfold NamedTemporaryFile, permission_denied, no_such_file, raise. frame_prim.
Qed.

Lemma env_sqlite3_connect p : preserves env_frame (sqlite3_connect p).
Proof. unfold sqlite3_connect, sql_error, raise. frame_prim. Qed.

Lemma env_statement {A} c (run : DbImage → Py A) :
  (∀ img, preserves env_frame (run img)) → preserves env_frame (statement c run).
Proof.
  intros Hrun. unfold statement. destruct (db_fault _); [|apply Hrun].
  apply preserves_raise; apply _.
Qed.

Lemma env_delete_where_like c pat : preserves env_frame (delete_where_like c pat).
Proof.
  apply env_statement. intros img. destruct (db_cookies img).
  - apply preserves_ret; apply _.
  - apply preserves_raise; apply _.
Qed.

Lemma env_commit c : safe env_frame (commit c).
Proof. intros w. by eexists _, _. Qed.

Lemma env_close c : safe env_frame (close c).
Proof. apply safe_ret; apply _. Qed.


(** ** [log_deletion] *)

Lemma log_deletion_run site ty st det w :
  log_deletion site ty st det w =
  (Return tt,
   if log_ok w then add_log_line (log_line (now w) ty site st det) w
   else add_stdout ("Warning: Could not write to log: " +:+
                    "[Errno 13] Permission denied: LOG_FILE") w).
Proof.
  unfold log_deletion, try_except, append_to_log. by destruct (log_ok w).
Qed.

Lemma log_deletion_safe site ty st det :
  safe (λ w w', fs w' = fs w ∧ ctx_frame w w') (log_deletion site ty st det).
Proof.
  intros w. eexists _, _. split; [apply log_deletion_run|].
  by destruct (log_ok w) eqn:E; simpl; rewrite ?E.
Qed.

(** ** The [DELETE] statements *)

Lemma rowcounts_sum pats rows :
  sum_list (rowcounts pats rows) =
  length (filter (λ r, row_matches pats r = true) rows).
Proof.
  revert rows. induction pats as [|pat pats IH]; intros rows; simpl.
  - induction rows as [|r rows IHr]; [done|].
    rewrite filter_cons. by destruct (decide _).
  - rewrite IH. clear IH. induction rows as [|r rows IHr]; [done|].
    rewrite !filter_cons. simpl.
    destruct (Sqlite.where_like pat r) eqn:Hr; simpl;
      repeat case_decide; simpl; rewrite ?filter_cons; repeat case_decide;
      simpl; try done; try congruence; lia.
Qed.

Lemma remaining_cons pat pats (rows : list Sqlite.CookieRow) :
  filter (λ r, row_matches pats r = false)
         (filter (λ r, Sqlite.where_like pat r ≠ true) rows) =
  filter (λ r, row_matches (pat :: pats) r = false) rows.
Proof.
  rewrite list_filter_filter. apply list_filter_iff. intros r. simpl.
  destruct (Sqlite.where_like pat r), (row_matches pats r); simpl; intuition congruence.
Qed.

Lemma remaining_nil (rows : list Sqlite.CookieRow) :
  filter (λ r, row_matches [] r = false) rows = rows.
Proof.
  induction rows as [|r rows IHr]; [done|].
  rewrite filter_cons, decide_True by done. by f_equal.
Qed.

Lemma delete_patterns_run pats n p rows w :
  for_each delete_pattern
    (n, {| conn_path := p; conn_img := {| db_fault := None; db_cookies := Some rows |} |})
    pats w =
  (Return ((n + sum_list (rowcounts pats rows))%nat,
           {| conn_path := p;
              conn_img := {| db_fault := None;
                             db_cookies := Some (filter (λ r, row_matches pats r = false) rows) |} |}),
   w).
Proof.
  revert n rows. induction pats as [|pat pats IH]; intros n rows.
  - rewrite remaining_nil. cbn. by rewrite Nat.add_0_r.
  - simpl. rewrite run_bind. unfold delete_pattern at 1. rewrite run_bind. simpl.
    rewrite IH, remaining_cons. do 3 f_equal. lia.
Qed.

(** ** [delete_cookies_for_site] on a healthy store *)

#[local] Opaque patterns.

(** The world a successful cookie deletion leaves. *)
Lemma delete_cookies_try_healthy site w rows :
  fs w !! COOKIES_DB w = Some (cookie_store rows) →
  COOKIES_DB w ∉ denied w →
  let n := sum_list (rowcounts (patterns site) rows) in
  let w1 := set_fs <[COOKIES_DB w :=
              cookie_store (filter (λ r, row_matches (patterns site) r = false) rows)]> w in
  delete_cookies_try site w =
  (Return n,
   (log_deletion site "COOKIES" (if (0 <? n)%nat then "SUCCESS" else "NONE")
      (Str.of_nat n +:+ " deleted") w1).2).
Proof.
  intros Hdb Hden n w1. unfold delete_cookies_try.
  rewrite run_bind. simpl. rewrite run_bind.
  unfold sqlite3_connect at 1, is_denied, node_at.
  rewrite bool_decide_eq_false_2 by done. rewrite Hdb. simpl.
  rewrite run_bind, delete_patterns_run. simpl.
  rewrite run_bind. simpl. rewrite run_bind. simpl. rewrite run_bind.
  subst w1. rewrite !log_deletion_run. reflexivity.
Qed.

Lemma delete_cookies_healthy site w rows :
  fs w !! COOKIES_DB w = Some (cookie_store rows) →
  COOKIES_DB w ∉ denied w →
  ∃ w', delete_cookies_for_site site w =
          (Return (sum_list (rowcounts (patterns site) rows)), w') ∧
        fs w' = <[COOKIES_DB w :=
                  cookie_store (filter (λ r, row_matches (patterns site) r = false) rows)]> (fs w) ∧
        ctx_frame w w' ∧
        (log_ok w = true →
         log_lines w' = log_lines w ++
           [log_line (now w) "COOKIES" site
              (if (0 <? sum_list (rowcounts (patterns site) rows))%nat then "SUCCESS" else "NONE")
              (Str.of_nat (sum_list (rowcounts (patterns site) rows)) +:+ " deleted")]).
Proof.
  intros Hdb Hden. eexists. split.
  { unfold delete_cookies_for_site. apply run_try_return.
    by apply delete_cookies_try_healthy. }
  rewrite log_deletion_run. simpl.
  destruct (log_ok w) eqn:Hlog; simpl; rewrite ?Hlog; split_and!; try done.
Qed.

(** ** [delete_cookies_for_site] in general *)

Lemma env_delete_pattern st pat : preserves env_frame (delete_pattern st pat).
Proof.
  unfold delete_pattern. apply preserves_bind; [apply _ | apply env_delete_where_like |].
  intros [rc c']. apply preserves_ret; apply _.
Qed.

Lemma env_delete_patterns st pats :
  preserves env_frame (for_each delete_pattern st pats).
Proof. apply preserves_for_each; [apply _|]. intros ???. apply env_delete_pattern. Qed.

(** The [try] suite either raises before anything is logged, or reaches
    its [log_deletion] and returns. *)
Lemma delete_cookies_try_cases site w :
  (∃ e w1, delete_cookies_try site w = (Raise e, w1) ∧ env_frame w w1) ∨
  (∃ n w1, delete_cookies_try site w =
             (Return n,
              (log_deletion site "COOKIES" (if (0 <? n)%nat then "SUCCESS" else "NONE")
                 (Str.of_nat n +:+ " deleted") w1).2) ∧
           env_frame w w1).
Proof.
  unfold delete_cookies_try. rewrite run_bind. simpl.
  pose proof (env_sqlite3_connect (COOKIES_DB w) w) as Hc.
  rewrite run_bind. destruct (sqlite3_connect _ w) as [[conn|e] w1]; simpl in Hc;
    [|left; eauto].
  pose proof (env_delete_patterns (0%nat, conn) (patterns site) w1) as Hl.
  rewrite run_bind.
  destruct (for_each delete_pattern _ _ w1) as [[[n conn']|e] w2]; simpl in Hl.
  - right. exists n, (set_fs <[conn_path conn' := File (Database (conn_img conn'))]> w2).
    split.
    + rewrite run_bind. unfold commit, modify. rewrite run_bind. unfold close.
      cbn [mret Py_ret]. rewrite run_bind, !log_deletion_run. reflexivity.
    + etrans; [exact Hc|]. etrans; [exact Hl|]. done.
  - left. exists e, w2. split; [done|]. by etrans.
Qed.

Lemma delete_cookies_except_run site e w :
  ∃ w', delete_cookies_except site e w = (Return 0%nat, w') ∧
        fs w' = fs w ∧ ctx_frame w w' ∧
        (log_ok w = true →
         log_lines w' = log_lines w ++ [log_line (now w) "COOKIES" site "ERROR" (exc_msg e)]) ∧
        (log_ok w = false → log_lines w' = log_lines w).
Proof.
  unfold delete_cookies_except. rewrite run_bind, log_deletion_run.
  eexists. split; [reflexivity|]. by destruct (log_ok w) eqn:Hlog; simpl; rewrite ?Hlog.
Qed.

Lemma delete_cookies_try_missing site w :
  fs w !! COOKIES_DB w = None → ∃ e w1, delete_cookies_try site w = (Raise e, w1).
Proof.
  intros Hnone. unfold delete_cookies_try. rewrite run_bind. simpl. rewrite run_bind.
  unfold sqlite3_connect, node_at, sql_error, raise. rewrite Hnone.
  destruct (is_denied w _); [eauto|].
  destruct (fs w !! path_parent _) as [[|?]|]; eauto.
Qed.

#[local] Transparent patterns.

Lemma delete_cookies_try_fault site w img e :
  fs w !! COOKIES_DB w = Some (File (Database img)) → db_fault img = Some e →
  ∃ e' w1, delete_cookies_try site w = (Raise e', w1).
Proof.
  intros Hdb Hf. unfold delete_cookies_try. rewrite run_bind. simpl. rewrite run_bind.
  unfold sqlite3_connect, node_at, sql_error, raise. rewrite Hdb.
  destruct (is_denied w _); [eauto|]. simpl.
  rewrite run_bind. unfold patterns. simpl. rewrite run_bind.
  unfold delete_pattern at 1. rewrite run_bind. unfold delete_where_like, statement.
  simpl. rewrite Hf. eauto.
Qed.

#[local] Opaque patterns.

(** ** Claims about [delete_cookies_for_site] *)

(** When the [try] suite raises, the handler logs and 0 is returned. *)
Lemma delete_cookies_raise_run site w e w1 :
  delete_cookies_try site w = (Raise e, w1) →
  ∃ w', delete_cookies_for_site site w = (Return 0%nat, w') ∧
        w' = (delete_cookies_except site e w1).2 ∧
        (log_ok w = true →
         log_lines w' =
           log_lines w ++ [log_line (now w) "COOKIES" site "ERROR" (exc_msg e)]).
Proof.
  intros Htry.
  destruct (delete_cookies_try_cases site w) as [(e' & w1' & Hr & Hf)|(n & w1' & Hr & _)];
    rewrite Hr in Htry; [|discriminate].
  injection Htry as -> ->.
  destruct (delete_cookies_except_run site e w1) as (w' & Hrun & _ & _ & Hlog & _).
  exists w'. unfold delete_cookies_for_site. rewrite (run_try_raise _ _ _ _ _ Hr).
  split_and!; [done | by rewrite Hrun |].
  destruct Hf as (_ & _ & Hok & Hlines & Hnow). intros Hw.
  rewrite Hlog by congruence. by rewrite Hlines, Hnow.
Qed.

(** C10. [delete_cookies_for_site] never lets an exception out: it always
    returns.  Whenever its [try] suite raises an exception [e], whatever
    it is (a locked store and a missing one are instances, see
    [delete_cookies_try_fault] and [delete_cookies_try_missing]), the call
    returns 0 after running the handler, and the line the handler logs is
    the [ERROR] line of category [COOKIES] for the site, carrying the
    text of [e]. *)
Theorem delete_cookies_for_site_catches site w :
  (∃ n w', delete_cookies_for_site site w = (Return n, w')) ∧
  (∀ e w1, delete_cookies_try site w = (Raise e, w1) →
     ∃ w', delete_cookies_for_site site w = (Return 0%nat, w') ∧
           w' = (delete_cookies_except site e w1).2 ∧
           (log_ok w = true →
            log_lines w' =
              log_lines w ++ [log_line (now w) "COOKIES" site "ERROR" (exc_msg e)])).
Proof.
  split.
  - unfold delete_cookies_for_site, try_except.
    destruct (delete_cookies_try site w) as [[n|e] w1]; [eauto|].
    destruct (delete_cookies_except_run site e w1) as (w' & -> & _). eauto.
  - apply delete_cookies_raise_run.
Qed.

(** A locked store: the call returns 0 and logs the [ERROR] line. *)
Lemma delete_cookies_for_site_catches_witness :
  let e := {| exc_class := OperationalError_; exc_msg := "database is locked" |} in
  let w := ex_world (ex_faulty_profile e) in
  delete_cookies_try "x.com" w = (Raise e, w) ∧ log_ok w = true ∧
  (delete_cookies_for_site "x.com" w).1 = Return 0%nat ∧
  log_lines (delete_cookies_for_site "x.com" w).2 =
    [log_line ex_now "COOKIES" "x.com" "ERROR" "database is locked"].
Proof.
  intros e w.
  assert (Htry : delete_cookies_try "x.com" w = (Raise e, w)) by (vm_compute; reflexivity).
  destruct (delete_cookies_for_site_catches "x.com" w) as [_ Hcatch].
  destruct (Hcatch e w Htry) as (w' & Hrun & _ & Hlog).
  split_and!; [exact Htry | reflexivity | by rewrite Hrun |].
  rewrite Hrun. simpl. by rewrite Hlog.
Defined.

(** The same on a profile without a cookie store. *)
Example delete_cookies_no_store :
  let r := delete_cookies_for_site "x.com" (ex_world ∅) in
  r.1 = Return 0%nat ∧
  log_lines r.2 =
    [log_line ex_now "COOKIES" "x.com" "ERROR" "unable to open database file"].
Proof. vm_compute. done. Qed.

(** ** [delete_site_data_folders]: it always returns *)

Lemma env_delete_item site_lower name acc item :
  safe env_frame (delete_item site_lower name acc item).
Proof.
  unfold delete_item. destruct (item_matches _ _); [|apply safe_ret; apply _].
  apply safe_try; [apply _ | |].
  - apply preserves_bind; [apply _ | apply safe_preserves, env_path_is_dir; apply _ |].
    intros [|].
    + apply preserves_bind; [apply _ | apply safe_preserves, env_rmtree; apply _ |].
      intros _. apply preserves_ret; apply _.
    + apply preserves_bind; [apply _ | apply env_unlink |].
      intros _. apply preserves_ret; apply _.
  - intros e. apply safe_bind; [apply _ | apply env_print |].
    intros _. apply safe_ret; apply _.
Qed.

Lemma env_delete_in_storage site site_lower acc sp :
  safe env_frame (delete_in_storage site site_lower acc sp).
Proof.
  unfold delete_in_storage. destruct sp as [path_obj name].
  apply safe_bind; [apply _ | apply env_path_exists |].
  intros [|]; simpl; [|apply safe_ret; apply _].
  apply safe_try; [apply _ | |].
  - apply preserves_bind; [apply _ | apply safe_preserves, env_path_is_dir; apply _ |].
    intros [|]; [|apply preserves_ret; apply _].
    apply preserves_bind; [apply _ | apply env_iterdir |].
    intros items. apply (safe_preserves _).
    apply safe_for_each; [apply _|]. intros ???. apply env_delete_item.
  - intros e. apply safe_bind; [apply _ | apply env_print |].
    intros _. apply safe_ret; apply _.
Qed.

Lemma delete_site_data_folders_run home site w :
  ∃ items w1,
    for_each (delete_in_storage site (Str.lower site)) [] (storage_paths home) w
      = (Return items, w1) ∧
    env_frame w w1 ∧
    delete_site_data_folders home site w =
      (Return items,
       match items with
       | [] => w1
       | _ :: _ => (log_deletion site "STORAGE" "SUCCESS"
                      (Str.of_nat (length items) +:+ " items") w1).2
       end).
Proof.
  destruct (safe_for_each env_frame (delete_in_storage site (Str.lower site))
              (storage_paths home)
              (λ acc sp _, env_delete_in_storage site _ acc sp) [] w)
    as (items & w1 & Hrun & Hf).
  exists items, w1. split_and!; [done..|].
  unfold delete_site_data_folders. rewrite (run_bind_return _ _ _ _ _ Hrun).
  destruct items as [|i items]; [done|].
  rewrite run_bind, log_deletion_run. reflexivity.
Qed.

(** ** Claims about the audit log *)

(** C1 (as amended).  With the log file writable, one call of
    [delete_cookies_for_site] appends exactly one line, of category
    [COOKIES] and for the site, also when it deleted no row (status
    [NONE]) or failed (status [ERROR]); one call of
    [delete_site_data_folders] appends exactly one line, of category
    [STORAGE], status [SUCCESS] and with the number of records, when the
    list of records it returns is not empty, and no line at all when that
    list is empty.  (A record is made for every matching file it has
    unlinked and for every matching directory it has handed to [rmtree],
    whether or not [rmtree] could remove it.) *)
Theorem one_log_line_per_deletion home site w :
  log_ok w = true →
  (∃ n w' status details,
     delete_cookies_for_site site w = (Return n, w') ∧
     log_lines w' = log_lines w ++ [log_line (now w) "COOKIES" site status details] ∧
     (status = "SUCCESS" ∧ 0 < n ∨ status = "NONE" ∧ n = 0 ∨ status = "ERROR" ∧ n = 0)) ∧
  (∃ items w',
     delete_site_data_folders home site w = (Return items, w') ∧
     log_lines w' = log_lines w ++
       match items with
       | [] => []
       | _ :: _ => [log_line (now w) "STORAGE" site "SUCCESS"
                      (Str.of_nat (length items) +:+ " items")]
       end).
Proof.
  intros Hlog. split.
  - destruct (delete_cookies_try_cases site w) as [(e & w1 & Hr & Hf)|(n & w1 & Hr & Hf)].
    + destruct (delete_cookies_raise_run site w e w1 Hr) as (w' & Hrun & _ & Hlines).
      exists 0, w', "ERROR", (exc_msg e). split_and!; [done | by apply Hlines | auto].
    + eexists n, _, _, _. split_and!.
      * unfold delete_cookies_for_site. apply run_try_return. exact Hr.
      * destruct Hf as (_ & _ & Hok & Hlines & Hnow).
        rewrite log_deletion_run, Hok, Hlog. simpl. by rewrite Hlines, Hnow.
      * destruct n; simpl; [auto | left; split; [done | lia]].
  - destruct (delete_site_data_folders_run home site w)
      as (items & w1 & _ & (_ & _ & Hok & Hlines & Hnow) & Hrun).
    eexists items, _. split; [exact Hrun|].
    destruct items as [|i items]; [by rewrite Hlines, app_nil_r|].
    rewrite log_deletion_run, Hok, Hlog. simpl. by rewrite Hlines, Hnow.
Qed.

(** The storage pass that finds nothing writes nothing to the log: the
    claim that every call appends one line fails there. *)
Lemma storage_none_not_logged :
  let w := ex_world (ex_profile ["x.com"]) in
  let r := delete_site_data_folders ex_home "x.com" w in
  log_ok w = true ∧ r.1 = Return [] ∧ log_lines r.2 = log_lines w ∧
  ¬ ∃ line, log_lines r.2 = log_lines w ++ [line].
Proof.
  vm_compute. split_and!; try reflexivity. intros [line Hline]. discriminate.
Qed.

Lemma one_log_line_per_deletion_witness :
  let w := ex_world (ex_profile ["x.com"]) in
  log_ok w = true ∧
  (∃ n w' status details,
     delete_cookies_for_site "x.com" w = (Return n, w') ∧
     log_lines w' = log_lines w ++ [log_line (now w) "COOKIES" "x.com" status details] ∧
     (status = "SUCCESS" ∧ 0 < n ∨ status = "NONE" ∧ n = 0 ∨ status = "ERROR" ∧ n = 0)) ∧
  (∃ items w',
     delete_site_data_folders ex_home "x.com" w = (Return items, w') ∧
     log_lines w' = log_lines w ++
       match items with
       | [] => []
       | _ :: _ => [log_line (now w) "STORAGE" "x.com" "SUCCESS"
                      (Str.of_nat (length items) +:+ " items")]
       end).
Proof.
  intros w. split; [reflexivity|].
  apply (one_log_line_per_deletion ex_home "x.com" w). reflexivity.
Defined.

(** ** Pattern matching of the cookie deletion *)

Lemma row_matches_host pats r :
  row_matches pats r = host_matches pats (Sqlite.host_key r).
Proof.
  unfold row_matches, host_matches, Sqlite.where_like.
  destruct (Sqlite.host_key r); [done|]. by induction pats.
Qed.

Lemma filter_host_key (P : option string → Prop) `{!∀ h, Decision (P h)}
    (rows : list Sqlite.CookieRow) :
  Sqlite.host_key <$> filter (λ r, P (Sqlite.host_key r)) rows =
  filter P (Sqlite.host_key <$> rows).
Proof.
  induction rows as [|r rows IH]; [done|].
  rewrite fmap_cons, !filter_cons. destruct (decide _); rewrite ?fmap_cons; by rewrite IH.
Qed.

Lemma deleted_hosts pats (rows : list Sqlite.CookieRow) :
  Sqlite.host_key <$> filter (λ r, row_matches pats r = true) rows =
  filter (λ h, host_matches pats h = true) (Sqlite.host_key <$> rows).
Proof.
  etrans; [|apply (filter_host_key (λ h, host_matches pats h = true))].
  f_equal. apply list_filter_iff. intros r. by rewrite row_matches_host.
Qed.

Lemma remaining_hosts pats (rows : list Sqlite.CookieRow) :
  Sqlite.host_key <$> filter (λ r, row_matches pats r = false) rows =
  filter (λ h, host_matches pats h = false) (Sqlite.host_key <$> rows).
Proof.
  etrans; [|apply (filter_host_key (λ h, host_matches pats h = false))].
  f_equal. apply list_filter_iff. intros r. by rewrite row_matches_host.
Qed.

#[local] Transparent patterns.

(** C4. On a healthy store whose [cookies] table has one row for each of
    the host keys x.com, .x.com, www.x.com, api.x.com and evil-x.com (in
    any order, with any other columns), [delete_cookies_for_site "x.com"]
    returns 4 and leaves exactly the row of evil-x.com in the table. *)
Theorem pattern_coverage w rows :
  fs w !! COOKIES_DB w = Some (cookie_store rows) →
  COOKIES_DB w ∉ denied w →
  Sqlite.host_key <$> rows ≡ₚ
    [Some "x.com"; Some ".x.com"; Some "www.x.com"; Some "api.x.com"; Some "evil-x.com"] →
  ∃ w' r,
    delete_cookies_for_site "x.com" w = (Return 4%nat, w') ∧
    r ∈ rows ∧ Sqlite.host_key r = Some "evil-x.com" ∧
    fs w' !! COOKIES_DB w = Some (cookie_store [r]).
Proof.
  intros Hdb Hden Hperm.
  destruct (delete_cookies_healthy "x.com" w rows Hdb Hden) as (w' & Hrun & Hfs & _).
  assert (Hcount : sum_list (rowcounts (patterns "x.com") rows) = 4%nat).
  { rewrite rowcounts_sum, <-(length_fmap Sqlite.host_key), deleted_hosts, Hperm.
    by vm_compute. }
  assert (Hrest : Sqlite.host_key <$>
            filter (λ r, row_matches (patterns "x.com") r = false) rows
            = [Some "evil-x.com"]).
  { apply Permutation_singleton_r. rewrite remaining_hosts, Hperm. by vm_compute. }
  destruct (fmap_cons_inv _ _ _ _ Hrest) as (r & l' & Hr & Hl' & Hfilter).
  symmetry in Hl'. apply fmap_nil_inv in Hl'. subst l'.
  exists w', r. rewrite Hrun, Hcount, Hfs, lookup_insert_eq, Hfilter.
  split_and!; try done.
  assert (Hin : r ∈ filter (λ r, row_matches (patterns "x.com") r = false) rows)
    by (rewrite Hfilter; left).
  by apply list_elem_of_filter in Hin as [_ ?].
Qed.

Lemma pattern_coverage_witness :
  let w := ex_world (ex_profile ["x.com"; ".x.com"; "www.x.com"; "api.x.com"; "evil-x.com"]) in
  ∃ w' r,
    delete_cookies_for_site "x.com" w = (Return 4%nat, w') ∧
    r ∈ ex_row <$> ["x.com"; ".x.com"; "www.x.com"; "api.x.com"; "evil-x.com"] ∧
    Sqlite.host_key r = Some "evil-x.com" ∧
    fs w' !! COOKIES_DB w = Some (cookie_store [r]).
Proof.
  intros w. apply (pattern_coverage w).
  - reflexivity.
  - apply not_elem_of_empty.
  - reflexivity.
Defined.

(** ** [LIKE] and letter case *)

Lemma like_cons c pat d s :
  Sqlite.like (String c pat) (String d s) =
  if bool_decide (c = "%"%char) then
    Sqlite.like pat (String d s) || Sqlite.like (String c pat) s
  else if bool_decide (c = "_"%char) then Sqlite.like pat s
  else bool_decide (Str.lower_char c = Str.lower_char d) && Sqlite.like pat s.
Proof. destruct c as [[|] [|] [|] [|] [|] [|] [|] [|]]; reflexivity. Qed.

Lemma like_percent_here pat s :
  Sqlite.like pat s = true → Sqlite.like (String "%"%char pat) s = true.
Proof. intros H. destruct s; simpl; by rewrite H. Qed.

(** A text matches every pattern it equals up to ASCII case, wildcard
    characters in the pattern included. *)
Lemma like_lower pat s :
  Str.lower_ascii s = Str.lower_ascii pat → Sqlite.like pat s = true.
Proof.
  revert s. induction pat as [|c pat IH]; intros [|d s] Hl;
    simpl in Hl; try discriminate; [done|].
  injection Hl as Hc Hl.
  rewrite like_cons. repeat case_bool_decide; subst.
  - apply orb_true_iff. right. by apply like_percent_here, IH.
  - by apply IH.
  - simpl. by apply IH.
  - congruence.
Qed.

Lemma row_matches_true pats r :
  row_matches pats r = true ↔ ∃ pat, pat ∈ pats ∧ Sqlite.where_like pat r = true.
Proof.
  unfold row_matches. rewrite existsb_exists.
  split; intros (pat & ? & ?); exists pat; by rewrite ?list_elem_of_In in *.
Qed.

Lemma deleted_plus_remaining pats (rows : list Sqlite.CookieRow) :
  length (filter (λ r, row_matches pats r = true) rows) +
  length (filter (λ r, row_matches pats r = false) rows) = length rows.
Proof.
  induction rows as [|r rows IH]; [done|].
  rewrite !filter_cons. destruct (row_matches pats r);
    repeat case_decide; simpl; try done; lia.
Qed.

(** The row of X.COM goes when x.com is deleted, although it equals none
    of the patterns: the match is not case-sensitive. *)
Lemma uppercase_host_is_deleted :
  let w := ex_world (ex_profile ["X.COM"]) in
  let r := delete_cookies_for_site "x.com" w in
  ("X.COM" ∉ patterns "x.com") ∧
  fs w !! COOKIES_DB w = Some (cookie_store [ex_row "X.COM"]) ∧
  r.1 = Return 1%nat ∧
  fs r.2 !! COOKIES_DB w = Some (cookie_store []).
Proof.
  split_and!; [| reflexivity | vm_compute; reflexivity ..].
  intros H. repeat (apply elem_of_cons in H as [H|H]; [discriminate|]).
  by apply elem_of_nil in H.
Qed.

(** C5 (as amended).  On a healthy store the deleted count is the sum of
    the [rowcount]s of the nine [DELETE] statements, each counting the
    rows its pattern matches in the table as the statements before it
    left it, and it is the number of rows that went.  The match ignores
    ASCII letter case: every row whose [host_key] equals one of the
    patterns up to ASCII case is deleted. *)
Theorem like_ignores_ascii_case site w rows :
  fs w !! COOKIES_DB w = Some (cookie_store rows) →
  COOKIES_DB w ∉ denied w →
  ∃ w' rows',
    delete_cookies_for_site site w =
      (Return (sum_list (rowcounts (patterns site) rows)), w') ∧
    fs w' !! COOKIES_DB w = Some (cookie_store rows') ∧
    sum_list (rowcounts (patterns site) rows) + length rows' = length rows ∧
    (∀ r, r ∈ rows' → r ∈ rows) ∧
    (∀ r h pat, r ∈ rows → Sqlite.host_key r = Some h → pat ∈ patterns site →
                Str.lower_ascii h = Str.lower_ascii pat → r ∉ rows').
Proof.
  intros Hdb Hden.
  destruct (delete_cookies_healthy site w rows Hdb Hden) as (w' & Hrun & Hfs & _).
  exists w', (filter (λ r, row_matches (patterns site) r = false) rows).
  split_and!.
  - done.
  - by rewrite Hfs, lookup_insert_eq.
  - rewrite rowcounts_sum. apply deleted_plus_remaining.
  - by intros r [_ ?]%list_elem_of_filter.
  - intros r h pat Hr Hh Hpat Hlow [Hno _]%list_elem_of_filter.
    assert (row_matches (patterns site) r = true) as Hyes; [|congruence].
    apply row_matches_true. exists pat. split; [done|].
    unfold Sqlite.where_like. rewrite Hh. by apply like_lower.
Qed.

Lemma like_ignores_ascii_case_witness :
  let w := ex_world (ex_profile ["X.COM"; "other.org"]) in
  ∃ w' rows',
    delete_cookies_for_site "x.com" w =
      (Return (sum_list (rowcounts (patterns "x.com") (ex_row <$> ["X.COM"; "other.org"]))), w') ∧
    fs w' !! COOKIES_DB w = Some (cookie_store rows') ∧
    sum_list (rowcounts (patterns "x.com") (ex_row <$> ["X.COM"; "other.org"])) + length rows'
      = length (ex_row <$> ["X.COM"; "other.org"]) ∧
    (∀ r, r ∈ rows' → r ∈ ex_row <$> ["X.COM"; "other.org"]) ∧
    (∀ r h pat, r ∈ ex_row <$> ["X.COM"; "other.org"] → Sqlite.host_key r = Some h →
                pat ∈ patterns "x.com" → Str.lower_ascii h = Str.lower_ascii pat →
                r ∉ rows').
Proof.
  intros w. apply (like_ignores_ascii_case "x.com" w).
  - reflexivity.
  - apply not_elem_of_empty.
Defined.

(** ** Paths *)

Lemma path_parent_join (d : Path) c : path_parent (d / c)%path = d.
Proof.
  unfold path_parent, path_join. rewrite length_app. simpl.
  replace (length d + 1 - 1) with (length d) by lia. apply take_app_length.
Qed.

Lemma path_join_ne (d : Path) c : (d / c)%path ≠ d.
Proof.
  unfold path_join. intros H. apply (f_equal length) in H.
  rewrite length_app in H. simpl in H. lia.
Qed.

(** ** [get_unique_sites]: the [try] suite *)

(** What the [try] suite does when the store can be copied: the outcome
    is decided by what the engine finds in the copy, and the copy is
    removed on two of the three paths. *)
Lemma get_unique_sites_try_run tempdir w data :
  let temp_db := (tempdir / ("tmp" +:+ Str.of_nat (tmp_seq w) +:+ ".db"))%path in
  let w1 := set_fs <[temp_db := File data]>
              (bump_tmp_seq (set_fs <[temp_db := File (Text [])]> w)) in
  fs w !! COOKIES_DB w = Some (File data) →
  fs w !! tempdir = Some Dir →
  fs w !! temp_db = None →
  COOKIES_DB w ∉ denied w →
  temp_db ∉ denied w →
  get_unique_sites_try tempdir w =
  match db_fault (image_of data), db_cookies (image_of data) with
  | Some e, _ => (Raise e, w1)
  | None, None =>
      (Raise {| exc_class := Exception_; exc_msg := "Cookies table not found in database" |},
       set_fs (delete temp_db) w1)
  | None, Some rows =>
      (Return (sorted (collect_sites (remove_dups (omap Sqlite.where_host_present rows)))),
       set_fs (delete temp_db) w1)
  end.
Proof.
  intros temp_db w1 Hdb Hdir Hfree Hden Hdent.
  assert (Hne : COOKIES_DB w ≠ temp_db) by congruence.
  assert (Hne' : temp_db ≠ tempdir) by apply path_join_ne.
  assert (Hpar : path_parent temp_db = tempdir) by apply path_parent_join.
  unfold get_unique_sites_try. rewrite run_bind.
  unfold NamedTemporaryFile at 1, node_at, is_denied. fold temp_db.
  rewrite Hdir, Hfree, bool_decide_eq_false_2 by done.
  rewrite run_bind. simpl. rewrite run_bind.
  unfold copy2 at 1, node_at, is_denied. simpl.
  rewrite bool_decide_eq_false_2 by done.
  rewrite lookup_insert_ne, Hdb by done.
  rewrite !lookup_insert_eq, bool_decide_eq_false_2 by done.
  rewrite Hpar, lookup_insert_ne, Hdir by done.
  rewrite run_bind. unfold sqlite3_connect at 1, node_at, is_denied. simpl.
  rewrite bool_decide_eq_false_2, lookup_insert_eq by done.
  fold w1. rewrite run_bind.
  unfold has_cookies_table at 1, statement at 1. simpl.
  destruct (db_fault (image_of data)) as [e|] eqn:Hfault; [done|].
  simpl. destruct (db_cookies (image_of data)) as [rows|] eqn:Hrows.
  - rewrite bool_decide_eq_true_2 by eauto. simpl. rewrite run_bind.
    unfold select_distinct_host_keys at 1, statement. simpl. rewrite Hfault, Hrows.
    simpl. rewrite run_bind. simpl. rewrite run_bind.
    unfold unlink at 1, node_at, is_denied. simpl.
    rewrite bool_decide_eq_false_2, lookup_insert_eq by done. reflexivity.
  - rewrite bool_decide_eq_false_2 by (by intros [??]). simpl.
    rewrite run_bind. simpl. rewrite run_bind.
    unfold unlink at 1, node_at, is_denied. simpl.
    rewrite bool_decide_eq_false_2, lookup_insert_eq by done. reflexivity.
Qed.

(** After a run that reaches [unlink], the file system is as it was. *)
Lemma temp_copy_removed (m : gmap Path Node) p d1 d2 :
  m !! p = None → delete p (<[p := d2]> (<[p := d1]> m)) = m.
Proof.
  intros Hp. rewrite delete_insert_eq, delete_insert_eq. by apply delete_id.
Qed.

Lemma get_unique_sites_locate_present home w :
  is_Some (fs w !! COOKIES_DB w) → get_unique_sites_locate home w = (Return tt, w).
Proof.
  intros [n Hn]. unfold get_unique_sites_locate. rewrite run_bind. simpl.
  rewrite run_bind. simpl. unfold node_at. by rewrite Hn.
Qed.

(** ** The inventory loop *)

Lemma truthy_true s : Str.truthy s = true ↔ s ≠ "".
Proof. destruct s; simpl; split; congruence. Qed.

Lemma collect_site_elem sites host s :
  s ∈ collect_site sites host ↔
  s ∈ sites ∨ (s ≠ "" ∧ Str.lstrip_dot host = s).
Proof.
  unfold collect_site.
  destruct (Str.truthy host) eqn:Hhost.
  - destruct (Str.truthy (Str.lstrip_dot host)) eqn:Hstrip; simpl.
    + apply truthy_true in Hstrip. case_bool_decide; simpl.
      * split; [auto|]. intros [?|[_ <-]]; done.
      * rewrite elem_of_app, list_elem_of_singleton.
        split; [intros [?| ->]; [by left | by right] | intros [?|[_ <-]]; [by left | by right]].
    + split; [auto|]. intros [?|[Hs <-]]; [done|].
      apply truthy_true in Hs. congruence.
  - split; [auto|]. intros [?|[Hs <-]]; [done|].
    destruct host; [done | discriminate].
Qed.

Lemma collect_site_NoDup sites host : NoDup sites → NoDup (collect_site sites host).
Proof.
  intros Hnd. unfold collect_site. destruct (Str.truthy host); [|done].
  destruct (Str.truthy _); simpl; [|done]. case_bool_decide; simpl; [done|].
  apply NoDup_app. split_and!; [done | | apply NoDup_singleton].
  intros x Hx ->%list_elem_of_singleton. done.
Qed.

Lemma collect_sites_from hosts sites s :
  s ∈ fold_left collect_site hosts sites ↔
  s ∈ sites ∨ (s ≠ "" ∧ ∃ h, h ∈ hosts ∧ Str.lstrip_dot h = s).
Proof.
  revert sites. induction hosts as [|host hosts IH]; intros sites; simpl.
  - split; [auto|]. intros [?|(_ & h & Hh & _)]; [done|]. by apply elem_of_nil in Hh.
  - rewrite IH, collect_site_elem. split.
    + intros [[?|[? ?]]|(? & h & ? & ?)]; [auto | right | right].
      * split; [done|]. exists host. split; [left | done].
      * split; [done|]. exists h. split; [by right | done].
    + intros [?|(? & h & [->|?]%elem_of_cons & ?)]; [auto | auto |].
      right. split; [done|]. by exists h.
Qed.

Lemma collect_sites_NoDup_from hosts sites :
  NoDup sites → NoDup (fold_left collect_site hosts sites).
Proof.
  revert sites. induction hosts as [|host hosts IH]; intros sites Hnd; simpl; [done|].
  by apply IH, collect_site_NoDup.
Qed.

Lemma host_present_elem (rows : list Sqlite.CookieRow) h :
  h ∈ remove_dups (omap Sqlite.where_host_present rows) ↔
  h ≠ "" ∧ ∃ r, r ∈ rows ∧ Sqlite.host_key r = Some h.
Proof.
  rewrite elem_of_remove_dups, list_elem_of_omap. unfold Sqlite.where_host_present.
  split.
  - intros (r & Hr & Hh). destruct (Sqlite.host_key r) as [h'|] eqn:Hk; [|done].
    destruct (Str.truthy h') eqn:Ht; simplify_eq. apply truthy_true in Ht. eauto.
  - intros (Hne & r & Hr & Hk). exists r. split; [done|]. rewrite Hk.
    apply truthy_true in Hne. by rewrite Hne.
Qed.

Lemma lstrip_dot_nonempty h : Str.lstrip_dot h ≠ "" → h ≠ "".
Proof. by intros H ->. Qed.

(** What [sorted(sites)] holds, for the rows of a table. *)
Lemma inventory_spec (rows : list Sqlite.CookieRow) :
  let sites := sorted (collect_sites (remove_dups (omap Sqlite.where_host_present rows))) in
  StronglySorted String.le sites ∧ NoDup sites ∧
  ∀ s, s ∈ sites ↔
       s ≠ "" ∧ ∃ r h, r ∈ rows ∧ Sqlite.host_key r = Some h ∧ Str.lstrip_dot h = s.
Proof.
  intros sites. split_and!.
  - apply StronglySorted_merge_sort; apply _.
  - unfold sites, sorted. rewrite merge_sort_Permutation.
    apply collect_sites_NoDup_from, NoDup_nil_2.
  - intros s. unfold sites, sorted. rewrite merge_sort_Permutation.
    unfold collect_sites. rewrite collect_sites_from. split.
    + intros [Hs|(Hne & h & Hh & Hstrip)]; [by apply elem_of_nil in Hs|].
      apply host_present_elem in Hh as (_ & r & Hr & Hk). eauto 10.
    + intros (Hne & r & h & Hr & Hk & Hstrip). right. split; [done|].
      exists h. split; [|done]. apply host_present_elem. split; [|eauto].
      apply lstrip_dot_nonempty. congruence.
Qed.

(** ** Claims about the inventory *)

(** Two leading dots: both go, where the specification strips one. *)
Lemma leading_dots_all_stripped :
  let rows := [ex_row "..a.com"] in
  let w := ex_world (ex_profile ["..a.com"]) in
  fs w !! COOKIES_DB w = Some (cookie_store rows) ∧
  (get_unique_sites ex_home ex_tmp w).1 = Return ["a.com"] ∧
  spec_inventory rows = [".a.com"] ∧
  (get_unique_sites ex_home ex_tmp w).1 ≠ Return (spec_inventory rows).
Proof. vm_compute. split_and!; try reflexivity. discriminate. Qed.

(** C3 (as amended).  On a readable healthy store, [get_unique_sites]
    returns the list that is sorted in the code-point order, has no
    duplicate, and holds exactly the non-empty strings obtained from the
    host keys of the table by stripping all their leading dots; it leaves
    the file system as it found it.  For the host keys a.com, .a.com and
    B.com it returns B.com, a.com. *)
Theorem inventory_sorted_distinct :
  (get_unique_sites ex_home ex_tmp (ex_world (ex_profile ["a.com"; ".a.com"; "B.com"]))).1
    = Return ["B.com"; "a.com"] ∧
  ∀ home tempdir w rows,
    let temp_db := (tempdir / ("tmp" +:+ Str.of_nat (tmp_seq w) +:+ ".db"))%path in
    fs w !! COOKIES_DB w = Some (cookie_store rows) →
    fs w !! tempdir = Some Dir →
    fs w !! temp_db = None →
    COOKIES_DB w ∉ denied w →
    temp_db ∉ denied w →
    ∃ sites w',
      get_unique_sites home tempdir w = (Return sites, w') ∧
      fs w' = fs w ∧
      StronglySorted String.le sites ∧ NoDup sites ∧
      ∀ s, s ∈ sites ↔
           s ≠ "" ∧ ∃ r h, r ∈ rows ∧ Sqlite.host_key r = Some h ∧ Str.lstrip_dot h = s.
Proof.
  split; [by vm_compute|].
  intros home tempdir w rows temp_db Hdb Hdir Hfree Hden Hdent.
  pose proof (get_unique_sites_try_run tempdir w _ Hdb Hdir Hfree Hden Hdent) as Htry.
  simpl in Htry. fold temp_db in Htry.
  eexists _, _. split_and!.
  - unfold get_unique_sites.
    rewrite (run_bind_return _ _ _ _ _ (get_unique_sites_locate_present home w (mk_is_Some _ _ Hdb))).
    apply run_try_return. exact Htry.
  - simpl. by apply temp_copy_removed.
  - apply inventory_spec.
  - apply inventory_spec.
  - apply inventory_spec.
Qed.

Lemma inventory_sorted_distinct_witness :
  let w := ex_world (ex_profile ["a.com"; ".a.com"; "B.com"]) in
  ∃ sites w',
    get_unique_sites ex_home ex_tmp w = (Return sites, w') ∧
    fs w' = fs w ∧
    StronglySorted String.le sites ∧ NoDup sites ∧
    ∀ s, s ∈ sites ↔
         s ≠ "" ∧ ∃ r h, r ∈ ex_row <$> ["a.com"; ".a.com"; "B.com"] ∧
                         Sqlite.host_key r = Some h ∧ Str.lstrip_dot h = s.
Proof.
  intros w. destruct inventory_sorted_distinct as [_ H].
  apply (H ex_home ex_tmp w (ex_row <$> ["a.com"; ".a.com"; "B.com"])).
  - reflexivity.
  - reflexivity.
  - reflexivity.
  - apply not_elem_of_empty.
  - apply not_elem_of_empty.
Defined.

(** C2.  The temporary copy is not removed when reading it fails: with a
    cookie store that is not a database, [get_unique_sites] raises, and
    the file it made in the temporary directory is still there. *)
Theorem temp_copy_left_behind :
  let w := ex_world (<[COOKIES_DB_default ex_home := File (Text ["not a database"])]>
                       (<[ex_tmp := Dir]> ∅)) in
  let r := get_unique_sites ex_home ex_tmp w in
  r.1 = Raise {| exc_class := Exception_;
                 exc_msg := "Failed to read cookies: file is not a database" |} ∧
  fs w !! (ex_tmp / "tmp0.db")%path = None ∧
  fs r.2 !! (ex_tmp / "tmp0.db")%path = Some (File (Text ["not a database"])).
Proof. by vm_compute. Qed.

(** ** [get_unique_sites]: locating the store *)

#[local] Opaque default_paths.

Lemma probe_not_found paths w :
  (∀ p, p ∈ paths → fs w !! p = None) → probe paths w = (Raise cookies_not_found, w).
Proof.
  induction paths as [|p paths IH]; intros Hnone; simpl; [done|].
  rewrite run_bind. simpl. unfold node_at. rewrite (Hnone p) by left.
  apply IH. intros q Hq. apply Hnone. by right.
Qed.

Lemma probe_found tried path rest w :
  (∀ p, p ∈ tried → fs w !! p = None) → is_Some (fs w !! path) →
  probe (tried ++ path :: rest) w =
  (Return tt, add_stdout ("Found cookies database at: " +:+ path_str path)
                (set_COOKIES_DB path w)).
Proof.
  induction tried as [|p tried IH]; intros Hnone [n Hn]; simpl.
  - rewrite run_bind. simpl. unfold node_at. by rewrite Hn.
  - rewrite run_bind. simpl. unfold node_at. rewrite (Hnone p) by left.
    apply IH; [|by eexists]. intros q Hq. apply Hnone. by right.
Qed.



(** The [try] statement leaves the global [COOKIES_DB] alone. *)
Lemma env_get_unique_sites_try tempdir : preserves env_frame (get_unique_sites_try tempdir).
Proof.
  unfold get_unique_sites_try.
  apply preserves_bind; [apply _ | apply env_NamedTemporaryFile |]. intros temp_db.
  apply preserves_bind; [apply _ | apply preserves_gets; apply _ |]. intros cookies_db.
  apply preserves_bind; [apply _ | apply env_copy2 |]. intros _.
  apply preserves_bind; [apply _ | apply env_sqlite3_connect |]. intros conn.
  assert (Htail : ∀ A (m : Py A), preserves env_frame m →
            preserves env_frame (close conn;; unlink temp_db;; m)).
  { intros A m Hm.
    apply preserves_bind; [apply _ | apply (safe_preserves _), env_close |]. intros _.
    apply preserves_bind; [apply _ | apply env_unlink |]. by intros _. }
  apply preserves_bind; [apply _ | |].
  { apply env_statement. intros img. apply preserves_ret; apply _. }
  intros [|]; simpl.
  - apply preserves_bind; [apply _ | |].
    { apply env_statement. intros img. destruct (db_cookies img).
      - apply preserves_ret; apply _.
      - apply preserves_raise; apply _. }
    intros hosts. apply Htail. apply preserves_ret; apply _.
  - apply Htail. apply preserves_raise; apply _.
Qed.

Lemma env_get_unique_sites_except e : preserves env_frame (get_unique_sites_except e).
Proof.
  unfold get_unique_sites_except.
  destruct (is_operational e); [destruct (Str.contains _ _)|];
    apply preserves_raise; apply _.
Qed.

Lemma get_unique_sites_keeps_choice tempdir w :
  COOKIES_DB (try_except (get_unique_sites_try tempdir) get_unique_sites_except w).2
  = COOKIES_DB w.
Proof.
  apply (preserves_try env_frame _ _ (env_get_unique_sites_try tempdir)
           env_get_unique_sites_except w).
Qed.

#[local] Transparent default_paths.

(** ** Claims about locating the store *)

(** No candidate exists: the error raised names none of them. *)
Lemma not_found_names_no_candidate :
  let r := get_unique_sites ex_home ex_tmp (ex_world ∅) in
  r.1 = Raise cookies_not_found ∧
  Forall (λ p, Str.contains (path_str p) (exc_msg cookies_not_found) = false)
         (default_paths ex_home) ∧
  ¬ Forall (λ p, Str.contains (path_str p) (exc_msg cookies_not_found) = true)
           (default_paths ex_home).
Proof.
  split_and!.
  - by vm_compute.
  - repeat constructor.
  - intros H. apply Forall_cons in H as [H _]. vm_compute in H. discriminate.
Qed.

(** C7 (as amended).  When the path in [COOKIES_DB] does not exist,
    [get_unique_sites] goes through [default_paths] in order and makes
    the first one that exists the new [COOKIES_DB]; when none exists it
    raises [FileNotFoundError] with the fixed text "Cookies DB not found /
    Ensure Chrome is closed and path is correct.", and changes nothing. *)
Theorem cookie_store_fallback home tempdir w :
  fs w !! COOKIES_DB w = None →
  (∀ tried path rest,
     default_paths home = tried ++ path :: rest →
     (∀ p, p ∈ tried → fs w !! p = None) → is_Some (fs w !! path) →
     COOKIES_DB (get_unique_sites home tempdir w).2 = path) ∧
  ((∀ p, p ∈ default_paths home → fs w !! p = None) →
     get_unique_sites home tempdir w = (Raise cookies_not_found, w) ∧
     exc_class cookies_not_found = FileNotFoundError_).
Proof.
  intros Hmissing.
  assert (Hloc : get_unique_sites_locate home w = probe (default_paths home) w).
  { unfold get_unique_sites_locate. rewrite run_bind. simpl. rewrite run_bind. simpl.
    unfold node_at. by rewrite Hmissing. }
  split.
  - intros tried path rest Hsplit Hnone Hsome. unfold get_unique_sites.
    erewrite run_bind_return; [|rewrite Hloc, Hsplit; by apply probe_found].
    by rewrite get_unique_sites_keeps_choice.
  - intros Hnone. split; [|done]. unfold get_unique_sites.
    apply run_bind_raise. rewrite Hloc. by apply probe_not_found.
Qed.

Lemma cookie_store_fallback_witness :
  let w := ex_world (<[(CHROME_PROFILE ex_home / "Cookies")%path := cookie_store []]> ∅) in
  fs w !! COOKIES_DB w = None ∧
  COOKIES_DB (get_unique_sites ex_home ex_tmp w).2 = (CHROME_PROFILE ex_home / "Cookies")%path ∧
  get_unique_sites ex_home ex_tmp (ex_world ∅) = (Raise cookies_not_found, ex_world ∅).
Proof.
  intros w. split_and!.
  - reflexivity.
  - destruct (cookie_store_fallback ex_home ex_tmp w) as [H _]; [reflexivity|].
    apply H with (tried := [])
      (rest := [(CHROME_PROFILE ex_home / "Network" / "Cookies")%path;
                (ex_home / "AppData" / "Local" / "Google" / "Chrome" / "User Data"
                 / "Default" / "Cookies")%path]).
    + reflexivity.
    + intros p Hp. by apply elem_of_nil in Hp.
    + by eexists.
  - destruct (cookie_store_fallback ex_home ex_tmp (ex_world ∅)) as [_ H];
      [reflexivity|].
    apply H. intros p _. apply lookup_empty.
Defined.

(** ** Claims about the locked store *)





(** ** [mkdir(parents=True, exist_ok=True)] *)

#[local] Instance mkdir_step_preorder p : PreOrder (mkdir_step p).
Proof.
  split.
  - intros w. split; [by left | done].
  - intros w1 w2 w3 [H12 F12] [H23 F23]. split; [|by etrans].
    intros q. destruct (H12 q) as [E12|(N1 & D2 & Hp)], (H23 q) as [E23|(N2 & D3 & Hp3)].
    + left. congruence.
    + right. split_and!; [congruence | done | done].
    + right. split_and!; [done | congruence | done].
    + congruence.
Qed.

Lemma mkdir_step_prefix p w w' q :
  mkdir_step p w w' → ¬ q `prefix_of` p → fs w' !! q = fs w !! q.
Proof. intros [H _] Hq. destruct (H q) as [?|(_ & _ & ?)]; done. Qed.

Lemma mkdir_step_present p w w' q n :
  mkdir_step p w w' → fs w !! q = Some n → fs w' !! q = Some n.
Proof. intros [H _] Hq. destruct (H q) as [?|(? & _ & _)]; congruence. Qed.

Lemma mkdir_parents_run p w :
  p ≠ [] → denied w = ∅ →
  (∀ n d, fs w !! take n p ≠ Some (File d)) →
  ∃ w', mkdir_parents p w = (Return tt, w') ∧ mkdir_step p w w' ∧
        fs w' !! p = Some Dir.
Proof.
  intros Hp Hden Hfile. unfold mkdir_parents.
  destruct (for_each_inv (mkdir_step p)
              (λ w, denied w = ∅ ∧ ∀ n d, fs w !! take n p ≠ Some (File d))
              (λ n w, fs w !! take n p = Some Dir)
              (λ (_ : ()) n, mkdir_one (take n p)) (seq 1 (length p)))
    with (acc := ()) (w := w) as ([] & w' & Hrun & Hstep & Hall).
  - intros w1 w2 [Hd Hf] Hs. split; [destruct Hs as [_ (? & _)]; congruence|].
    intros n d Hn. destruct Hs as [Hs _].
    destruct (Hs (take n p)) as [E|(_ & ? & _)]; [|congruence].
    rewrite E in Hn. by eapply Hf.
  - intros n w1 w2 Hn Hs. by eapply mkdir_step_present.
  - intros [] n w1 _ [Hd Hf]. unfold mkdir_one, node_at, is_denied.
    destruct (fs w1 !! take n p) as [[|d]|] eqn:Hn.
    + exists (), w1. split_and!; [done | reflexivity | done].
    + by destruct (Hf n d).
    + rewrite bool_decide_eq_false_2 by (rewrite Hd; apply not_elem_of_empty).
      eexists (), _. split_and!; [done | | simpl; apply lookup_insert_eq].
      split; [|done]. intros q. simpl.
      destruct (decide (q = take n p)) as [->|Hq].
      * right. rewrite lookup_insert_eq. split_and!; [done..|]. apply prefix_take.
      * left. by rewrite lookup_insert_ne.
  - done.
  - exists w'. split_and!; [done..|].
    rewrite <-(take_ge p (length p)) at 1 by done. apply Hall.
    apply elem_of_seq. destruct p; [done | simpl; lia].
Qed.

(** ** [create_backup] *)

Lemma preserves_run {A} (R : relation World) (m : Py A) w o w' :
  preserves R m → m w = (o, w') → R w w'.
Proof. intros H E. specialize (H w). by rewrite E in H. Qed.

Lemma env_backup_one backup_dir count file_path :
  preserves env_frame (backup_one backup_dir count file_path).
Proof.
  unfold backup_one. destruct file_path as [file_path|]; [|apply preserves_ret; apply _].
  apply preserves_bind; [apply _ | apply (safe_preserves _), env_path_exists |].
  intros [|]; [|apply preserves_ret; apply _].
  apply preserves_bind; [apply _ | apply (safe_preserves _), env_path_is_file |].
  intros [|].
  - apply preserves_bind; [apply _ | apply env_copy2 |].
    intros _. apply preserves_ret; apply _.
  - apply preserves_bind; [apply _ | apply (safe_preserves _), env_path_is_dir |].
    intros [|]; [|apply preserves_ret; apply _].
    apply preserves_bind; [apply _ | apply env_copytree |].
    intros _. apply preserves_ret; apply _.
Qed.

Lemma write_text_return_inv p lines w w' :
  write_text p lines w = (Return tt, w') → w' = set_fs <[p := File (Text lines)]> w.
Proof.
  unfold write_text, permission_denied, no_such_file, raise.
  repeat case_match; by intros [= <-].
Qed.

(** A backup that returns has written the manifest it returns the count of. *)
Lemma create_backup_try_return_inv home w dir n w' :
  create_backup_try home w = (Return (Some dir, n), w') →
  fs w' !! (dir / "backup_info.txt")%path = Some (File (Text (backup_info home (now w) n))).
Proof.
  unfold create_backup_try. intros Hrun.
  apply bind_return_inv in Hrun as (t & w0 & [= <- <-] & Hrun).
  apply bind_return_inv in Hrun as ([] & w1 & Hmk & Hrun).
  pose proof (preserves_run _ _ _ _ _ (env_mkdir_parents _) Hmk) as F1.
  apply bind_return_inv in Hrun as (db & ? & [= <- <-] & Hrun).
  apply bind_return_inv in Hrun as (ls & ? & [= <- <-] & Hrun).
  apply bind_return_inv in Hrun as (ss & ? & [= <- <-] & Hrun).
  apply bind_return_inv in Hrun as (count & w2 & Hloop & Hrun).
  pose proof (preserves_run _ _ _ _ _
                (preserves_for_each env_frame _ _
                   (λ acc x _, env_backup_one _ acc x) 0) Hloop) as F2.
  apply bind_return_inv in Hrun as (t' & ? & [= <- <-] & Hrun).
  apply bind_return_inv in Hrun as ([] & w3 & Hwrite & [= <- <- <-]).
  apply write_text_return_inv in Hwrite as ->. simpl.
  rewrite lookup_insert_eq.
  destruct F1 as (_ & _ & _ & _ & N1), F2 as (_ & _ & _ & _ & N2). by rewrite N2, N1.
Qed.

Lemma create_backup_return_inv home w dir n w' :
  create_backup home w = (Return (Some dir, n), w') →
  create_backup_try home w = (Return (Some dir, n), w').
Proof.
  unfold create_backup, try_except.
  destruct (create_backup_try home w) as [[r|e] w1]; [done|].
  rewrite run_bind. simpl. discriminate.
Qed.

Lemma length_path_join (p : Path) c : length (p / c)%path = S (length p).
Proof. unfold path_join. rewrite length_app. simpl. lia. Qed.

Lemma storage_not_above_backup home name :
  ¬ LOCAL_STORAGE_PATH home `prefix_of` (LOG_DIR home / name)%path ∧
  ¬ SESSION_STORAGE_PATH home `prefix_of` (LOG_DIR home / name)%path.
Proof.
  split; intros H%prefix_length; revert H;
    unfold LOCAL_STORAGE_PATH, SESSION_STORAGE_PATH, CHROME_PROFILE, LOG_DIR;
    rewrite !length_path_join; lia.
Qed.

Lemma child_not_above_parent (d : Path) c : ¬ (d / c)%path `prefix_of` d.
Proof. intros H%prefix_length. rewrite length_path_join in H. lia. Qed.

Lemma parent_prefix_child (d : Path) c : d `prefix_of` (d / c)%path.
Proof. by exists [c]. Qed.

#[local] Opaque LOCAL_STORAGE_PATH SESSION_STORAGE_PATH LOG_DIR CHROME_PROFILE.

(** The backup of a profile that has a cookie store and no storage
    directories, into a fresh backup directory. *)
Lemma create_backup_cookies_only home w data :
  let backup_dir := (LOG_DIR home / ("backup_" +:+ strftime_file (now w)))%path in
  fs w !! COOKIES_DB w = Some (File data) →
  fs w !! LOCAL_STORAGE_PATH home = None →
  fs w !! SESSION_STORAGE_PATH home = None →
  denied w = ∅ →
  (∀ n d, fs w !! take n backup_dir ≠ Some (File d)) →
  (∀ q, backup_dir `prefix_of` q → q ≠ backup_dir → fs w !! q = None) →
  ∃ w', create_backup_try home w = (Return (Some backup_dir, 1%nat), w').
Proof.
  intros backup_dir Hdb Hls Hss Hden Hway Hfresh.
  destruct (mkdir_parents_run backup_dir w) as (w1 & Hmk & Hstep & Hdir);
    [by destruct (LOG_DIR home) | done | done |].
  pose proof Hstep as [_ (Hden1 & Hc1 & _ & _ & Hnow1)].
  destruct (storage_not_above_backup home ("backup_" +:+ strftime_file (now w)))
    as [Nls Nss].
  assert (Hls1 : fs w1 !! LOCAL_STORAGE_PATH home = None)
    by (by rewrite (mkdir_step_prefix _ _ _ _ Hstep)).
  assert (Hss1 : fs w1 !! SESSION_STORAGE_PATH home = None)
    by (by rewrite (mkdir_step_prefix _ _ _ _ Hstep)).
  assert (Hdb1 : fs w1 !! COOKIES_DB w = Some (File data))
    by (by eapply mkdir_step_present).
  assert (Hin : ∀ c, fs w1 !! (backup_dir / c)%path = None).
  { intros c. rewrite (mkdir_step_prefix _ _ _ _ Hstep) by apply child_not_above_parent.
    apply Hfresh; [apply parent_prefix_child | apply path_join_ne]. }
  assert (Hnd : ∀ p, is_denied w1 p = false).
  { intros p. unfold is_denied. rewrite Hden1, Hden.
    apply bool_decide_eq_false_2, not_elem_of_empty. }
  set (dest := (backup_dir / path_name (COOKIES_DB w))%path).
  set (w2 := set_fs <[dest := File data]> w1).
  assert (Hdest : fs w1 !! dest = None) by apply Hin.
  assert (Hpd : path_parent dest = backup_dir) by apply path_parent_join.
  assert (Hcopy : backup_one backup_dir 0 (Some (COOKIES_DB w)) w1 = (Return 1%nat, w2)).
  { unfold backup_one. rewrite run_bind. simpl. unfold node_at. rewrite Hdb1.
    rewrite run_bind. simpl. unfold node_at. rewrite Hdb1.
    rewrite run_bind. unfold copy2, node_at. rewrite Hnd, Hdb1. fold dest.
    rewrite !Hdest, Hnd, Hpd, Hdir. reflexivity. }
  unfold create_backup_try. rewrite run_bind. simpl. fold backup_dir.
  rewrite (run_bind_return _ _ _ _ _ Hmk).
  rewrite run_bind. simpl. rewrite Hc1.
  rewrite run_bind. simpl. unfold node_at. rewrite Hls1.
  rewrite run_bind. simpl. unfold node_at. rewrite Hss1.
  rewrite run_bind.
  cbn [for_each]. rewrite (run_bind_return _ _ _ _ _ Hcopy).
  cbn [backup_one]. rewrite run_bind. cbn [mret Py_ret]. rewrite run_bind. cbn [mret Py_ret].
  rewrite run_bind. simpl. rewrite run_bind.
  assert (Hnd2 : ∀ p, is_denied w2 p = false) by exact Hnd.
  unfold write_text, node_at. rewrite Hnd2. subst w2. simpl. rewrite path_parent_join.
  rewrite (lookup_insert_ne _ dest backup_dir) by apply path_join_ne.
  rewrite Hdir.
  destruct (decide (dest = (backup_dir / "backup_info.txt")%path)) as [<-|Hne].
  - rewrite lookup_insert_eq. eauto.
  - rewrite lookup_insert_ne, (Hin _) by done. eauto.
Qed.

#[local] Transparent LOCAL_STORAGE_PATH SESSION_STORAGE_PATH LOG_DIR CHROME_PROFILE.

(** ** Claims about the backup *)

(** C9.  Whenever [create_backup] returns a backup directory with a
    count, the [backup_info.txt] it has written in that directory
    records that very count; a failed backup returns no directory and
    the count 0.  In particular, with a cookie store file, without the
    local-storage and session-storage directories, nothing refused by
    the operating system and a fresh backup directory, the count
    returned is 1 and the manifest says "Files backed up: 1". *)
Theorem backup_manifest_truth home :
  (∀ w dir n w',
     create_backup home w = (Return (Some dir, n), w') →
     fs w' !! (dir / "backup_info.txt")%path
       = Some (File (Text (backup_info home (now w) n))) ∧
     backup_info home (now w) n !! 2%nat
       = Some ("Files backed up: " +:+ Str.of_nat n +:+ nl)) ∧
  (∀ w, ∃ r w', create_backup home w = (Return r, w') ∧ (r.1 = None → r.2 = 0%nat)) ∧
  (∀ w data,
     let backup_dir := (LOG_DIR home / ("backup_" +:+ strftime_file (now w)))%path in
     fs w !! COOKIES_DB w = Some (File data) →
     fs w !! LOCAL_STORAGE_PATH home = None →
     fs w !! SESSION_STORAGE_PATH home = None →
     denied w = ∅ →
     (∀ n d, fs w !! take n backup_dir ≠ Some (File d)) →
     (∀ q, backup_dir `prefix_of` q → q ≠ backup_dir → fs w !! q = None) →
     ∃ w' manifest,
       create_backup home w = (Return (Some backup_dir, 1%nat), w') ∧
       fs w' !! (backup_dir / "backup_info.txt")%path = Some (File (Text manifest)) ∧
       manifest !! 2%nat = Some ("Files backed up: 1" +:+ nl)).
Proof.
  split_and!.
  - intros w dir n w' Hrun. split; [|reflexivity].
    by apply create_backup_try_return_inv, create_backup_return_inv.
  - intros w. unfold create_backup, try_except.
    destruct (create_backup_try home w) as [[r|e] w1] eqn:Htry.
    + exists r, w1. split; [done|]. intros Hnone. destruct r as [[dir|] n]; [done|].
      unfold create_backup_try in Htry.
      apply bind_return_inv in Htry as (? & ? & _ & Htry).
      apply bind_return_inv in Htry as (? & ? & _ & Htry).
      apply bind_return_inv in Htry as (? & ? & _ & Htry).
      apply bind_return_inv in Htry as (? & ? & _ & Htry).
      apply bind_return_inv in Htry as (? & ? & _ & Htry).
      apply bind_return_inv in Htry as (? & ? & _ & Htry).
      apply bind_return_inv in Htry as (? & ? & _ & Htry).
      apply bind_return_inv in Htry as (? & ? & _ & Htry).
      discriminate.
    + eexists (None, 0%nat), _. split; [|done]. rewrite run_bind. reflexivity.
  - intros w data backup_dir Hdb Hls Hss Hden Hway Hfresh.
    destruct (create_backup_cookies_only home w data Hdb Hls Hss Hden Hway Hfresh)
      as (w' & Htry).
    exists w', (backup_info home (now w) 1). split_and!.
    + unfold create_backup. by apply run_try_return.
    + by apply create_backup_try_return_inv.
    + reflexivity.
Qed.

Lemma backup_manifest_truth_witness :
  let w := ex_world (<[COOKIES_DB_default ex_home := cookie_store [ex_row "a.com"]]>
                       (<[LOG_DIR ex_home := Dir]> ∅)) in
  let backup_dir := (LOG_DIR ex_home / "backup_2024-01-02_03-04-05")%path in
  ∃ w' manifest,
    create_backup ex_home w = (Return (Some backup_dir, 1%nat), w') ∧
    fs w' !! (backup_dir / "backup_info.txt")%path = Some (File (Text manifest)) ∧
    manifest !! 2%nat = Some ("Files backed up: 1" +:+ nl).
Proof.
  intros w backup_dir.
  destruct (backup_manifest_truth ex_home) as (_ & _ & H).
  apply (H w (Database {| db_fault := None; db_cookies := Some [ex_row "a.com"] |})).
  - reflexivity.
  - reflexivity.
  - reflexivity.
  - reflexivity.
  - intros n d. do 7 (destruct n as [|n]; [vm_compute; discriminate|]).
    vm_compute. discriminate.
  - intros q [k ->] _. unfold w, ex_world. simpl.
    rewrite !lookup_insert_ne, lookup_empty by (by intros [=]). done.
Defined.

(** ** The storage pass *)

Lemma is_child_inv (d q : Path) : is_child d q = true → ∃ c, q = (d / c)%path.
Proof.
  unfold is_child, path_parent, path_join. intros [Hq <-]%bool_decide_eq_true.
  destruct (exists_last Hq) as (l & c & ->). exists c.
  rewrite length_app. simpl. replace (length l + 1 - 1) with (length l) by lia.
  by rewrite take_app_length.
Qed.


Lemma no_denied_not_denied w q : denied w = ∅ → is_denied w q = false.
Proof.
  intros Hd. unfold is_denied. rewrite Hd.
  apply bool_decide_eq_false_2, not_elem_of_empty.
Qed.

Section StoragePass.

Variable home : Path.

#[local] Instance storage_step_preorder : PreOrder (storage_step home).
Proof.
  split.
  - intros w. split; [by left | done].
  - intros w1 w2 w3 [H12 F12] [H23 F23]. split; [|by etrans].
    intros q. destruct (H23 q) as [E23|[N3 Hu]]; [|by right].
    destruct (H12 q) as [E12|[N2 Hu]]; [left | right]; [congruence|].
    split; [congruence | done].
Qed.








End StoragePass.

Section StorageIdempotence.

Variable home : Path.

#[local] Existing Instance storage_step_preorder.

Lemma iterdir_run d w :
  denied w = ∅ → fs w !! d = Some Dir →
  iterdir d w =
  (Return (filter (λ q, is_child d q = true) (map_to_list (fs w)).*1), w).
Proof.
  intros Hden Hd. unfold iterdir, node_at.
  by rewrite no_denied_not_denied, Hd by done.
Qed.

Lemma elem_of_iterdir d w q :
  q ∈ filter (λ q, is_child d q = true) (map_to_list (fs w)).*1 ↔
  is_child d q = true ∧ is_Some (fs w !! q).
Proof.
  rewrite list_elem_of_filter, list_elem_of_fmap. split.
  - intros [Hc ([q' n] & -> & Hin%elem_of_map_to_list)]. split; [done | by eexists].
  - intros [Hc [n Hn]]. split; [done|]. exists (q, n).
    split; [done | by apply elem_of_map_to_list].
Qed.



Lemma for_each_idle {A B} (f : B → A → Py B) l acc w :
  (∀ x, x ∈ l → f acc x w = (Return acc, w)) → for_each f acc l w = (Return acc, w).
Proof.
  induction l as [|x l IH]; intros Hf; simpl; [done|].
  rewrite run_bind, (Hf x) by left. apply IH. intros y Hy. apply Hf. by right.
Qed.

(** A pass over clean storage paths finds nothing and changes nothing. *)
Lemma storage_pass_idle site w :
  denied w = ∅ →
  (∀ sp, sp ∈ storage_paths home → storage_clean (Str.lower site) sp.1 w) →
  delete_site_data_folders home site w = (Return [], w).
Proof.
  intros Hden Hclean. unfold delete_site_data_folders.
  rewrite (run_bind_return _ _ w [] w); [reflexivity|].
  apply for_each_idle. intros [d name] Hsp. specialize (Hclean _ Hsp). simpl in Hclean.
  unfold delete_in_storage. rewrite run_bind. simpl. unfold node_at.
  destruct (fs w !! d) as [[|data]|] eqn:Hd; simpl; [| |done].
  - unfold try_except. rewrite run_bind. simpl. unfold node_at. rewrite Hd.
    rewrite run_bind, iterdir_run by done.
    rewrite for_each_idle; [done|].
    intros item [Hc [n Hn]]%elem_of_iterdir. unfold delete_item.
    destruct (item_matches (Str.lower site) item) eqn:Hm; [|done].
    rewrite Hclean in Hn by done. discriminate.
  - unfold try_except. rewrite run_bind. simpl. unfold node_at. by rewrite Hd.
Qed.

End StorageIdempotence.

(** ** Idempotence *)

Lemma CHROME_PROFILE_eq home :
  CHROME_PROFILE home =
  home ++ ["AppData"; "Local"; "Google"; "Chrome"; "User Data"; "Default"].
Proof. unfold CHROME_PROFILE, path_join. by rewrite <-!app_assoc. Qed.


Lemma probe_choice paths w :
  COOKIES_DB (probe paths w).2 = COOKIES_DB w ∨ COOKIES_DB (probe paths w).2 ∈ paths.
Proof.
  induction paths as [|p paths IH]; simpl; [by left|].
  rewrite run_bind. simpl. destruct (node_at w p).
  - right. left.
  - destruct IH as [?|?]; [by left | right; by right].
Qed.

#[local] Opaque default_paths.

(** [cookies_db_known] holds of the world the module starts in, and
    [get_unique_sites], the one function that assigns [COOKIES_DB], keeps it. *)
Lemma cookies_db_known_kept home tempdir w :
  cookies_db_known home w → cookies_db_known home (get_unique_sites home tempdir w).2.
Proof.
  intros Hknown. unfold get_unique_sites. rewrite run_bind.
  assert (Hloc : cookies_db_known home (get_unique_sites_locate home w).2).
  { unfold get_unique_sites_locate. rewrite run_bind. simpl. rewrite run_bind. simpl.
    destruct (node_at w _); [done|].
    unfold cookies_db_known.
    destruct (probe_choice (default_paths home) w) as [->| ?]; [done | by right]. }
  destruct (get_unique_sites_locate home w) as [[[]|e] w1]; [|done].
  unfold cookies_db_known. by rewrite get_unique_sites_keeps_choice.
Qed.

#[local] Transparent default_paths.






(** The first pass of that run does remove something. *)
Example first_pass_removes :
  let w := ex_world
             (<[(LOCAL_STORAGE_PATH ex_home / "https_x.com_0.ldb")%path := File (Text [])]>
                (<[LOCAL_STORAGE_PATH ex_home := Dir]> (ex_profile ["x.com"; "other.org"]))) in
  let r1 := delete_cookies_for_site "x.com" w in
  let r2 := delete_site_data_folders ex_home "x.com" r1.2 in
  r1.1 = Return 1%nat ∧ r2.1 = Return ["Local Storage: https_x.com_0.ldb"].
Proof. by vm_compute. Qed.


(** * Further properties of the engine *)

(** ** What the inventory scan leaves alone *)

#[local] Instance touches_only_preorder p : PreOrder (touches_only p).
Proof.
  split.
  - by intros w q _.
  - intros w1 w2 w3 H12 H23 q Hq. by rewrite H23, H12.
Qed.

Lemma preserves_statement (R : relation World) `{!PreOrder R} {A} c (run : DbImage → Py A) :
  (∀ img, preserves R (run img)) → preserves R (statement c run).
Proof.
  intros Hrun. unfold statement. destruct (db_fault _); [|apply Hrun].
  by apply preserves_raise.
Qed.

Lemma touches_sqlite3_connect p : preserves (touches_only p) (sqlite3_connect p).
Proof.
  intros w. unfold sqlite3_connect, sql_error, raise.
  repeat case_match; simpl; try reflexivity.
  intros q Hq. simpl. by rewrite lookup_insert_ne.
Qed.

Lemma touches_unlink p : preserves (touches_only p) (unlink p).
Proof.
  intros w. unfold unlink, permission_denied, no_such_file, raise.
  repeat case_match; simpl; try reflexivity.
  intros q Hq. simpl. by rewrite lookup_delete_ne.
Qed.

Lemma NamedTemporaryFile_cases tempdir sfx w :
  let t := (tempdir / ("tmp" +:+ Str.of_nat (tmp_seq w) +:+ sfx))%path in
  (∃ e, NamedTemporaryFile tempdir sfx w = (Raise e, w)) ∨
  (fs w !! t = None ∧
   NamedTemporaryFile tempdir sfx w =
     (Return t, bump_tmp_seq (set_fs <[t := File (Text [])]> w))).
Proof.
  intros t. unfold NamedTemporaryFile, node_at, permission_denied, no_such_file, raise.
  fold t. destruct (fs w !! tempdir) as [[|?]|]; [|eauto..].
  destruct (fs w !! t); [eauto|]. destruct (is_denied w t); eauto.
Qed.

Lemma copy2_onto_file src dst d0 w :
  fs w !! dst = Some (File d0) →
  (∃ e, copy2 src dst w = (Raise e, w)) ∨
  (∃ data, copy2 src dst w = (Return tt, set_fs <[dst := File data]> w)).
Proof.
  intros Hdst. unfold copy2, node_at, permission_denied, no_such_file, raise.
  rewrite Hdst. repeat case_match; eauto.
Qed.

(** The [try] suite of [get_unique_sites] writes nowhere but at the name
    of its temporary file, which was free. *)
Lemma get_unique_sites_try_touches tempdir w :
  let t := (tempdir / ("tmp" +:+ Str.of_nat (tmp_seq w) +:+ ".db"))%path in
  touches_only t w (get_unique_sites_try tempdir w).2 ∧
  (is_Some (fs w !! t) → fs (get_unique_sites_try tempdir w).2 = fs w).
Proof.
  intros t. unfold get_unique_sites_try. rewrite run_bind.
  destruct (NamedTemporaryFile_cases tempdir ".db" w) as [[e ->]|[Hfree ->]].
  { split; [reflexivity | done]. }
  fold t. fold t in Hfree. split; [|intros [x Hx]; congruence].
  rewrite run_bind. cbn [gets]. rewrite run_bind.
  set (w1 := bump_tmp_seq (set_fs <[t := File (Text [])]> w)).
  assert (H01 : touches_only t w w1).
  { intros q Hq. simpl. by rewrite lookup_insert_ne. }
  destruct (copy2_onto_file (COOKIES_DB w1) t (Text []) w1) as [[e ->]|[data ->]];
    [apply lookup_insert_eq | done |].
  set (w2 := set_fs <[t := File data]> w1).
  assert (H12 : touches_only t w1 w2).
  { intros q Hq. simpl. by rewrite lookup_insert_ne. }
  etrans; [exact H01|]. etrans; [exact H12|].
  apply (preserves_bind (touches_only t)); [apply touches_sqlite3_connect|].
  intros conn.
  assert (Htail : ∀ A (m : Py A), preserves (touches_only t) m →
            preserves (touches_only t) (close conn;; unlink t;; m)).
  { intros A m Hm.
    apply preserves_bind; [apply _ | apply preserves_ret; apply _ |]. intros _.
    apply preserves_bind; [apply _ | apply touches_unlink |]. by intros _. }
  apply preserves_bind; [apply _ | |].
  { apply preserves_statement; [apply _|]. intros img. apply preserves_ret; apply _. }
  intros [|]; simpl.
  - apply preserves_bind; [apply _ | |].
    { apply preserves_statement; [apply _|]. intros img. destruct (db_cookies img).
      - apply preserves_ret; apply _.
      - apply preserves_raise; apply _. }
    intros hosts. apply Htail. apply preserves_ret; apply _.
  - apply Htail. apply preserves_raise; apply _.
Qed.

Lemma get_unique_sites_locate_fs home w :
  fs (get_unique_sites_locate home w).2 = fs w ∧
  tmp_seq (get_unique_sites_locate home w).2 = tmp_seq w.
Proof.
  unfold get_unique_sites_locate. rewrite run_bind. cbn [gets]. rewrite run_bind.
  unfold path_exists. cbn [gets]. destruct (node_at w _); [done|].
  generalize (default_paths home). intros paths.
  induction paths as [|p paths IH]; simpl; [done|].
  rewrite run_bind. simpl. by destruct (node_at w p).
Qed.

Lemma get_unique_sites_except_fs e w : fs (get_unique_sites_except e w).2 = fs w.
Proof.
  unfold get_unique_sites_except, raise.
  by destruct (is_operational e); [destruct (Str.contains _ _)|].
Qed.

(** The inventory scan never alters or removes a file that exists, the
    live cookie store included, whether it returns or raises: it writes
    only at the name of its temporary copy, which was free. *)
Theorem scan_keeps_existing_files home tempdir w :
  let w' := (get_unique_sites home tempdir w).2 in
  let t := (tempdir / ("tmp" +:+ Str.of_nat (tmp_seq w) +:+ ".db"))%path in
  (∀ q n, fs w !! q = Some n → fs w' !! q = Some n) ∧
  (∀ q, q ≠ t → fs w' !! q = fs w !! q).
Proof.
  intros w' t.
  assert (Hstrong : touches_only t w w' ∧ (is_Some (fs w !! t) → fs w' = fs w)).
  { subst w'. unfold get_unique_sites. rewrite run_bind.
    destruct (get_unique_sites_locate_fs home w) as [Hfs Hseq].
    destruct (get_unique_sites_locate home w) as [[[]|e] w0]; simpl in Hfs, Hseq.
    2:{ simpl. split; [intros q _; by rewrite Hfs | done]. }
    destruct (get_unique_sites_try_touches tempdir w0) as [Ht Hex].
    rewrite Hseq in Ht, Hex. fold t in Ht, Hex. rewrite Hfs in Hex.
    unfold try_except.
    destruct (get_unique_sites_try tempdir w0) as [[sites|e] w1]; cbn [snd] in *.
    - split; [|done]. intros q Hq. specialize (Ht q Hq). by rewrite Ht, Hfs.
    - split; [|by rewrite get_unique_sites_except_fs].
      intros q Hq. specialize (Ht q Hq).
      by rewrite get_unique_sites_except_fs, Ht, Hfs. }
  destruct Hstrong as [Ht Hex]. split; [|exact Ht].
  intros q n Hq. destruct (decide (q = t)) as [->|Hne].
  - rewrite Hex by eauto. done.
  - specialize (Ht q Hne). by rewrite Ht.
Qed.

Lemma scan_keeps_existing_files_witness :
  let w := ex_world (ex_faulty_profile
             {| exc_class := OperationalError_; exc_msg := "disk I/O error" |}) in
  fs (get_unique_sites ex_home ex_tmp w).2 !! COOKIES_DB w = fs w !! COOKIES_DB w.
Proof.
  intros w. destruct (scan_keeps_existing_files ex_home ex_tmp w) as [_ H].
  apply H. discriminate.
Defined.

(** ** The scan of a store without a [cookies] table *)

(** A store the engine can read but that has no [cookies] table (an empty
    file is one): the scan raises [Exception] with the text of the inner
    exception wrapped by the last [except] clause, and the temporary copy
    is gone. *)
Theorem missing_table_reported home tempdir w data :
  let temp_db := (tempdir / ("tmp" +:+ Str.of_nat (tmp_seq w) +:+ ".db"))%path in
  fs w !! COOKIES_DB w = Some (File data) →
  fs w !! tempdir = Some Dir →
  fs w !! temp_db = None →
  COOKIES_DB w ∉ denied w →
  temp_db ∉ denied w →
  db_fault (image_of data) = None →
  db_cookies (image_of data) = None →
  ∃ w', get_unique_sites home tempdir w =
          (Raise {| exc_class := Exception_;
                    exc_msg := "Failed to read cookies: Cookies table not found in database" |},
           w') ∧
        fs w' = fs w.
Proof.
  intros temp_db Hdb Hdir Hfree Hden Hdent Hfault Htable.
  pose proof (get_unique_sites_try_run tempdir w _ Hdb Hdir Hfree Hden Hdent) as Htry.
  simpl in Htry. rewrite Hfault, Htable in Htry. fold temp_db in Htry.
  eexists. split.
  - unfold get_unique_sites.
    rewrite (run_bind_return _ _ _ _ _
               (get_unique_sites_locate_present home w (mk_is_Some _ _ Hdb))).
    rewrite (run_try_raise _ _ _ _ _ Htry). reflexivity.
  - simpl. by apply temp_copy_removed.
Qed.

Lemma missing_table_reported_witness :
  let w := ex_world (<[COOKIES_DB_default ex_home := File (Text [])]> (<[ex_tmp := Dir]> ∅)) in
  ∃ w', get_unique_sites ex_home ex_tmp w =
          (Raise {| exc_class := Exception_;
                    exc_msg := "Failed to read cookies: Cookies table not found in database" |},
           w') ∧
        fs w' = fs w.
Proof.
  intros w. apply (missing_table_reported ex_home ex_tmp w (Text [])).
  - reflexivity.
  - reflexivity.
  - reflexivity.
  - apply not_elem_of_empty.
  - apply not_elem_of_empty.
  - reflexivity.
  - reflexivity.
Defined.

(** ** The inventory is a function of the set of host keys *)

Lemma inventory_of_host_set (rows1 rows2 : list Sqlite.CookieRow) :
  (∀ h, Some h ∈ Sqlite.host_key <$> rows1 ↔ Some h ∈ Sqlite.host_key <$> rows2) →
  sorted (collect_sites (remove_dups (omap Sqlite.where_host_present rows1))) =
  sorted (collect_sites (remove_dups (omap Sqlite.where_host_present rows2))).
Proof.
  intros Hset.
  destruct (inventory_spec rows1) as (S1 & N1 & M1).
  destruct (inventory_spec rows2) as (S2 & N2 & M2).
  apply (StronglySorted_unique String.le); [done..|].
  apply NoDup_Permutation; [done..|]. intros s. rewrite M1, M2.
  assert (Hrows : ∀ h, (∃ r, r ∈ rows1 ∧ Sqlite.host_key r = Some h) ↔
                       (∃ r, r ∈ rows2 ∧ Sqlite.host_key r = Some h)).
  { intros h. specialize (Hset h). rewrite !list_elem_of_fmap in Hset.
    split; intros (r & Hr & Hk).
    - destruct (proj1 Hset) as (r' & ? & ?); [by exists r|]. by exists r'.
    - destruct (proj2 Hset) as (r' & ? & ?); [by exists r|]. by exists r'. }
  split; intros (Hne & r & h & Hr & Hk & Hs); (split; [done|]).
  - destruct (proj1 (Hrows h)) as (r' & ? & ?); [by exists r|]. by exists r', h.
  - destruct (proj2 (Hrows h)) as (r' & ? & ?); [by exists r|]. by exists r', h.
Qed.

(** Two healthy stores that hold the same set of host keys give the same
    inventory: neither the order of the rows, nor how many rows a host
    has, nor rows without a host key matter. *)
Theorem inventory_depends_on_host_set home tempdir w1 w2 rows1 rows2 :
  let temp1 := (tempdir / ("tmp" +:+ Str.of_nat (tmp_seq w1) +:+ ".db"))%path in
  let temp2 := (tempdir / ("tmp" +:+ Str.of_nat (tmp_seq w2) +:+ ".db"))%path in
  fs w1 !! COOKIES_DB w1 = Some (cookie_store rows1) →
  fs w2 !! COOKIES_DB w2 = Some (cookie_store rows2) →
  fs w1 !! tempdir = Some Dir → fs w2 !! tempdir = Some Dir →
  fs w1 !! temp1 = None → fs w2 !! temp2 = None →
  denied w1 = ∅ → denied w2 = ∅ →
  (∀ h, Some h ∈ Sqlite.host_key <$> rows1 ↔ Some h ∈ Sqlite.host_key <$> rows2) →
  ∃ sites, (get_unique_sites home tempdir w1).1 = Return sites ∧
           (get_unique_sites home tempdir w2).1 = Return sites.
Proof.
  intros temp1 temp2 Hdb1 Hdb2 Hdir1 Hdir2 Hfree1 Hfree2 Hden1 Hden2 Hset.
  assert (Hrun : ∀ w rows,
            fs w !! COOKIES_DB w = Some (cookie_store rows) →
            fs w !! tempdir = Some Dir →
            fs w !! (tempdir / ("tmp" +:+ Str.of_nat (tmp_seq w) +:+ ".db"))%path = None →
            denied w = ∅ →
            (get_unique_sites home tempdir w).1 =
              Return (sorted (collect_sites
                        (remove_dups (omap Sqlite.where_host_present rows))))).
  { intros w rows Hdb Hdir Hfree Hden.
    pose proof (get_unique_sites_try_run tempdir w _ Hdb Hdir Hfree) as Htry.
    simpl in Htry. unfold get_unique_sites.
    rewrite (run_bind_return _ _ _ _ _
               (get_unique_sites_locate_present home w (mk_is_Some _ _ Hdb))).
    erewrite run_try_return; [reflexivity|].
    apply Htry; rewrite Hden; apply not_elem_of_empty. }
  eexists. split; [by apply Hrun|].
  rewrite (Hrun w2 rows2) by done. f_equal. symmetry. by apply inventory_of_host_set.
Qed.

Lemma inventory_depends_on_host_set_witness :
  let w1 := ex_world (ex_profile ["b.org"; ".a.com"; "a.com"]) in
  let w2 := ex_world (ex_profile [".a.com"; "b.org"; "b.org"; "a.com"; ".a.com"]) in
  ∃ sites, (get_unique_sites ex_home ex_tmp w1).1 = Return sites ∧
           (get_unique_sites ex_home ex_tmp w2).1 = Return sites.
Proof.
  intros w1 w2.
  apply (inventory_depends_on_host_set ex_home ex_tmp w1 w2
           (ex_row <$> ["b.org"; ".a.com"; "a.com"])
           (ex_row <$> [".a.com"; "b.org"; "b.org"; "a.com"; ".a.com"]));
    try reflexivity.
  intros h. simpl. rewrite !elem_of_cons, !elem_of_nil. tauto.
Defined.

(** ** What the cookie deletion leaves alone *)

Lemma sqlite3_connect_path p w c w1 :
  sqlite3_connect p w = (Return c, w1) → conn_path c = p.
Proof.
  unfold sqlite3_connect, sql_error, raise.
  repeat case_match; intros [= <- _]; done.
Qed.

Lemma delete_patterns_cases pats st w :
  match for_each delete_pattern st pats w with
  | (Return (n, c), w') => w' = w ∧ conn_path c = conn_path st.2
  | (Raise e, w') => w' = w
  end.
Proof.
  revert st. induction pats as [|pat pats IH]; intros [n c]; simpl; [done|].
  rewrite run_bind. unfold delete_pattern at 1. rewrite run_bind.
  unfold delete_where_like, statement, sql_error, raise. simpl.
  destruct (db_fault (conn_img c)); [done|].
  destruct (db_cookies (conn_img c)); [|done]. simpl.
  match goal with
  | |- context [for_each delete_pattern ?st pats w] => specialize (IH st)
  end.
  by destruct (for_each delete_pattern _ pats w) as [[[n' c']|e] w'].
Qed.

(** Nothing in the file system but the cookie store file is written by a
    cookie deletion, on any outcome; the access rights, the global
    [COOKIES_DB] and the clock are as they were. *)
Theorem cookie_deletion_touches_only_store site w :
  let w' := (delete_cookies_for_site site w).2 in
  (∀ q, q ≠ COOKIES_DB w → fs w' !! q = fs w !! q) ∧ ctx_frame w w'.
Proof.
  intros w'. subst w'. unfold delete_cookies_for_site, try_except.
  unfold delete_cookies_try. rewrite run_bind. cbn [gets]. rewrite run_bind.
  pose proof (touches_sqlite3_connect (COOKIES_DB w) w) as Ht.
  pose proof (env_frame_ctx _ _ (env_sqlite3_connect (COOKIES_DB w) w)) as Hc.
  destruct (sqlite3_connect (COOKIES_DB w) w) as [[conn|e] w1] eqn:Hconn;
    cbn [snd] in Ht, Hc.
  - apply sqlite3_connect_path in Hconn. rewrite run_bind.
    pose proof (delete_patterns_cases (patterns site) (0%nat, conn) w1) as Hloop.
    destruct (for_each delete_pattern _ (patterns site) w1) as [[[n c]|e] w1'];
      [destruct Hloop as [-> Hp] | subst w1'].
    2:{ destruct (delete_cookies_except_run site e w1) as (w2 & -> & Hfs & Hctx & _).
        cbn [snd]. split; [|by etrans]. intros q Hq. rewrite Hfs. by apply Ht. }
    cbn [snd] in Hp. rewrite run_bind. unfold commit, modify. rewrite run_bind.
    unfold close. cbn [mret Py_ret]. rewrite run_bind, log_deletion_run. cbn [snd].
    rewrite Hp, Hconn. split.
    + intros q Hq.
      destruct (log_ok _); simpl; rewrite lookup_insert_ne by done; by apply Ht.
    + etrans; [exact Hc|].
      by destruct (log_ok w1) eqn:Hok; unfold ctx_frame; simpl; rewrite ?Hok.
  - destruct (delete_cookies_except_run site e w1) as (w2 & -> & Hfs & Hctx & _).
    cbn [snd]. split; [|by etrans]. intros q Hq. rewrite Hfs. by apply Ht.
Qed.

Lemma cookie_deletion_touches_only_store_witness :
  let w := ex_world (ex_profile ["x.com"]) in
  fs (delete_cookies_for_site "x.com" w).2 !! ex_tmp = fs w !! ex_tmp.
Proof.
  intros w. destruct (cookie_deletion_touches_only_store "x.com" w) as [H _].
  apply H. discriminate.
Defined.

(** ** Which rows a cookie deletion removes *)

Lemma like_percent_suffix pat s1 s2 :
  Sqlite.like pat s2 = true → Sqlite.like (String "%"%char pat) (s1 +:+ s2) = true.
Proof.
  intros H. induction s1 as [|c s1 IH]; [by apply like_percent_here|].
  change (String c s1 +:+ s2) with (String c (s1 +:+ s2)).
  rewrite like_cons, bool_decide_eq_true_2 by done. rewrite IH. apply orb_true_r.
Qed.

(** The cookies of every subdomain go: a row whose host key ends, up to
    ASCII case, in a dot followed by the site is deleted. *)
Theorem subdomain_cookies_deleted site w rows r sub tail :
  fs w !! COOKIES_DB w = Some (cookie_store rows) →
  COOKIES_DB w ∉ denied w →
  r ∈ rows →
  Sqlite.host_key r = Some (sub +:+ tail) →
  Str.lower_ascii tail = Str.lower_ascii ("." +:+ site) →
  ∃ n w' rows',
    delete_cookies_for_site site w = (Return n, w') ∧
    fs w' !! COOKIES_DB w = Some (cookie_store rows') ∧
    (r ∉ rows') ∧ 0 < n.
Proof.
  intros Hdb Hden Hr Hk Htail.
  destruct (delete_cookies_healthy site w rows Hdb Hden) as (w' & Hrun & Hfs & _).
  assert (Hm : row_matches (patterns site) r = true).
  { apply row_matches_true. exists ("%." +:+ site). split.
    - unfold patterns. do 6 right. left.
    - unfold Sqlite.where_like. rewrite Hk.
      apply (like_percent_suffix ("." +:+ site)). by apply like_lower. }
  eexists _, w', _. split_and!; [exact Hrun | by rewrite Hfs, lookup_insert_eq | |].
  - intros [Hno _]%list_elem_of_filter. congruence.
  - rewrite rowcounts_sum.
    assert (Hin : r ∈ filter (λ r, row_matches (patterns site) r = true) rows)
      by (by apply list_elem_of_filter).
    revert Hin. generalize (filter (λ r, row_matches (patterns site) r = true) rows).
    intros [|x l] Hin; [by apply elem_of_nil in Hin | simpl; lia].
Qed.

Lemma subdomain_cookies_deleted_witness :
  let w := ex_world (ex_profile ["Shop.EU.x.com"; "other.org"]) in
  ∃ n w' rows',
    delete_cookies_for_site "x.com" w = (Return n, w') ∧
    fs w' !! COOKIES_DB w = Some (cookie_store rows') ∧
    (ex_row "Shop.EU.x.com" ∉ rows') ∧ 0 < n.
Proof.
  intros w.
  apply (subdomain_cookies_deleted "x.com" w (ex_row <$> ["Shop.EU.x.com"; "other.org"])
           (ex_row "Shop.EU.x.com") "Shop.EU" ".x.com").
  - reflexivity.
  - apply not_elem_of_empty.
  - left.
  - reflexivity.
  - reflexivity.
Defined.

(** A cookie deletion removes nothing else: the rows left are the rows
    that match none of the nine patterns, in the order the table had
    them; a row without a host key always stays. *)
Theorem unmatched_rows_kept site w rows :
  fs w !! COOKIES_DB w = Some (cookie_store rows) →
  COOKIES_DB w ∉ denied w →
  ∃ n w' rows',
    delete_cookies_for_site site w = (Return n, w') ∧
    fs w' !! COOKIES_DB w = Some (cookie_store rows') ∧
    rows' `sublist_of` rows ∧
    (∀ r, r ∈ rows → Sqlite.host_key r = None → r ∈ rows') ∧
    (∀ r h, r ∈ rows → Sqlite.host_key r = Some h →
            (∀ pat, pat ∈ patterns site → Sqlite.like pat h = false) → r ∈ rows').
Proof.
  intros Hdb Hden.
  destruct (delete_cookies_healthy site w rows Hdb Hden) as (w' & Hrun & Hfs & _).
  eexists _, w', _. split_and!; [exact Hrun | by rewrite Hfs, lookup_insert_eq | ..].
  - apply sublist_filter.
  - intros r Hr Hk. apply list_elem_of_filter. split; [|done].
    rewrite row_matches_host, Hk. done.
  - intros r h Hr Hk Hno. apply list_elem_of_filter. split; [|done].
    destruct (row_matches (patterns site) r) eqn:Hm; [|done].
    apply row_matches_true in Hm as (pat & Hpat & Hlike).
    unfold Sqlite.where_like in Hlike. rewrite Hk, (Hno pat Hpat) in Hlike. done.
Qed.

Lemma unmatched_rows_kept_witness :
  let w := ex_world (ex_profile ["x.com"; "evil-x.com"]) in
  ∃ n w' rows',
    delete_cookies_for_site "x.com" w = (Return n, w') ∧
    fs w' !! COOKIES_DB w = Some (cookie_store rows') ∧
    rows' `sublist_of` (ex_row <$> ["x.com"; "evil-x.com"]) ∧
    (∀ r, r ∈ ex_row <$> ["x.com"; "evil-x.com"] → Sqlite.host_key r = None → r ∈ rows') ∧
    (∀ r h, r ∈ ex_row <$> ["x.com"; "evil-x.com"] → Sqlite.host_key r = Some h →
            (∀ pat, pat ∈ patterns "x.com" → Sqlite.like pat h = false) → r ∈ rows').
Proof.
  intros w. apply (unmatched_rows_kept "x.com" w).
  - reflexivity.
  - apply not_elem_of_empty.
Defined.

(** Deleting two sites one after the other leaves the same table whichever
    goes first. *)
Theorem cookie_deletion_order_irrelevant s1 s2 w rows :
  fs w !! COOKIES_DB w = Some (cookie_store rows) →
  denied w = ∅ →
  ∃ rows',
    fs (delete_cookies_for_site s2 (delete_cookies_for_site s1 w).2).2 !! COOKIES_DB w
      = Some (cookie_store rows') ∧
    fs (delete_cookies_for_site s1 (delete_cookies_for_site s2 w).2).2 !! COOKIES_DB w
      = Some (cookie_store rows').
Proof.
  intros Hdb Hden.
  assert (Htwice : ∀ a b,
    fs (delete_cookies_for_site b (delete_cookies_for_site a w).2).2 !! COOKIES_DB w =
    Some (cookie_store
            (filter (λ r, row_matches (patterns b) r = false)
               (filter (λ r, row_matches (patterns a) r = false) rows)))).
  { intros a b.
    destruct (delete_cookies_healthy a w rows Hdb) as (wa & Ha & Hfa & (Hda & Hca & _) & _).
    { rewrite Hden. apply not_elem_of_empty. }
    rewrite Ha. cbn [snd].
    destruct (delete_cookies_healthy b wa
                (filter (λ r, row_matches (patterns a) r = false) rows))
      as (wb & Hb & Hfb & _).
    { by rewrite Hca, Hfa, lookup_insert_eq. }
    { rewrite Hda, Hden. apply not_elem_of_empty. }
    rewrite Hb. cbn [snd]. by rewrite Hfb, Hca, lookup_insert_eq. }
  eexists. split; [apply Htwice|]. rewrite Htwice. do 2 f_equal.
  rewrite !list_filter_filter. apply list_filter_iff. tauto.
Qed.

Lemma cookie_deletion_order_irrelevant_witness :
  let w := ex_world (ex_profile ["x.com"; "www.y.org"; "z.net"]) in
  ∃ rows',
    fs (delete_cookies_for_site "y.org" (delete_cookies_for_site "x.com" w).2).2
       !! COOKIES_DB w = Some (cookie_store rows') ∧
    fs (delete_cookies_for_site "x.com" (delete_cookies_for_site "y.org" w).2).2
       !! COOKIES_DB w = Some (cookie_store rows').
Proof.
  intros w.
  apply (cookie_deletion_order_irrelevant "x.com" "y.org" w
           (ex_row <$> ["x.com"; "www.y.org"; "z.net"])); reflexivity.
Defined.

(** ** The storage pass, whatever the operating system refuses *)

Section StorageAnyWorld.

Variable home : Path.

Lemma storage_path_tail sp :
  sp ∈ storage_paths home →
  ∃ stail, sp.1 = CHROME_PROFILE home ++ stail ∧
           stail ∈ [["Local Storage"; "leveldb"]; ["Session Storage"; "leveldb"];
                    ["Indexed DB"]; ["Service Worker"; "CacheStorage"];
                    ["Service Worker"; "ScriptCache"]].
Proof.
  intros Hsp. unfold storage_paths in Hsp.
  repeat (apply elem_of_cons in Hsp as [->|Hsp]); [..|by apply elem_of_nil in Hsp];
    simpl; eexists; (split; [unfold LOCAL_STORAGE_PATH, SESSION_STORAGE_PATH,
      INDEXEDDB_PATH, CACHESTORAGE_PATH, SCRIPTCACHE_PATH, path_join;
      rewrite <-?app_assoc; reflexivity|]); simpl;
    repeat first [apply list_elem_of_here | apply list_elem_of_further].
Qed.

(** Two entries of storage paths that lie on one path are the same entry. *)
Lemma storage_entries_disjoint sp sp' item item' q :
  sp ∈ storage_paths home → sp' ∈ storage_paths home →
  is_child sp.1 item = true → is_child sp'.1 item' = true →
  item `prefix_of` q → item' `prefix_of` q → item = item'.
Proof.
  intros (t & Ht & Hin)%storage_path_tail (t' & Ht' & Hin')%storage_path_tail.
  intros [c ->]%is_child_inv [c' ->]%is_child_inv [k ->] [k' Hk].
  unfold path_join in *. rewrite Ht, Ht' in *. rewrite <-!app_assoc in Hk.
  apply app_inv_head in Hk.
  repeat (apply elem_of_cons in Hin as [->|Hin]); [..|by apply elem_of_nil in Hin];
    (repeat (apply elem_of_cons in Hin' as [->|Hin']); [..|by apply elem_of_nil in Hin']);
    simpl in Hk; by simplify_eq.
Qed.

#[local] Instance site_step_preorder sl : PreOrder (site_step home sl).
Proof.
  split.
  - intros w. split; [by left | done].
  - intros w1 w2 w3 [H12 F12] [H23 F23]. split; [|by etrans].
    intros q. destruct (H23 q) as [E23|[N3 Hu]]; [|by right].
    destruct (H12 q) as [E12|[N2 Hu]]; [left | right].
    + by rewrite E23.
    + split; [by rewrite E23 | done].
Qed.

Lemma site_step_kept sl w w' q :
  site_step home sl w w' → is_Some (fs w' !! q) → is_Some (fs w !! q).
Proof.
  intros [H _] Hq. destruct (H q) as [E|[E _]]; rewrite E in Hq; [done|].
  by destruct Hq.
Qed.

Lemma site_step_print sl s w : site_step home sl w (add_stdout s w).
Proof. split; [by left | done]. Qed.

(** One turn of the inner loop. *)
Lemma delete_item_any sl name acc item sp w :
  sp ∈ storage_paths home → is_child sp.1 item = true →
  ∃ acc' w',
    delete_item sl name acc item w = (Return acc', w') ∧
    site_step home sl w w' ∧
    (acc' = acc ∨
     (acc' = acc ++ [name +:+ ": " +:+ path_name item] ∧
      item_matches sl item = true ∧ is_Some (fs w !! item))).
Proof.
  intros Hsp Hchild. unfold delete_item.
  destruct (item_matches sl item) eqn:Hm.
  2:{ exists acc, w. split_and!; [done | reflexivity | by left]. }
  assert (Hu : ∀ q, item `prefix_of` q → under_match home sl q).
  { intros q Hq. by exists sp, item. }
  unfold try_except. rewrite run_bind. simpl. unfold node_at.
  destruct (fs w !! item) as [[|d]|] eqn:Hitem.
  - rewrite run_bind. simpl. eexists _, _. split_and!; [reflexivity | | right; eauto].
    split; [|done]. intros q. simpl. rewrite map_lookup_filter.
    destruct (fs w !! q) as [n|] eqn:Hq; simpl; [|by left].
    destruct (decide (item `prefix_of` q ∧ is_blocked w q = false)) as [Hp|Hp].
    + right. split; [|apply Hu, Hp]. rewrite option_guard_False; [done|]. simpl. tauto.
    + left. rewrite option_guard_True; [done|]. simpl. tauto.
  - rewrite run_bind. unfold unlink, node_at. rewrite Hitem.
    destruct (is_denied w item); simpl.
    + rewrite run_bind. simpl. eexists _, _.
      split_and!; [reflexivity | apply site_step_print | by left].
    + eexists _, _. split_and!; [reflexivity | | right; eauto].
      split; [|done]. intros q. simpl.
      destruct (decide (q = item)) as [->|Hq].
      * right. rewrite lookup_delete_eq. split; [done | by apply Hu].
      * left. by rewrite lookup_delete_ne.
  - rewrite run_bind. unfold unlink, node_at. rewrite Hitem.
    destruct (is_denied w item); simpl; rewrite run_bind; simpl;
      eexists _, _; (split_and!; [reflexivity | apply site_step_print | by left]).
Qed.

(** A loop that always returns, stays within [R] of where it started and
    keeps a property of what it has collected. *)
Lemma for_each_from {A B} (R : relation World) `{!PreOrder R} (J : B → Prop)
    (f : B → A → Py B) (l : list A) (w0 : World) :
  (∀ acc x w, x ∈ l → R w0 w → J acc →
     ∃ acc' w', f acc x w = (Return acc', w') ∧ R w w' ∧ J acc') →
  ∀ acc w, R w0 w → J acc →
    ∃ acc' w', for_each f acc l w = (Return acc', w') ∧ R w w' ∧ J acc'.
Proof.
  induction l as [|x l IH]; intros Hf acc w Hw HJ; simpl.
  - exists acc, w. by split_and!.
  - destruct (Hf acc x w) as (acc1 & w1 & Hrun1 & HR1 & HJ1); [left | done..|].
    destruct (IH (λ acc x w Hx, Hf acc x w (list_elem_of_further _ _ _ Hx)) acc1 w1)
      as (acc2 & w2 & Hrun2 & HR2 & HJ2); [by etrans | done |].
    exists acc2, w2. split_and!; [|by etrans | done].
    by rewrite (run_bind_return _ _ _ _ _ Hrun1).
Qed.

Lemma is_record_intro sl w0 w sp item :
  sp ∈ storage_paths home → is_child sp.1 item = true →
  item_matches sl item = true → site_step home sl w0 w → is_Some (fs w !! item) →
  is_record home sl w0 (sp.2 +:+ ": " +:+ path_name item).
Proof.
  intros ??? Hs Hi. exists sp, item. split_and!; [done..| |done].
  by eapply site_step_kept.
Qed.

Lemma delete_in_storage_any site sl sp w0 acc w :
  sp ∈ storage_paths home → site_step home sl w0 w → Forall (is_record home sl w0) acc →
  ∃ acc' w',
    delete_in_storage site sl acc sp w = (Return acc', w') ∧
    site_step home sl w w' ∧ Forall (is_record home sl w0) acc'.
Proof.
  intros Hsp Hw0 Hacc. unfold delete_in_storage. destruct sp as [d name].
  rewrite run_bind. simpl. unfold node_at.
  destruct (fs w !! d) as [[|data]|] eqn:Hd; simpl.
  - unfold try_except. rewrite run_bind. simpl. unfold node_at. rewrite Hd.
    rewrite run_bind. unfold iterdir, node_at. rewrite Hd.
    destruct (is_denied w d); simpl.
    { rewrite run_bind. simpl. eexists _, _.
      split_and!; [reflexivity | apply site_step_print | done]. }
    destruct (for_each_from (site_step home sl) (Forall (is_record home sl w0))
                (delete_item sl name)
                (filter (λ q, is_child d q = true) (map_to_list (fs w)).*1) w0)
      with (acc := acc) (w := w) as (acc' & w' & Hrun & Hstep & HJ); [|done..|].
    + intros acc0 item w1 [Hc _]%elem_of_iterdir Hw1 HJ0.
      destruct (delete_item_any sl name acc0 item (d, name) w1)
        as (acc1 & w2 & Hrun & Hstep & Hacc1); [done | done |].
      exists acc1, w2. split_and!; [done..|].
      destruct Hacc1 as [->|(-> & Hm & Hex)]; [done|].
      apply Forall_app. split; [done|]. apply Forall_singleton.
      apply (is_record_intro sl w0 w1 (d, name) item); [done..].
    + rewrite Hrun. by exists acc', w'.
  - unfold try_except. rewrite run_bind. simpl. unfold node_at. rewrite Hd.
    exists acc, w. by split_and!.
  - exists acc, w. by split_and!.
Qed.

Lemma storage_pass_general site w :
  ∃ items w',
    delete_site_data_folders home site w = (Return items, w') ∧
    site_step home (Str.lower site) w w' ∧
    Forall (is_record home (Str.lower site) w) items.
Proof.
  destruct (for_each_from (site_step home (Str.lower site))
              (Forall (is_record home (Str.lower site) w))
              (delete_in_storage site (Str.lower site)) (storage_paths home) w)
    with (acc := @nil string) (w := w) as (items & w1 & Hrun & Hstep & HJ);
    [|done..|].
  - intros acc sp w1 Hsp Hw1 HJ. by apply delete_in_storage_any.
  - unfold delete_site_data_folders. rewrite (run_bind_return _ _ _ _ _ Hrun).
    destruct items as [|i items]; [by exists [], w1|].
    rewrite run_bind, log_deletion_run. simpl.
    eexists _, _. split_and!; [reflexivity | | done].
    etrans; [done|].
    destruct (log_ok w1) eqn:Hok; (split; [by left | unfold ctx_frame; simpl; by rewrite ?Hok]).
Qed.

End StorageAnyWorld.



(** An entry of a storage path whose name does not contain the site, and
    everything beneath it, is as it was after a storage pass for that
    site: the substring test is the only thing that selects an entry. *)
Theorem unrelated_storage_entries_survive home site w sp item q :
  sp ∈ storage_paths home →
  is_child sp.1 item = true →
  item_matches (Str.lower site) item = false →
  item `prefix_of` q →
  fs (delete_site_data_folders home site w).2 !! q = fs w !! q.
Proof.
  intros Hsp Hc Hm Hq.
  destruct (storage_pass_general home site w) as (items & w' & Hrun & [Hfs _] & _).
  rewrite Hrun. cbn [snd]. destruct (Hfs q) as [E|[_ Hu]]; [done|].
  destruct Hu as (sp' & item' & Hsp' & Hc' & Hm' & Hq').
  rewrite (storage_entries_disjoint home sp sp' item item' q) in Hm by done.
  congruence.
Qed.

Lemma unrelated_storage_entries_survive_witness :
  let w := ex_world ex_storage_profile in
  let item := (LOCAL_STORAGE_PATH ex_home / "https_other.org_0.ldb")%path in
  fs (delete_site_data_folders ex_home "x.com" w).2 !! item = fs w !! item.
Proof.
  intros w item.
  apply (unrelated_storage_entries_survive ex_home "x.com" w
           (LOCAL_STORAGE_PATH ex_home, "Local Storage") item item).
  - left.
  - reflexivity.
  - reflexivity.
  - reflexivity.
Defined.

(** Every record a storage pass returns has the form
    [<storage name>: <entry name>] for an entry of that storage path which
    existed when the pass began and whose lowercased name contains the
    lowercased site. *)
Theorem storage_records_name_matching_entries home site w rec :
  rec ∈ (match (delete_site_data_folders home site w).1 with
         | Return items => items
         | Raise _ => []
         end) →
  ∃ sp item,
    sp ∈ storage_paths home ∧ is_child sp.1 item = true ∧
    Str.contains (Str.lower site) (Str.lower (path_name item)) = true ∧
    is_Some (fs w !! item) ∧
    rec = sp.2 +:+ ": " +:+ path_name item.
Proof.
  destruct (storage_pass_general home site w) as (items & w' & Hrun & _ & Hrec).
  rewrite Hrun. cbn [fst]. intros Hin.
  rewrite Forall_forall in Hrec. exact (Hrec rec Hin).
Qed.

Lemma storage_records_name_matching_entries_witness :
  let w := ex_world ex_storage_profile in
  ∃ sp item,
    sp ∈ storage_paths ex_home ∧ is_child sp.1 item = true ∧
    Str.contains (Str.lower "x.com") (Str.lower (path_name item)) = true ∧
    is_Some (fs w !! item) ∧
    "Local Storage: https_x.com_0.ldb" = sp.2 +:+ ": " +:+ path_name item.
Proof.
  intros w.
  apply (storage_records_name_matching_entries ex_home "x.com" w
           "Local Storage: https_x.com_0.ldb").
  vm_compute. left.
Defined.

(** ** The storage pass when nothing is refused *)



#[local] Instance local_step_preorder d sl : PreOrder (local_step d sl).
Proof.
  split.
  - intros w. split; [by left | done].
  - intros w1 w2 w3 [H12 F12] [H23 F23]. split; [|by etrans].
    intros q. destruct (H23 q) as [E23|[N3 Hu]]; [|by right].
    destruct (H12 q) as [E12|[N2 Hu]]; [left | right].
    + by rewrite E23.
    + split; [by rewrite E23 | done].
Qed.







Section StorageExact.

Variable home : Path.





End StorageExact.



(** The match follows [str.lower()] beyond ASCII: the pass for [É.com]
    removes the entry named for [é.com]. *)
Example capital_site_matches_small_entry :
  let item := (LOCAL_STORAGE_PATH ex_home / ex_small_entry)%path in
  let w := ex_world (<[item := File (Text [])]> (<[LOCAL_STORAGE_PATH ex_home := Dir]> ∅)) in
  let r := delete_site_data_folders ex_home ex_capital_site w in
  Str.lower ex_capital_site = String (ascii_of_nat 233) ".com" ∧
  item_matches (Str.lower ex_capital_site) item = true ∧
  r.1 = Return ["Local Storage: " +:+ ex_small_entry] ∧
  fs r.2 !! item = None.
Proof. by vm_compute. Qed.

(** ** What a backup writes *)

Section BackupWrites.

Variable d : Path.

#[local] Instance backup_writes_preorder : PreOrder (backup_writes d).
Proof.
  split.
  - intros w. split; [by left | done].
  - intros w1 w2 w3 [H12 F12] [H23 F23]. split; [|by etrans].
    intros q.
    destruct (H12 q) as [E12|[(N1 & D2 & Hp)|(Hp & S2)]],
             (H23 q) as [E23|[(N2 & D3 & Hp3)|(Hp3 & S3)]].
    + left. by rewrite E23.
    + right; left. split_and!; [by rewrite <-E12 | done..].
    + right; right. done.
    + right; left. split_and!; [done | by rewrite E23 | done].
    + rewrite D2 in N2. discriminate.
    + right; right. done.
    + right; right. by rewrite E23.
    + rewrite N2 in S2. by destruct S2.
    + right; right. done.
Qed.

Lemma backup_writes_fs w f :
  (∀ q, f (fs w) !! q = fs w !! q ∨
        (fs w !! q = None ∧ f (fs w) !! q = Some Dir ∧ q `prefix_of` d) ∨
        (d `prefix_of` q ∧ is_Some (f (fs w) !! q))) →
  backup_writes d w (set_fs f w).
Proof. intros H. split; [exact H | done]. Qed.

Lemma backup_writes_insert w p n :
  d `prefix_of` p → backup_writes d w (set_fs <[p := n]> w).
Proof.
  intros Hp. apply backup_writes_fs. intros q.
  destruct (decide (q = p)) as [->|Hq].
  - right; right. by rewrite lookup_insert_eq.
  - left. by rewrite lookup_insert_ne.
Qed.

Lemma bw_mkdir_one q :
  q `prefix_of` d ∨ d `prefix_of` q → preserves (backup_writes d) (mkdir_one q).
Proof.
  intros Hq w. unfold mkdir_one, node_at, permission_denied, raise.
  destruct (fs w !! q) as [[|data]|] eqn:Hn; simpl; [reflexivity..|].
  destruct (is_denied w q); simpl; [reflexivity|].
  apply backup_writes_fs. intros q'.
  destruct (decide (q' = q)) as [->|Hne]; [|left; by rewrite lookup_insert_ne].
  rewrite lookup_insert_eq. destruct Hq as [Hq|Hq]; [right; left | right; right]; eauto.
Qed.

Lemma take_app_prefix (k : Path) n :
  take n (d ++ k) `prefix_of` d ∨ d `prefix_of` take n (d ++ k).
Proof.
  destruct (decide (n ≤ length d)%nat) as [Hn|Hn].
  - left. rewrite take_app_le by done. apply prefix_take.
  - right. rewrite take_app_ge by lia. by eexists.
Qed.

Lemma bw_mkdir_parents (k : Path) : preserves (backup_writes d) (mkdir_parents (d ++ k)).
Proof.
  unfold mkdir_parents. apply preserves_for_each; [apply _|].
  intros _ n _. apply bw_mkdir_one, take_app_prefix.
Qed.

Lemma bw_copy2 src dst : d `prefix_of` dst → preserves (backup_writes d) (copy2 src dst).
Proof.
  intros Hd w. unfold copy2, node_at, permission_denied, no_such_file, raise.
  destruct (is_denied w src); simpl; [reflexivity|].
  destruct (fs w !! src) as [[|data]|]; simpl; [reflexivity| |reflexivity].
  set (target := match fs w !! dst with Some Dir => (dst / path_name src)%path | _ => dst end).
  assert (Ht : d `prefix_of` target).
  { unfold target. destruct (fs w !! dst) as [[|?]|]; [|done..].
    etrans; [done|]. by eexists. }
  destruct (is_denied w target); simpl; [reflexivity|].
  destruct (fs w !! target) as [[|?]|], (fs w !! path_parent target) as [[|?]|];
    simpl; try reflexivity; by apply backup_writes_insert.
Qed.

Lemma bw_copy_entries src dst :
  d `prefix_of` dst → preserves (backup_writes d) (copy_entries src dst).
Proof.
  intros Hd w. unfold copy_entries.
  set (copied := kmap _ _).
  assert (Hstep : backup_writes d w (set_fs (λ m, copied ∪ m) w)).
  { apply backup_writes_fs. intros q. destruct (copied !! q) as [n|] eqn:Hq.
    - right; right. split; [|rewrite lookup_union_l'; by eauto].
      unfold copied, kmap in Hq. apply elem_of_list_to_map_2 in Hq.
      apply list_elem_of_fmap in Hq as ([q0 n0] & [= -> ->] & _).
      etrans; [done|]. by eexists.
    - left. by rewrite lookup_union_r. }
  destruct (bool_decide _); exact Hstep.
Qed.

Lemma bw_copytree src (k : Path) :
  preserves (backup_writes d) (copytree src (d ++ k)).
Proof.
  unfold copytree. apply preserves_bind; [apply _ | apply bw_mkdir_parents |].
  intros _. apply bw_copy_entries. by eexists.
Qed.

Lemma bw_write_text p lines :
  d `prefix_of` p → preserves (backup_writes d) (write_text p lines).
Proof.
  intros Hd w. unfold write_text, node_at, permission_denied, no_such_file, raise.
  destruct (is_denied w p); simpl; [reflexivity|].
  destruct (fs w !! p) as [[|?]|], (fs w !! path_parent p) as [[|?]|];
    simpl; try reflexivity; by apply backup_writes_insert.
Qed.

Lemma bw_backup_one count file_path :
  preserves (backup_writes d) (backup_one d count file_path).
Proof.
  unfold backup_one. destruct file_path as [file_path|]; [|apply preserves_ret; apply _].
  apply preserves_bind; [apply _ | apply preserves_gets; apply _ |].
  intros [|]; [|apply preserves_ret; apply _].
  apply preserves_bind; [apply _ | apply preserves_gets; apply _ |].
  intros [|].
  - apply preserves_bind; [apply _ | apply bw_copy2; by eexists |].
    intros _. apply preserves_ret; apply _.
  - apply preserves_bind; [apply _ | apply preserves_gets; apply _ |].
    intros [|]; [|apply preserves_ret; apply _].
    apply preserves_bind; [apply _ | apply bw_copytree |].
    intros _. apply preserves_ret; apply _.
Qed.

End BackupWrites.

Lemma create_backup_writes home w :
  ∃ r w',
    create_backup home w = (Return r, w') ∧
    backup_writes (LOG_DIR home / ("backup_" +:+ strftime_file (now w)))%path w w'.
Proof.
  set (d := (LOG_DIR home / ("backup_" +:+ strftime_file (now w)))%path).
  pose proof (backup_writes_preorder d) as Hpre.
  assert (Htry : backup_writes d w (create_backup_try home w).2).
  { unfold create_backup_try. rewrite run_bind. unfold gets at 1. cbv beta iota. fold d.
    apply preserves_bind;
      [done | pose proof (bw_mkdir_parents d []) as H; by rewrite app_nil_r in H |].
    intros _. apply preserves_bind; [done | by apply preserves_gets |].
    intros cookies_db. apply preserves_bind; [done | by apply preserves_gets |].
    intros ls. apply preserves_bind; [done | by apply preserves_gets |].
    intros ss. apply preserves_bind; [done | |].
    { apply preserves_for_each; [done|]. intros ???. by apply bw_backup_one. }
    intros n. apply preserves_bind; [done | by apply preserves_gets |].
    intros t'. apply preserves_bind; [done | apply bw_write_text; by eexists |].
    intros _. by apply preserves_ret. }
  unfold create_backup, try_except.
  destruct (create_backup_try home w) as [[r|e] w1]; [by exists r, w1|].
  rewrite run_bind. simpl. eexists _, _. split; [reflexivity|].
  etrans; [exact Htry|]. split; [by left | done].
Qed.

(** [create_backup] always returns, and what it does to the file system
    stays with the backup directory: every entry that existed outside it
    is unchanged, nothing that existed is removed, and whatever is new
    lies at or beneath the backup directory or is one of its ancestors. *)
Theorem backup_writes_only_backup_dir home w :
  let d := (LOG_DIR home / ("backup_" +:+ strftime_file (now w)))%path in
  ∃ r w',
    create_backup home w = (Return r, w') ∧
    (∀ q n, fs w !! q = Some n → ¬ d `prefix_of` q → fs w' !! q = Some n) ∧
    (∀ q, is_Some (fs w !! q) → is_Some (fs w' !! q)) ∧
    (∀ q, fs w !! q = None → is_Some (fs w' !! q) → q `prefix_of` d ∨ d `prefix_of` q) ∧
    ctx_frame w w'.
Proof.
  intros d. destruct (create_backup_writes home w) as (r & w' & Hrun & Hfs & Henv).
  fold d in Hfs. exists r, w'. split_and!; [done | | | | by apply env_frame_ctx].
  - intros q n Hq Hout.
    destruct (Hfs q) as [E|[(N & _)|(Hp & _)]]; [by rewrite E | | done].
    rewrite N in Hq. discriminate.
  - intros q Hq. destruct (Hfs q) as [E|[(N & _)|(_ & S)]]; [by rewrite E | | done].
    rewrite N in Hq. by destruct Hq.
  - intros q Hq Hq'. destruct (Hfs q) as [E|[(_ & _ & Hp)|(Hp & _)]]; [|by left | by right].
    rewrite E, Hq in Hq'. by destruct Hq'.
Qed.

Lemma backup_writes_only_backup_dir_witness :
  let w := ex_world ex_storage_profile in
  let d := (LOG_DIR ex_home / ("backup_" +:+ strftime_file (now w)))%path in
  ∃ r w',
    create_backup ex_home w = (Return r, w') ∧
    (∀ q n, fs w !! q = Some n → ¬ d `prefix_of` q → fs w' !! q = Some n) ∧
    (∀ q, is_Some (fs w !! q) → is_Some (fs w' !! q)) ∧
    (∀ q, fs w !! q = None → is_Some (fs w' !! q) → q `prefix_of` d ∨ d `prefix_of` q) ∧
    ctx_frame w w'.
Proof. intros w. apply (backup_writes_only_backup_dir ex_home w). Defined.

(** ** Deleting a site and scanning again *)

Lemma get_unique_sites_healthy home tempdir w rows :
  let temp_db := (tempdir / ("tmp" +:+ Str.of_nat (tmp_seq w) +:+ ".db"))%path in
  fs w !! COOKIES_DB w = Some (cookie_store rows) →
  fs w !! tempdir = Some Dir →
  fs w !! temp_db = None →
  COOKIES_DB w ∉ denied w →
  temp_db ∉ denied w →
  ∃ w', get_unique_sites home tempdir w =
          (Return (sorted (collect_sites (remove_dups (omap Sqlite.where_host_present rows)))),
           w').
Proof.
  intros temp_db Hdb Hdir Hfree Hden Hdent.
  pose proof (get_unique_sites_try_run tempdir w _ Hdb Hdir Hfree Hden Hdent) as Htry.
  simpl in Htry. eexists. unfold get_unique_sites.
  rewrite (run_bind_return _ _ _ _ _
             (get_unique_sites_locate_present home w (mk_is_Some _ _ Hdb))).
  apply run_try_return. exact Htry.
Qed.

Lemma delete_cookies_healthy_seq site w rows :
  fs w !! COOKIES_DB w = Some (cookie_store rows) →
  COOKIES_DB w ∉ denied w →
  tmp_seq (delete_cookies_for_site site w).2 = tmp_seq w.
Proof.
  intros Hdb Hden. unfold delete_cookies_for_site.
  rewrite (run_try_return _ _ _ _ _ (delete_cookies_try_healthy site w rows Hdb Hden)).
  cbn [snd]. rewrite log_deletion_run. cbn [snd]. by destruct (log_ok _).
Qed.

Lemma lstrip_dot_cons_ne c s :
  c ≠ "."%char → Str.lstrip_dot (String c s) = String c s.
Proof. destruct c as [[|] [|] [|] [|] [|] [|] [|] [|]]; intros Hc; try reflexivity; done. Qed.

(** A host that strips to a non-empty [s] is [s] behind a run of dots. *)
Lemma lstrip_dot_inv h s :
  Str.lstrip_dot h = s → s ≠ "" → h = s ∨ ∃ sub, h = sub +:+ "." +:+ s.
Proof.
  induction h as [|c h IH]; intros Hs Hne; [by left|].
  destruct (decide (c = "."%char)) as [->|Hc].
  - simpl in Hs. right. destruct (IH Hs Hne) as [->|[sub ->]].
    + by exists "".
    + by exists (String "."%char sub).
  - rewrite lstrip_dot_cons_ne in Hs by done. by left.
Qed.

(** Every row whose host strips to the site matches a pattern. *)
Lemma stripped_host_matches site r h :
  Sqlite.host_key r = Some h → Str.lstrip_dot h = site → site ≠ "" →
  row_matches (patterns site) r = true.
Proof.
  intros Hk Hs Hne. apply row_matches_true.
  destruct (lstrip_dot_inv h site Hs Hne) as [->|[sub ->]].
  - exists site. split; [unfold patterns; left|].
    unfold Sqlite.where_like. rewrite Hk. by apply like_lower.
  - exists ("%." +:+ site). split; [unfold patterns; do 6 right; left|].
    unfold Sqlite.where_like. rewrite Hk.
    apply (like_percent_suffix ("." +:+ site)). by apply like_lower.
Qed.

(** After the cookies of a site are deleted from a healthy store, a new
    scan returns an inventory that does not list the site. *)
Theorem deleted_site_not_listed home tempdir site w rows :
  let temp_db := (tempdir / ("tmp" +:+ Str.of_nat (tmp_seq w) +:+ ".db"))%path in
  fs w !! COOKIES_DB w = Some (cookie_store rows) →
  fs w !! tempdir = Some Dir →
  fs w !! temp_db = None →
  COOKIES_DB w ∉ denied w →
  temp_db ∉ denied w →
  ∃ sites w',
    get_unique_sites home tempdir (delete_cookies_for_site site w).2 = (Return sites, w') ∧
    site ∉ sites.
Proof.
  intros temp_db Hdb Hdir Hfree Hden Hdent.
  pose proof (delete_cookies_healthy_seq site w rows Hdb Hden) as Hseq.
  destruct (delete_cookies_healthy site w rows Hdb Hden)
    as (w1 & Hrun & Hfs & (Hd1 & Hc1 & _) & _).
  rewrite Hrun in Hseq |- *. cbn [snd] in Hseq |- *.
  assert (Hne : COOKIES_DB w ≠ temp_db) by (intros E; rewrite E, Hfree in Hdb; done).
  assert (Hne' : COOKIES_DB w ≠ tempdir) by (intros E; rewrite E, Hdir in Hdb; done).
  destruct (get_unique_sites_healthy home tempdir w1
              (filter (λ r, row_matches (patterns site) r = false) rows))
    as (w' & Hscan).
  - by rewrite Hc1, Hfs, lookup_insert_eq.
  - by rewrite Hfs, lookup_insert_ne.
  - by rewrite Hseq, Hfs, lookup_insert_ne.
  - by rewrite Hc1, Hd1.
  - by rewrite Hseq, Hd1.
  - eexists _, w'. split; [exact Hscan|].
    destruct (inventory_spec (filter (λ r, row_matches (patterns site) r = false) rows))
      as (_ & _ & Hin).
    rewrite Hin. intros (Hsite & r & h & [Hno Hr]%list_elem_of_filter & Hk & Hs).
    rewrite (stripped_host_matches site r h) in Hno by done. discriminate.
Qed.

Lemma deleted_site_not_listed_witness :
  let w := ex_world (ex_profile ["x.com"; "..x.com"; "other.org"]) in
  ∃ sites w',
    get_unique_sites ex_home ex_tmp (delete_cookies_for_site "x.com" w).2
      = (Return sites, w') ∧
    "x.com" ∉ sites.
Proof.
  intros w.
  apply (deleted_site_not_listed ex_home ex_tmp "x.com" w
           (ex_row <$> ["x.com"; "..x.com"; "other.org"])).
  - reflexivity.
  - reflexivity.
  - reflexivity.
  - apply not_elem_of_empty.
  - apply not_elem_of_empty.
Defined.

(** * The window *)

(** ** Substrings *)

Lemma append_cons x (a b : string) : String x a +:+ b = String x (a +:+ b).
Proof. reflexivity. Qed.

Lemma append_assoc (a b c : string) : (a +:+ b) +:+ c = a +:+ b +:+ c.
Proof. induction a as [|x a IH]; [done|]. by rewrite !append_cons, IH. Qed.

Lemma prefix_spec n h : String.prefix n h = true ↔ ∃ post, h = n +:+ post.
Proof.
  revert h. induction n as [|c n IH]; intros [|d h]; simpl.
  - split; [intros _; by exists "" | done].
  - split; [intros _; by exists (String d h) | done].
  - split; [done | by intros [? ?]].
  - destruct (ascii_dec c d) as [->|Hne].
    + rewrite IH. split; intros [post Hp]; exists post;
        [by rewrite Hp | rewrite append_cons in Hp; by simplify_eq].
    + split; [done | intros [post Hp]; rewrite append_cons in Hp; by simplify_eq].
Qed.

Lemma contains_spec n h :
  Str.contains n h = true ↔ ∃ pre post, h = pre +:+ n +:+ post.
Proof.
  induction h as [|d h IH].
  - unfold Str.contains. rewrite orb_false_r, prefix_spec. split.
    + intros [post Hp]. by exists "", post.
    + intros ([|? ?] & post & Hp); [by exists post | done].
  - cbn [Str.contains]. rewrite orb_true_iff, prefix_spec, IH. split.
    + intros [[post Hp]|(pre & post & Hp)].
      * by exists "", post.
      * exists (String d pre), post. by rewrite Hp.
    + intros ([|x pre] & post & Hp).
      * left. by exists post.
      * right. exists pre, post. rewrite append_cons in Hp. by simplify_eq.
Qed.

Lemma contains_trans a b c :
  Str.contains a b = true → Str.contains b c = true → Str.contains a c = true.
Proof.
  rewrite !contains_spec. intros (p1 & q1 & ->) (p2 & q2 & ->).
  exists (p2 +:+ p1), (q1 +:+ q2). by rewrite !append_assoc.
Qed.

Lemma contains_empty h : Str.contains "" h = true.
Proof. apply contains_spec. by exists "", h. Qed.

Lemma lower_app a b : Str.lower (a +:+ b) = Str.lower a +:+ Str.lower b.
Proof.
  induction a as [|x a IH]; [done|].
  rewrite append_cons. simpl. by rewrite append_cons, IH.
Qed.

Lemma lower_split s x y :
  Str.lower s = x +:+ y → ∃ a b, s = a +:+ b ∧ Str.lower a = x ∧ Str.lower b = y.
Proof.
  revert s. induction x as [|c x IH]; intros s Hs; simpl in Hs.
  - by exists "", s.
  - rewrite append_cons in Hs.
    destruct s as [|d s]; [done|]. simpl in Hs. injection Hs as Hc Hs.
    destruct (IH s Hs) as (a & b & -> & Ha & Hb).
    exists (String d a), b. simpl. by rewrite Hc, Ha.
Qed.

(** The test of [update_list], in terms of the texts as typed. *)
Lemma contains_lower_spec t s :
  Str.contains (Str.lower t) (Str.lower s) = true ↔
  ∃ pre mid post, s = pre +:+ mid +:+ post ∧ Str.lower mid = Str.lower t.
Proof.
  rewrite contains_spec. split.
  - intros (pre' & post' & Hs).
    apply lower_split in Hs as (pre & rest & -> & _ & Hrest).
    apply lower_split in Hrest as (mid & post & -> & Hmid & _).
    by exists pre, mid, post.
  - intros (pre & mid & post & -> & Hmid).
    exists (Str.lower pre), (Str.lower post). by rewrite !lower_app, Hmid.
Qed.

(** ** [update_list] *)

Lemma listbox_inserts l a :
  listbox (fold_left listbox_insert_end l a) = listbox a ++ l ∧
  search_var (fold_left listbox_insert_end l a) = search_var a ∧
  sites (fold_left listbox_insert_end l a) = sites a.
Proof.
  revert a. induction l as [|x l IH]; intros a; simpl.
  - by rewrite app_nil_r.
  - destruct (IH (listbox_insert_end a x)) as (-> & -> & ->). simpl.
    by rewrite <-app_assoc.
Qed.

Lemma update_list_listbox a :
  listbox (update_list a) =
  match sites a with
  | None => []
  | Some l =>
      filter (λ site, Str.contains (Str.lower (search_var a)) (Str.lower site) = true) l
  end.
Proof.
  unfold update_list. simpl. destruct (sites a) as [l|]; [|done].
  by destruct (listbox_inserts (filter (λ site,
       Str.contains (Str.lower (search_var a)) (Str.lower site) = true) l)
       (listbox_clear a)) as (-> & _).
Qed.

(** The list shows exactly the sites of the inventory that contain the
    search text as a contiguous part, both lowered as [str.lower()] lowers
    them (capitals above ASCII included), in the order of the inventory;
    whatever it showed before is gone, and the search text and the
    inventory are untouched. *)
Theorem search_shows_matching_sites a l :
  sites a = Some l →
  listbox (update_list a) `sublist_of` l ∧
  search_var (update_list a) = search_var a ∧
  sites (update_list a) = sites a ∧
  ∀ site, site ∈ listbox (update_list a) ↔
          site ∈ l ∧
          ∃ pre mid post, site = pre +:+ mid +:+ post ∧
                          Str.lower mid = Str.lower (search_var a).
Proof.
  intros Hl. rewrite update_list_listbox, Hl. split_and!.
  - apply sublist_filter.
  - unfold update_list. simpl. rewrite Hl.
    by destruct (listbox_inserts (filter (λ site,
         Str.contains (Str.lower (search_var a)) (Str.lower site) = true) l)
         (listbox_clear a)) as (_ & -> & _).
  - unfold update_list. simpl. rewrite Hl.
    by destruct (listbox_inserts (filter (λ site,
         Str.contains (Str.lower (search_var a)) (Str.lower site) = true) l)
         (listbox_clear a)) as (_ & _ & ->).
  - intros site. rewrite list_elem_of_filter, contains_lower_spec. tauto.
Qed.

Lemma search_shows_matching_sites_witness :
  let a := {| search_var := "GIT"; sites := Some ["example.org"; "github.com"; "gitlab.com"];
              listbox := ["stale"] |} in
  listbox (update_list a) `sublist_of` ["example.org"; "github.com"; "gitlab.com"] ∧
  search_var (update_list a) = search_var a ∧
  sites (update_list a) = sites a ∧
  ∀ site, site ∈ listbox (update_list a) ↔
          site ∈ ["example.org"; "github.com"; "gitlab.com"] ∧
          ∃ pre mid post, site = pre +:+ mid +:+ post ∧
                          Str.lower mid = Str.lower (search_var a).
Proof. intros a. apply (search_shows_matching_sites a). reflexivity. Defined.

(** Extending the search text never brings a site back: if the old text
    occurs in the new one, both lowered as [str.lower()] lowers them, the
    new list is a sublist of the old one. *)
Theorem search_refinement_narrows a b :
  sites a = sites b →
  Str.contains (Str.lower (search_var a)) (Str.lower (search_var b)) = true →
  listbox (update_list b) `sublist_of` listbox (update_list a).
Proof.
  intros Hs Hsub. rewrite !update_list_listbox, Hs.
  destruct (sites b) as [l|]; [|done]. clear Hs.
  induction l as [|site l IH]; [done|].
  rewrite !filter_cons. repeat case_decide.
  - by apply sublist_skip.
  - exfalso. eauto using contains_trans.
  - by apply sublist_cons.
  - done.
Qed.

Lemma search_refinement_narrows_witness :
  let old := {| search_var := "Git"; sites := Some ["example.org"; "github.com"; "gitlab.com"];
                listbox := [] |} in
  let new := {| search_var := "gitH"; sites := Some ["example.org"; "github.com"; "gitlab.com"];
                listbox := [] |} in
  listbox (update_list new) `sublist_of` listbox (update_list old).
Proof. intros old new. apply (search_refinement_narrows old new); reflexivity. Defined.

(** With an empty search box the list is the whole inventory, in its
    order; before any inventory has been loaded the list is empty. *)
Theorem empty_search_lists_all a :
  (search_var a = "" → ∀ l, sites a = Some l → listbox (update_list a) = l) ∧
  (sites a = None → listbox (update_list a) = []).
Proof.
  split.
  - intros Hs l Hl. rewrite update_list_listbox, Hl, Hs. clear Hl. simpl.
    induction l as [|site l IH]; [done|].
    rewrite filter_cons, decide_True by apply contains_empty.
    by rewrite IH.
  - intros Hn. by rewrite update_list_listbox, Hn.
Qed.

Lemma empty_search_lists_all_witness :
  let a := {| search_var := ""; sites := Some ["b.org"; "a.com"]; listbox := ["stale"] |} in
  listbox (update_list a) = ["b.org"; "a.com"].
Proof.
  intros a. destruct (empty_search_lists_all a) as [H _].
  apply H; reflexivity.
Defined.

(** The search follows [str.lower()] beyond ASCII: the capital [É] finds
    the site [é.com]. *)
Example capital_search_finds_small_site :
  let small := String (ascii_of_nat 233) ".com" in
  let a := {| search_var := String (ascii_of_nat 201) "";
              sites := Some ["a.com"; small]; listbox := [] |} in
  listbox (update_list a) = [small].
Proof. by vm_compute. Qed.

(** ** [update_countdown] *)

Lemma countdown_state c n k :
  countdown_seconds c = Z.of_nat n → confirm_enabled c = false → scheduled c = 0%nat →
  Nat.iter k timer_fires (update_countdown c) =
  if (k <? n)%nat then
    {| countdown_seconds := Z.of_nat n - Z.of_nat k - 1;
       countdown_var := "Confirm (" +:+ str_of_Z (Z.of_nat n - Z.of_nat k) +:+ ")";
       confirm_enabled := false;
       scheduled := 1 |}
  else
    {| countdown_seconds := 0;
       countdown_var := "CONFIRM DELETE";
       confirm_enabled := true;
       scheduled := 0 |}.
Proof.
  intros Hn Hoff Hs. induction k as [|k IH].
  - simpl. unfold update_countdown. rewrite Hn, Hoff, Hs.
    destruct n as [|n]; [done|].
    replace (0 <? Z.of_nat (S n))%Z with true by (symmetry; apply Z.ltb_lt; lia).
    simpl. do 2 f_equal; lia.
  - rewrite Nat.iter_succ, IH. clear IH.
    destruct (k <? n)%nat eqn:Hk; [|by rewrite (proj2 (Nat.ltb_ge (S k) n))
      by (apply Nat.ltb_ge in Hk; lia)].
    apply Nat.ltb_lt in Hk. unfold timer_fires, update_countdown. simpl.
    destruct (decide (S k < n)%nat) as [Hlt|Hge].
    + rewrite (proj2 (Nat.ltb_lt (S k) n)) by done.
      replace (0 <? Z.of_nat n - Z.of_nat k - 1)%Z with true
        by (symmetry; apply Z.ltb_lt; lia).
      f_equal; [lia|]. do 3 f_equal. lia.
    + rewrite (proj2 (Nat.ltb_ge (S k) n)) by lia.
      replace (0 <? Z.of_nat n - Z.of_nat k - 1)%Z with false
        by (symmetry; apply Z.ltb_ge; lia).
      f_equal. lia.
Qed.

(** Started with [countdown_seconds = n], the button disabled and no call
    pending, [update_countdown] enables the confirm button when the timer
    has fired [n] times and not before; until then the button shows the
    seconds left and one more call is pending, and afterwards none is. *)
Theorem confirm_waits_for_countdown c n k :
  countdown_seconds c = Z.of_nat n → confirm_enabled c = false → scheduled c = 0%nat →
  let c' := Nat.iter k timer_fires (update_countdown c) in
  (confirm_enabled c' = true ↔ (n ≤ k)%nat) ∧
  ((k < n)%nat →
     countdown_var c' = "Confirm (" +:+ str_of_Z (Z.of_nat n - Z.of_nat k) +:+ ")" ∧
     scheduled c' = 1%nat) ∧
  ((n ≤ k)%nat → countdown_var c' = "CONFIRM DELETE" ∧ scheduled c' = 0%nat).
Proof.
  intros Hn Hoff Hs c'. unfold c'. rewrite (countdown_state c n k Hn Hoff Hs).
  destruct (k <? n)%nat eqn:Hk.
  - apply Nat.ltb_lt in Hk. simpl. split_and!; [split; [done | lia] | done | lia].
  - apply Nat.ltb_ge in Hk. simpl. split_and!; [done | lia | done].
Qed.

Lemma confirm_waits_for_countdown_witness :
  let c := {| countdown_seconds := 5; countdown_var := "Confirm (10)";
              confirm_enabled := false; scheduled := 0 |} in
  let c' := Nat.iter 4 timer_fires (update_countdown c) in
  (confirm_enabled c' = true ↔ (5 ≤ 4)%nat) ∧
  ((4 < 5)%nat →
     countdown_var c' = "Confirm (" +:+ str_of_Z (Z.of_nat 5 - Z.of_nat 4) +:+ ")" ∧
     scheduled c' = 1%nat) ∧
  ((5 ≤ 4)%nat → countdown_var c' = "CONFIRM DELETE" ∧ scheduled c' = 0%nat).
Proof.
  intros c. apply (confirm_waits_for_countdown c 5 4); reflexivity.
Defined.

(** ** The turn of [execute_deletion] for one site *)




#[local] Transparent patterns.

Lemma delete_cookies_try_fault_run site w img e :
  fs w !! COOKIES_DB w = Some (File (Database img)) → db_fault img = Some e →
  COOKIES_DB w ∉ denied w →
  delete_cookies_try site w = (Raise e, w).
Proof.
  intros Hdb Hf Hden. unfold delete_cookies_try. rewrite run_bind. simpl. rewrite run_bind.
  unfold sqlite3_connect, node_at, is_denied.
  rewrite bool_decide_eq_false_2 by done. rewrite Hdb. simpl.
  rewrite run_bind. unfold patterns. simpl. rewrite run_bind.
  unfold delete_pattern at 1. rewrite run_bind. unfold delete_where_like, statement.
  simpl. by rewrite Hf.
Qed.

#[local] Opaque patterns.

(** A site whose cookie deletion failed on a faulty store (locked,
    damaged) and that has no entry in the storage directories is shown as
    [No data found] and counted as a success; the error reaches the log
    file only. *)
Theorem failed_cookie_deletion_shown_as_no_data home site p w img e :
  fs w !! COOKIES_DB w = Some (File (Database img)) →
  db_fault img = Some e →
  denied w = ∅ →
  (∀ sp, sp ∈ storage_paths home → storage_clean (Str.lower site) sp.1 w) →
  log_ok w = true →
  ∃ w',
    site_turn home site p w =
      (Return {| log_text := log_text p ++ ["✓ No data found" +:+ nl];
                 success_count := success_count p + 1;
                 error_count := error_count p |}, w') ∧
    log_lines w' = log_lines w ++ [log_line (now w) "COOKIES" site "ERROR" (exc_msg e)] ∧
    fs w' = fs w.
Proof.
  intros Hdb Hf Hden Hclean Hlog.
  assert (Htry : delete_cookies_try site w = (Raise e, w)).
  { apply (delete_cookies_try_fault_run site w img e); [done..|].
    rewrite Hden. apply not_elem_of_empty. }
  destruct (delete_cookies_except_run site e w) as (w1 & Hexc & Hfs1 & (Hd1 & _) & Hl1 & _).
  assert (Hc : delete_cookies_for_site site w = (Return 0%nat, w1)).
  { unfold delete_cookies_for_site. by rewrite (run_try_raise _ _ _ _ _ Htry). }
  assert (Hs : delete_site_data_folders home site w1 = (Return [], w1)).
  { apply storage_pass_idle; [by rewrite Hd1|].
    intros sp Hsp Hdir q Hq Hm. rewrite Hfs1 in Hdir |- *. by apply (Hclean sp). }
  exists w1. split_and!; [|by apply Hl1 | done].
  unfold site_turn, try_except.
  by rewrite (run_bind_return _ _ _ _ _ Hc), (run_bind_return _ _ _ _ _ Hs).
Qed.

Lemma failed_cookie_deletion_shown_as_no_data_witness :
  let e := {| exc_class := OperationalError_; exc_msg := "database is locked" |} in
  let w := ex_world (ex_faulty_profile e) in
  let p := {| log_text := []; success_count := 0; error_count := 0 |} in
  ∃ w',
    site_turn ex_home "a.com" p w =
      (Return {| log_text := log_text p ++ ["✓ No data found" +:+ nl];
                 success_count := success_count p + 1;
                 error_count := error_count p |}, w') ∧
    log_lines w' = log_lines w ++ [log_line (now w) "COOKIES" "a.com" "ERROR" (exc_msg e)] ∧
    fs w' = fs w.
Proof.
  intros e w p.
  apply (failed_cookie_deletion_shown_as_no_data ex_home "a.com" p w
           {| db_fault := Some e; db_cookies := Some [ex_row "a.com"] |} e).
  - reflexivity.
  - reflexivity.
  - reflexivity.
  - intros sp Hsp Hdir. exfalso. revert Hdir.
    unfold storage_paths in Hsp.
    repeat (apply elem_of_cons in Hsp as [->|Hsp]); [..|by apply elem_of_nil in Hsp];
      by vm_compute.
  - reflexivity.
Defined.

(** * Process management *)

Lemma length_filter_cons_bool {A} (f : A → bool) x (l : list A) :
  length (filter (λ y, f y = true) (x :: l)) =
  ((if f x then 1 else 0) + length (filter (λ y, f y = true) l))%nat.
Proof.
  rewrite filter_cons. case_decide as Hx; destruct (f x); simpl; congruence.
Qed.

(** The loop over the lines of [tasklist]: it stops with [IndexError] at
    the first short Chrome line, and otherwise counts the counted ones. *)
Lemma count_chrome_lines_run lines count w :
  for_each count_chrome_line count lines w =
  if existsb chrome_line_short lines then
    (Raise {| exc_class := Exception_; exc_msg := "list index out of range" |}, w)
  else
    (Return (count + length (filter (λ line, chrome_line_counted line = true) lines))%nat, w).
Proof.
  revert count. induction lines as [|line lines IH]; intros count.
  { simpl. by rewrite Nat.add_0_r. }
  cbn [for_each existsb]. rewrite run_bind, length_filter_cons_bool.
  unfold count_chrome_line at 1, chrome_line_short at 1, chrome_line_counted at 1.
  destruct (Str.contains "chrome.exe" (Str.lower line)); simpl.
  2:{ rewrite IH. by destruct (existsb _ _). }
  rewrite run_bind. unfold item_second_last.
  destruct (rev (PyStr.split line) !! 1%nat) as [field|]; simpl; [|done].
  destruct (Str.contains "k" (Str.lower field)); simpl; rewrite IH;
    destruct (existsb _ _); try done.
  do 2 f_equal. lia.
Qed.

Lemma existsb_filter_length {A} (f : A → bool) (l : list A) :
  (0 <? length (filter (λ x, f x = true) l))%nat = existsb f l.
Proof.
  induction l as [|x l IH]; [done|].
  rewrite length_filter_cons_bool. simpl. by destruct (f x).
Qed.

Lemma is_chrome_running_run tasklist wmic w :
  ∃ w',
    is_chrome_running tasklist wmic w = (Return (chrome_verdict tasklist wmic), w') ∧
    fs w' = fs w ∧ env_frame w w'.
Proof.
  unfold is_chrome_running, chrome_verdict, try_except, subprocess_run.
  rewrite run_bind.
  destruct tasklist as [out|e]; [|eexists; rewrite run_bind; by split_and!].
  fold (output_lines out). rewrite run_bind, count_chrome_lines_run.
  destruct (existsb chrome_line_short (output_lines out)); simpl;
    [eexists; rewrite run_bind; by split_and!|].
  rewrite existsb_filter_length.
  destruct (existsb chrome_line_counted (output_lines out)); simpl;
    [eexists; by split_and!|].
  rewrite run_bind.
  destruct wmic as [out'|e]; [|eexists; by split_and!].
  fold (output_lines out'). rewrite length_fmap.
  rewrite (existsb_filter_length (λ line, PyStr.isdigit (PyStr.strip line))).
  eexists; by split_and!.
Qed.

(** [is_chrome_running] never raises and leaves the world alone but for
    the console.  It answers yes when the [tasklist] command could not be
    run, when a line of its output names Chrome and has fewer than two
    fields, or when such a line has the letter k in its last field but
    one; otherwise it answers what the [wmic] command shows (yes when a
    line of its output is a number) and no when that command could not
    be run. *)
Theorem chrome_check_verdict tasklist wmic w :
  ∃ w',
    is_chrome_running tasklist wmic w = (Return (chrome_verdict tasklist wmic), w') ∧
    fs w' = fs w ∧ env_frame w w'.
Proof. apply is_chrome_running_run. Qed.

(** Rows of the shape [tasklist] prints (image name, process id, session
    name, session number, memory, the unit K) are not counted: the field
    the program reads is the memory figure, not the unit.  With such
    output the answer is the one of [wmic], and it is no when [wmic]
    cannot be run, a Chrome row notwithstanding. *)
Theorem tasklist_rows_defer_to_wmic out wmic w :
  (∀ line, line ∈ output_lines out →
           Str.contains "chrome.exe" (Str.lower line) = true →
           ∃ field, rev (PyStr.split line) !! 1%nat = Some field ∧
                    Str.contains "k" (Str.lower field) = false) →
  (is_chrome_running (Return out) wmic w).1 =
  Return (match wmic with
          | Raise _ => false
          | Return out' =>
              existsb (λ line, PyStr.isdigit (PyStr.strip line)) (output_lines out')
          end).
Proof.
  intros Hrows.
  destruct (is_chrome_running_run (Return out) wmic w) as (w' & -> & _).
  simpl. f_equal.
  assert (Hs : existsb chrome_line_short (output_lines out) = false).
  { apply not_true_iff_false. intros (line & Hin & Hl)%existsb_exists.
    apply list_elem_of_In in Hin. unfold chrome_line_short in Hl.
    apply andb_true_iff in Hl as [Hc Hn%bool_decide_eq_true].
    destruct (Hrows line Hin Hc) as (field & Hf & _). congruence. }
  assert (Hk : existsb chrome_line_counted (output_lines out) = false).
  { apply not_true_iff_false. intros (line & Hin & Hl)%existsb_exists.
    apply list_elem_of_In in Hin. unfold chrome_line_counted in Hl.
    apply andb_true_iff in Hl as [Hc Hn].
    destruct (Hrows line Hin Hc) as (field & Hf & Hno). rewrite Hf in Hn. congruence. }
  by rewrite Hs, Hk.
Qed.

Lemma tasklist_rows_defer_to_wmic_witness :
  (is_chrome_running (Return ex_tasklist)
     (Raise {| exc_class := FileNotFoundError_;
               exc_msg := "[WinError 2] The system cannot find the file specified" |})
     (ex_world ∅)).1 = Return false.
Proof.
  apply (tasklist_rows_defer_to_wmic ex_tasklist
           (Raise {| exc_class := FileNotFoundError_;
                     exc_msg := "[WinError 2] The system cannot find the file specified" |})
           (ex_world ∅)).
  intros line Hin.
  assert (Hlines : output_lines ex_tasklist =
    [ "Image Name                     PID Session Name        Session#    Mem Usage";
      "========================= ======== ================ =========== ============";
      "chrome.exe                    4312 Console                    1    183,104 K" ])
    by (by vm_compute).
  rewrite Hlines in Hin.
  repeat (apply elem_of_cons in Hin as [->|Hin]); [..|by apply elem_of_nil in Hin];
    intros Hc; try (by vm_compute in Hc).
  exists "183,104". by vm_compute.
Defined.

(** ** Deleting cookies when there is no store *)

#[local] Transparent patterns.

(** When the cookie store does not exist but its directory does, opening
    it creates an empty file, the first [DELETE] fails for want of the
    table, and [delete_cookies_for_site] returns 0 with that error in the
    log: the empty file stays behind, and nothing else changes.  When the
    directory is missing too, nothing is created. *)
Theorem missing_store_left_empty site w :
  fs w !! COOKIES_DB w = None →
  COOKIES_DB w ∉ denied w →
  log_ok w = true →
  ∃ w' msg,
    delete_cookies_for_site site w = (Return 0%nat, w') ∧
    log_lines w' = log_lines w ++ [log_line (now w) "COOKIES" site "ERROR" msg] ∧
    ctx_frame w w' ∧
    match fs w !! path_parent (COOKIES_DB w) with
    | Some Dir =>
        fs w' = <[COOKIES_DB w := File (Text [])]> (fs w) ∧
        msg = "no such table: cookies"
    | _ => fs w' = fs w ∧ msg = "unable to open database file"
    end.
Proof.
  intros Hnone Hden Hlog.
  assert (Htry : ∃ e w1,
    delete_cookies_try site w = (Raise e, w1) ∧ ctx_frame w w1 ∧ log_ok w1 = true ∧
    log_lines w1 = log_lines w ∧
    match fs w !! path_parent (COOKIES_DB w) with
    | Some Dir =>
        fs w1 = <[COOKIES_DB w := File (Text [])]> (fs w) ∧
        exc_msg e = "no such table: cookies"
    | _ => fs w1 = fs w ∧ exc_msg e = "unable to open database file"
    end).
  { unfold delete_cookies_try. rewrite run_bind. simpl. rewrite run_bind.
    unfold sqlite3_connect, node_at, is_denied, sql_error, raise.
    rewrite bool_decide_eq_false_2 by done. rewrite Hnone.
    destruct (fs w !! path_parent (COOKIES_DB w)) as [[|d]|] eqn:Hp.
    - rewrite run_bind. unfold patterns. simpl.
      eexists _, _. by split_and!.
    - eexists _, _. by split_and!.
    - eexists _, _. by split_and!. }
  destruct Htry as (e & w1 & Htry & Hctx & Hlog1 & Hlines1 & Hcase).
  destruct (delete_cookies_except_run site e w1) as (w' & Hrun & Hfs & Hctx' & Hl & _).
  exists w', (exc_msg e). split_and!.
  - unfold delete_cookies_for_site. by rewrite (run_try_raise _ _ _ _ _ Htry).
  - rewrite (Hl Hlog1), Hlines1. by destruct Hctx as (_ & _ & _ & ->).
  - by etrans.
  - rewrite Hfs. by destruct (fs w !! path_parent (COOKIES_DB w)) as [[|?]|].
Qed.

#[local] Opaque patterns.

Lemma missing_store_left_empty_witness :
  let w := ex_world (<[path_parent (COOKIES_DB_default ex_home) := Dir]> ∅) in
  ∃ w' msg,
    delete_cookies_for_site "x.com" w = (Return 0%nat, w') ∧
    log_lines w' = log_lines w ++ [log_line (now w) "COOKIES" "x.com" "ERROR" msg] ∧
    ctx_frame w w' ∧
    match fs w !! path_parent (COOKIES_DB w) with
    | Some Dir =>
        fs w' = <[COOKIES_DB w := File (Text [])]> (fs w) ∧
        msg = "no such table: cookies"
    | _ => fs w' = fs w ∧ msg = "unable to open database file"
    end.
Proof.
  intros w. apply (missing_store_left_empty "x.com" w).
  - reflexivity.
  - apply not_elem_of_empty.
  - reflexivity.
Defined.

(** ** The copy of the cookie store in a backup *)

Lemma path_name_join (d : Path) c : path_name (d / c)%path = c.
Proof. unfold path_name, path_join. by rewrite last_snoc. Qed.

Lemma path_join_inj (d : Path) c c' : (d / c)%path = (d / c')%path → c = c'.
Proof. unfold path_join. intros H. apply app_inv_head in H. by simplify_eq. Qed.

Lemma child_not_above_sibling (d : Path) c c' : c ≠ c' → ¬ (d / c)%path `prefix_of` (d / c')%path.
Proof.
  intros Hne [k Hk]. unfold path_join in Hk. rewrite <-app_assoc in Hk.
  apply app_inv_head in Hk. simpl in Hk. by simplify_eq.
Qed.

Section KeepsNode.

Variables (p : Path) (n : Node).

#[local] Instance keeps_node_preorder : PreOrder (keeps_node p n).
Proof.
  split.
  - intros w H. exact H.
  - intros w1 w2 w3 H12 H23 H1. apply H23, H12, H1.
Qed.

Lemma keeps_insert_ne q m w : q ≠ p → keeps_node p n w (set_fs <[q := m]> w).
Proof. intros Hq H. simpl. by rewrite lookup_insert_ne. Qed.

Lemma keeps_mkdir_one q : preserves (keeps_node p n) (mkdir_one q).
Proof.
  intros w. unfold mkdir_one, node_at, permission_denied, raise.
  destruct (fs w !! q) as [[|d]|] eqn:Hq; simpl; [reflexivity..|].
  destruct (is_denied w q); simpl; [reflexivity|].
  intros H. simpl. rewrite lookup_insert_ne; [done|]. intros ->. congruence.
Qed.

Lemma keeps_mkdir_parents q : preserves (keeps_node p n) (mkdir_parents q).
Proof.
  unfold mkdir_parents. apply preserves_for_each; [apply _|].
  intros _ k _. apply keeps_mkdir_one.
Qed.

Lemma keeps_copy2 src dst :
  dst ≠ p → (dst / path_name src)%path ≠ p → preserves (keeps_node p n) (copy2 src dst).
Proof.
  intros Hd Hd' w. unfold copy2, node_at, permission_denied, no_such_file, raise.
  destruct (is_denied w src); simpl; [reflexivity|].
  destruct (fs w !! src) as [[|data]|]; simpl; [reflexivity| |reflexivity].
  set (target := match fs w !! dst with Some Dir => (dst / path_name src)%path | _ => dst end).
  assert (Ht : target ≠ p) by (unfold target; by destruct (fs w !! dst) as [[|?]|]).
  destruct (is_denied w target); simpl; [reflexivity|].
  destruct (fs w !! target) as [[|?]|], (fs w !! path_parent target) as [[|?]|];
    simpl; try reflexivity; by apply keeps_insert_ne.
Qed.

Lemma keeps_copy_entries src dst :
  ¬ dst `prefix_of` p → preserves (keeps_node p n) (copy_entries src dst).
Proof.
  intros Hd w. unfold copy_entries.
  set (copied := kmap _ _).
  assert (Hstep : keeps_node p n w (set_fs (λ m, copied ∪ m) w)).
  { intros H. simpl. rewrite lookup_union_r; [done|].
    destruct (copied !! p) as [m|] eqn:Hq; [|done]. destruct Hd.
    unfold copied, kmap in Hq. apply elem_of_list_to_map_2 in Hq.
    apply list_elem_of_fmap in Hq as ([q0 n0] & [= -> ->] & _). by eexists. }
  destruct (bool_decide _); exact Hstep.
Qed.

End KeepsNode.

#[local] Existing Instance keeps_node_preorder.

Lemma keeps_backup_one n dir count fp :
  path_name fp ≠ "Cookies" →
  preserves (keeps_node (dir / "Cookies")%path n) (backup_one dir count (Some fp)).
Proof.
  intros Hname. unfold backup_one.
  assert (Hsib : ¬ (dir / path_name fp)%path `prefix_of` (dir / "Cookies")%path)
    by (by apply child_not_above_sibling).
  apply preserves_bind; [apply _ | apply preserves_gets; apply _ |].
  intros [|]; [|apply preserves_ret; apply _].
  apply preserves_bind; [apply _ | apply preserves_gets; apply _ |].
  intros [|].
  - apply preserves_bind; [apply _ | | intros _; apply preserves_ret; apply _].
    apply keeps_copy2.
    + intros E. by apply path_join_inj in E.
    + intros E. apply (f_equal length) in E. rewrite !length_path_join in E. lia.
  - apply preserves_bind; [apply _ | apply preserves_gets; apply _ |].
    intros [|]; [|apply preserves_ret; apply _].
    apply preserves_bind; [apply _ | | intros _; apply preserves_ret; apply _].
    unfold copytree. apply preserves_bind; [apply _ | apply keeps_mkdir_parents |].
    intros _. by apply keeps_copy_entries.
Qed.


Lemma backup_one_count dir count fp w count' w' :
  backup_one dir count fp w = (Return count', w') → (count ≤ count')%nat.
Proof.
  unfold backup_one, path_exists, path_is_file, path_is_dir, gets.
  destruct fp as [fp|]; [|by intros [= <- _]].
  rewrite run_bind. cbv beta iota.
  destruct (node_at w fp) as [[|d]|] eqn:E; [| |by intros [= <- _]].
  - rewrite run_bind. cbv beta iota. rewrite E.
    rewrite run_bind. cbv beta iota. rewrite E.
    intros (? & ? & _ & [= <- _])%bind_return_inv. lia.
  - rewrite run_bind. cbv beta iota. rewrite E.
    intros (? & ? & _ & [= <- _])%bind_return_inv. lia.
Qed.

Lemma copy2_return_inv src dst data w w' :
  copy2 src dst w = (Return tt, w') →
  fs w !! src = Some (File data) → fs w !! dst ≠ Some Dir →
  w' = set_fs <[dst := File data]> w.
Proof.
  unfold copy2, node_at, permission_denied, no_such_file, raise.
  intros H Hsrc Hdst. rewrite Hsrc in H.
  destruct (is_denied w src); [done|].
  destruct (fs w !! dst) as [[|d]|] eqn:Ed; [done|..];
    repeat case_match; try discriminate; by injection H as <-.
Qed.

Lemma mkdir_parents_step p : preserves (mkdir_step p) (mkdir_parents p).
Proof.
  unfold mkdir_parents. apply preserves_for_each; [apply _|].
  intros _ k _ w. unfold mkdir_one, node_at, permission_denied, raise.
  destruct (fs w !! take k p) as [[|d]|] eqn:Hq; simpl; [reflexivity..|].
  destruct (is_denied w (take k p)); simpl; [reflexivity|].
  split; [|done]. intros q. simpl.
  destruct (decide (q = take k p)) as [->|Hne].
  - right. rewrite lookup_insert_eq. split_and!; [done..|]. apply prefix_take.
  - left. by rewrite lookup_insert_ne.
Qed.

Lemma storage_parent_names home :
  path_name (path_parent (LOCAL_STORAGE_PATH home)) = "Local Storage" ∧
  path_name (path_parent (SESSION_STORAGE_PATH home)) = "Session Storage".
Proof.
  unfold LOCAL_STORAGE_PATH, SESSION_STORAGE_PATH.
  by rewrite !path_parent_join, !path_name_join.
Qed.

#[local] Opaque LOCAL_STORAGE_PATH SESSION_STORAGE_PATH LOG_DIR CHROME_PROFILE.

(** A backup that succeeds holds the cookie store: when [create_backup]
    returns a directory, the store is a file named [Cookies], and the
    place of its copy is not taken by a directory, the file [Cookies] in
    the backup directory has the very content of the store, and the count
    returned is at least one. *)
Theorem backup_holds_store_copy home w dir count w' data :
  create_backup home w = (Return (Some dir, count), w') →
  fs w !! COOKIES_DB w = Some (File data) →
  path_name (COOKIES_DB w) = "Cookies" →
  fs w !! (dir / "Cookies")%path ≠ Some Dir →
  fs w' !! (dir / "Cookies")%path = Some (File data) ∧ (1 ≤ count)%nat.
Proof.
  intros Hrun%create_backup_return_inv Hdb Hname Hdest.
  unfold create_backup_try in Hrun.
  apply bind_return_inv in Hrun as (t & w0 & [= <- <-] & Hrun).
  apply bind_return_inv in Hrun as ([] & w1 & Hmk & Hrun).
  apply bind_return_inv in Hrun as (db & ? & [= <- <-] & Hrun).
  apply bind_return_inv in Hrun as (ls & ? & [= <- <-] & Hrun).
  apply bind_return_inv in Hrun as (ss & ? & [= <- <-] & Hrun).
  apply bind_return_inv in Hrun as (c3 & w4 & Hloop & Hrun).
  apply bind_return_inv in Hrun as (t' & ? & [= <- <-] & Hrun).
  apply bind_return_inv in Hrun as ([] & w5 & Hwrite & [= <- <- <-]).
  set (dir := (LOG_DIR home / ("backup_" +:+ strftime_file (now w)))%path) in *.
  set (dest := (dir / "Cookies")%path) in *.
  pose proof (preserves_run _ _ _ _ _ (env_mkdir_parents _) Hmk) as (_ & Hc1 & _).
  pose proof (preserves_run _ _ _ _ _ (keeps_mkdir_parents _ (File data) _) Hmk Hdb) as Hdb1.
  assert (Hdest1 : fs w1 !! dest ≠ Some Dir).
  { rewrite (mkdir_step_prefix dir w w1 dest); [done | | apply child_not_above_parent].
    exact (preserves_run _ _ _ _ _ (mkdir_parents_step dir) Hmk). }
  rewrite Hc1 in Hloop. cbn [for_each] in Hloop.
  apply bind_return_inv in Hloop as (c1 & w2 & Hone & Hloop).
  apply bind_return_inv in Hloop as (c2 & w3 & Htwo & Hloop).
  apply bind_return_inv in Hloop as (c3' & w4' & Hthree & [= <- <-]).
  assert (Hcopy : c1 = 1%nat ∧ fs w2 !! dest = Some (File data)).
  { unfold backup_one in Hone.
    unfold path_exists, path_is_file, gets, node_at in Hone.
    rewrite run_bind in Hone. cbv beta iota in Hone. rewrite Hdb1 in Hone.
    rewrite run_bind in Hone. cbv beta iota in Hone. rewrite Hdb1 in Hone.
    apply bind_return_inv in Hone as ([] & w2' & Hcp & [= <- <-]).
    rewrite Hname in Hcp. fold dest in Hcp.
    apply (copy2_return_inv _ _ data) in Hcp as ->; [|done..].
    split; [done|]. simpl. apply lookup_insert_eq. }
  destruct Hcopy as [-> Hdest2].
  assert (Hkeep : ∀ c fp w w' c',
            backup_one dir c fp w = (Return c', w') →
            (∀ q, fp = Some q → path_name q ≠ "Cookies") →
            fs w !! dest = Some (File data) → fs w' !! dest = Some (File data)).
  { intros c [q|] wa wb c' Hb Hq; [|by injection Hb as _ <-].
    apply (preserves_run _ _ _ _ _
             (keeps_backup_one (File data) dir c q (Hq q eq_refl)) Hb). }
  split.
  - apply write_text_return_inv in Hwrite as ->. simpl.
    rewrite lookup_insert_ne
      by (intros E; by apply path_join_inj in E).
    apply (Hkeep _ _ _ _ _ Hthree).
    { intros q Hq. repeat case_match; simplify_eq;
        by rewrite (proj2 (storage_parent_names home)). }
    apply (Hkeep _ _ _ _ _ Htwo); [|done].
    intros q Hq. repeat case_match; simplify_eq;
      by rewrite (proj1 (storage_parent_names home)).
  - apply backup_one_count in Htwo, Hthree. lia.
Qed.

#[local] Transparent LOCAL_STORAGE_PATH SESSION_STORAGE_PATH LOG_DIR CHROME_PROFILE.

Lemma backup_holds_store_copy_witness :
  let w := ex_world ex_storage_profile in
  let dir := (LOG_DIR ex_home / ("backup_" +:+ strftime_file (now w)))%path in
  fs (create_backup ex_home w).2 !! (dir / "Cookies")%path
    = Some (cookie_store (ex_row <$> ["x.com"; "other.org"])) ∧
  (1 ≤ 1)%nat.
Proof.
  intros w dir.
  assert (Hret : (create_backup ex_home w).1 = Return (Some dir, 1%nat))
    by (vm_compute; reflexivity).
  apply (backup_holds_store_copy ex_home w dir 1 (create_backup ex_home w).2
           (Database {| db_fault := None;
                        db_cookies := Some (ex_row <$> ["x.com"; "other.org"]) |})).
  - rewrite <-Hret. by destruct (create_backup ex_home w).
  - reflexivity.
  - reflexivity.
  - vm_compute. discriminate.
Defined.
